(** * A shallow embedding of the text-editing core of Plugin.cpp

    The embedded code is the [TextEditor] class of
    [CppLuaEditor/example_plugin/Plugin.cpp]: the line buffer, the
    coordinate arithmetic, the side tables, the dirty-range colorizer
    scheduling, the edit operations and the undo log.

    Conventions.
    - [int] values are integers of [Z]; the arithmetic of the buffer is
      bounded by the size of the text, so signed overflow (undefined in C++)
      is not modelled.  Where the source compares an [int] with a [size_t],
      or casts between them, the conversion is written out ([ge_size],
      [to_size_t], [to_int]).
    - [Char] is a byte, here an [ascii]; [std::string] is [string].
    - [std::vector] is [list]; an access outside of the vector, a failed
      [assert] and an integer division by zero do not return a value: the
      functions that can reach one return a [result].
    - The presentation layer (scrolling, cursor blinking, ImGui calls) is not
      part of the embedding; [EnsureCursorVisible] and the fields that only
      it reads are left out. *)

From Stdlib Require Import ZArith Ascii String Lia Bool.
From stdpp Require Import base tactics option list gmap sets strings.

Local Open Scope Z_scope.

(** ** Faults and results *)

Inductive fault : Set :=
| DivisionByZero      (* integer division by zero *)
| AssertionFailure    (* a failed assert(...) *)
| OutOfRange          (* vector access or iterator outside of the vector *)
| OutOfFuel.          (* a loop of the model ran out of its iteration budget *)

Inductive result (A : Type) : Type :=
| Ok (a : A)
| Fault (f : fault).

Arguments Ok {A} a.
Arguments Fault {A} f.

#[export] Instance fault_eq_dec : EqDecision fault.
Proof. solve_decision. Defined.

#[export] Instance result_ret : MRet result := fun A a => Ok a.

#[export] Instance result_bind : MBind result := fun A B f m =>
  match m with
  | Ok a => f a
  | Fault e => Fault e
  end.

#[export] Instance result_fmap : FMap result := fun A B f m =>
  match m with
  | Ok a => Ok (f a)
  | Fault e => Fault e
  end.

Definition assert (b : bool) : result unit :=
  if b then Ok tt else Fault AssertionFailure.

(** The check of an iterator or index before it is used. *)
Definition assert_range (b : bool) : result unit :=
  if b then Ok tt else Fault OutOfRange.

Definition is_Ok {A} (r : result A) : Prop :=
  match r with Ok _ => True | Fault _ => False end.

(** [while fuel cond body s]: the loop [while (cond) body] run from [s], at
    most [fuel] times around. *)
Fixpoint while {S : Type} (fuel : nat) (cond : S -> bool)
    (body : S -> result S) (s : S) : result S :=
  if cond s then
    match fuel with
    | O => Fault OutOfFuel
    | S fuel' => s' ← body s; while fuel' cond body s'
    end
  else Ok s.

(** The step of a loop body, where the body returns. *)
Definition step_of {S} (body : S -> result S) (s : S) : S :=
  match body s with Ok s' => s' | Fault _ => s end.

(** ** Vectors *)

Definition size {A} (v : list A) : Z := Z.of_nat (List.length v).

(** [(size_t)i] and [(int)n], the conversions of a cast. *)
Definition to_size_t (i : Z) : Z := i mod 2 ^ 64.
Definition to_int (n : Z) : Z := (n + 2 ^ 31) mod 2 ^ 32 - 2 ^ 31.

(** [i >= v.size()] for an [int i]: the comparison is made in [size_t], where
    a negative [i] is larger than the size of any vector. *)
Definition ge_size {A} (i : Z) (v : list A) : bool :=
  (i <? 0) || (i >=? size v).

(** [v.empty()] *)
Definition empty {A} (v : list A) : bool :=
  match v with [] => true | _ :: _ => false end.

(** [v[i]] *)
Definition at_ {A} (v : list A) (i : Z) : result A :=
  if (0 <=? i) && (i <? size v) then
    match v !! Z.to_nat i with
    | Some x => Ok x
    | None => Fault OutOfRange
    end
  else Fault OutOfRange.

(** [v[i] = x] *)
Definition set_at {A} (v : list A) (i : Z) (x : A) : result (list A) :=
  if (0 <=? i) && (i <? size v) then Ok (<[Z.to_nat i := x]> v)
  else Fault OutOfRange.

(** [v.erase(v.begin() + a, v.begin() + b)] *)
Definition erase {A} (v : list A) (a b : Z) : result (list A) :=
  if (0 <=? a) && (a <=? b) && (b <=? size v)
  then Ok (take (Z.to_nat a) v ++ drop (Z.to_nat b) v)
  else Fault OutOfRange.

(** [v.insert(v.begin() + i, xs.begin(), xs.end())] *)
Definition insert_range {A} (v : list A) (i : Z) (xs : list A) : result (list A) :=
  if (0 <=? i) && (i <=? size v)
  then Ok (take (Z.to_nat i) v ++ xs ++ drop (Z.to_nat i) v)
  else Fault OutOfRange.

(** [v.insert(v.begin() + i, x)] *)
Definition insert_at {A} (v : list A) (i : Z) (x : A) : result (list A) :=
  insert_range v i [x].

(** ** Characters *)

(** Modelled from the spec: [Char], the type of a stored character (declared
    in the header of the class, which is not among the sources), is a byte. *)
Abbreviation Char := ascii.

Definition char_code (c : Char) : Z := Z.of_N (N_of_ascii c).

Definition chr (n : Z) : Char := ascii_of_N (Z.to_N n).

Definition char_eqb (a b : Char) : bool := char_code a =? char_code b.

Definition TAB : Char := chr 9.
Definition NEWLINE : Char := chr 10.
Definition CR : Char := chr 13.
Definition NUL : Char := chr 0.
Definition SLASH : Char := chr 47.

(** [isspace] of the C locale: space, and the controls from \t to \r. *)
Definition isspace (c : Char) : bool :=
  let n := char_code c in (n =? 32) || ((9 <=? n) && (n <=? 13)).

(** [UTF8CharLength], lines 167-179. *)
Definition UTF8CharLength (c : Char) : Z :=
  let c := char_code c in
  if Z.land c 0xFE =? 0xFC then 6
  else if Z.land c 0xFC =? 0xF8 then 5
  else if Z.land c 0xF8 =? 0xF0 then 4
  else if Z.land c 0xF0 =? 0xE0 then 3
  else if Z.land c 0xE0 =? 0xC0 then 2
  else 1.

(** The length table in the words of the specification: 6 for the pattern
    [11111110], 5 for [111110xx], 4 for [11110xxx], 3 for [1110xxxx], 2 for
    [110xxxxx], and otherwise 1. *)
Definition UTF8CharLength_spec (c : Char) : Z :=
  let c := char_code c in
  if c =? 0xFE (* 11111110 *) then 6
  else if Z.shiftr c 2 =? 0x3E (* 111110 *) then 5
  else if Z.shiftr c 3 =? 0x1E (* 11110 *) then 4
  else if Z.shiftr c 4 =? 0xE (* 1110 *) then 3
  else if Z.shiftr c 5 =? 0x6 (* 110 *) then 2
  else 1.

(** [IsUTFSequence], lines 1440-1442. *)
Definition IsUTFSequence (c : Char) : bool :=
  Z.land (char_code c) 0xC0 =? 0x80.

(** ** Data model *)

(** Modelled from the spec: the enumeration [PaletteIndex] (declared in the
    header of the class, which is not among the sources); its entries are
    those of the palette tables of lines 1995-2074, in their order. *)
Module PaletteIndex.
Inductive t : Set :=
| Default | Keyword | Number | String | CharLiteral | Punctuation
| Preprocessor | Identifier | KnownIdentifier | PreprocIdentifier
| Comment | MultiLineComment | Background | Cursor | Selection
| ErrorMarker | Breakpoint | LineNumber | CurrentLineFill
| CurrentLineFillInactive | CurrentLineEdge.

#[global] Instance eq_dec : EqDecision t.
Proof. solve_decision. Defined.
End PaletteIndex.

(** Modelled from the spec: the structure [Glyph] (declared in the header):
    one stored byte, its color index and the flags of the colorizer; the
    members have the names that the code uses.  The two-argument constructor
    [Glyph(aChar, aColorIndex)] clears the three flags. *)
Record Glyph : Set := mkGlyph {
  mChar : Char;
  mColorIndex : PaletteIndex.t;
  mComment : bool;
  mMultiLineComment : bool;
  mPreprocessor : bool
}.

Definition Glyph_new (aChar : Char) (aColorIndex : PaletteIndex.t) : Glyph :=
  mkGlyph aChar aColorIndex false false false.

Abbreviation Line := (list Glyph).

(** Modelled from the spec: the structure [Coordinates] (declared in the
    header): a line and a display column, both [int]. *)
Record Coordinates : Set := mkCoordinates {
  mLine : Z;
  mColumn : Z
}.

(** Modelled from the spec: the comparison operators of [Coordinates]
    (declared in the header of the class, which is not part of the sources):
    the order is lexicographic on (line, column). *)
Definition Coordinates_eqb (a b : Coordinates) : bool :=
  (mLine a =? mLine b) && (mColumn a =? mColumn b).

Definition Coordinates_ltb (a b : Coordinates) : bool :=
  if mLine a =? mLine b then mColumn a <? mColumn b else mLine a <? mLine b.

Definition Coordinates_gtb (a b : Coordinates) : bool := Coordinates_ltb b a.
Definition Coordinates_leb (a b : Coordinates) : bool := negb (Coordinates_ltb b a).
Definition Coordinates_geb (a b : Coordinates) : bool := negb (Coordinates_ltb a b).

(** Modelled from the spec: the structure [EditorState] (declared in the
    header). *)
Record EditorState : Set := mkEditorState {
  mSelectionStart : Coordinates;
  mSelectionEnd : Coordinates;
  mCursorPosition : Coordinates
}.

(** Modelled from the spec: the class [UndoRecord] (declared in the header;
    its constructor and its methods are at lines 2388-2433). *)
Record UndoRecord : Set := mkUndoRecord {
  mAdded : string;
  mAddedStart : Coordinates;
  mAddedEnd : Coordinates;
  mRemoved : string;
  mRemovedStart : Coordinates;
  mRemovedEnd : Coordinates;
  mBefore : EditorState;
  mAfter : EditorState
}.

Definition Coordinates_zero : Coordinates := mkCoordinates 0 0.

Definition EditorState_zero : EditorState :=
  mkEditorState Coordinates_zero Coordinates_zero Coordinates_zero.

(** [UndoRecord u;]: empty texts, and coordinates at (0, 0). *)
Definition UndoRecord_new : UndoRecord :=
  mkUndoRecord EmptyString Coordinates_zero Coordinates_zero
               EmptyString Coordinates_zero Coordinates_zero
               EditorState_zero EditorState_zero.

(** The custom tokenizer of a language: from the text at the scan position to
    the offsets of the token found and its color, when it finds one. *)
Definition TokenizeCallback := string -> option (Z * Z * PaletteIndex.t).

(** Modelled from the spec: the structure [LanguageDefinition] (declared in
    the header), with the members that the embedded functions read. *)
Record LanguageDefinition : Type := mkLanguageDefinition {
  mName : string;
  mCommentStart : string;
  mCommentEnd : string;
  mSingleLineComment : string;
  mCaseSensitive : bool;
  mAutoIndentation : bool;
  mTokenize : option TokenizeCallback
}.

(** Modelled from the spec: the error markers, a map from the line to the
    message (a [std::map] in the code, which [insert]s into it and goes
    through it in ascending order of the line): the entries in that order. *)
Abbreviation ErrorMarkers := (list (Z * string)).

(** [etmp.insert(e)]: a key that is present keeps its entry. *)
Fixpoint ErrorMarkers_insert (e : Z * string) (m : ErrorMarkers) : ErrorMarkers :=
  match m with
  | [] => [e]
  | e' :: m' =>
      if fst e <? fst e' then e :: e' :: m'
      else if fst e =? fst e' then e' :: m'
      else e' :: ErrorMarkers_insert e m'
  end.

(** Modelled from the spec: the breakpoints, a set of line numbers. *)
Abbreviation Breakpoints := (gset Z).

(** Modelled from the spec: the members of the class [TextEditor] (declared
    in the header) that the embedded functions read or write, with the names
    that the code uses. *)
Record TextEditor : Type := mkTextEditor {
  mLines : list Line;
  mState : EditorState;
  mUndoBuffer : list UndoRecord;
  mUndoIndex : Z;
  mTabSize : Z;
  mOverwrite : bool;
  mReadOnly : bool;
  mTextChanged : bool;
  mColorizerEnabled : bool;
  mColorRangeMin : Z;
  mColorRangeMax : Z;
  mCheckComments : bool;
  mErrorMarkers : ErrorMarkers;
  mBreakpoints : Breakpoints;
  mLanguageDefinition : LanguageDefinition
}.

(** Assignments to one member. *)
Definition set_mLines (v : list Line) (ed : TextEditor) : TextEditor :=
  mkTextEditor v (mState ed) (mUndoBuffer ed) (mUndoIndex ed) (mTabSize ed)
    (mOverwrite ed) (mReadOnly ed) (mTextChanged ed) (mColorizerEnabled ed)
    (mColorRangeMin ed) (mColorRangeMax ed) (mCheckComments ed)
    (mErrorMarkers ed) (mBreakpoints ed) (mLanguageDefinition ed).

Definition set_mState (v : EditorState) (ed : TextEditor) : TextEditor :=
  mkTextEditor (mLines ed) v (mUndoBuffer ed) (mUndoIndex ed) (mTabSize ed)
    (mOverwrite ed) (mReadOnly ed) (mTextChanged ed) (mColorizerEnabled ed)
    (mColorRangeMin ed) (mColorRangeMax ed) (mCheckComments ed)
    (mErrorMarkers ed) (mBreakpoints ed) (mLanguageDefinition ed).

Definition set_mUndo (buf : list UndoRecord) (idx : Z) (ed : TextEditor) : TextEditor :=
  mkTextEditor (mLines ed) (mState ed) buf idx (mTabSize ed)
    (mOverwrite ed) (mReadOnly ed) (mTextChanged ed) (mColorizerEnabled ed)
    (mColorRangeMin ed) (mColorRangeMax ed) (mCheckComments ed)
    (mErrorMarkers ed) (mBreakpoints ed) (mLanguageDefinition ed).

Definition set_mTabSize (v : Z) (ed : TextEditor) : TextEditor :=
  mkTextEditor (mLines ed) (mState ed) (mUndoBuffer ed) (mUndoIndex ed) v
    (mOverwrite ed) (mReadOnly ed) (mTextChanged ed) (mColorizerEnabled ed)
    (mColorRangeMin ed) (mColorRangeMax ed) (mCheckComments ed)
    (mErrorMarkers ed) (mBreakpoints ed) (mLanguageDefinition ed).

Definition set_mReadOnly (v : bool) (ed : TextEditor) : TextEditor :=
  mkTextEditor (mLines ed) (mState ed) (mUndoBuffer ed) (mUndoIndex ed) (mTabSize ed)
    (mOverwrite ed) v (mTextChanged ed) (mColorizerEnabled ed)
    (mColorRangeMin ed) (mColorRangeMax ed) (mCheckComments ed)
    (mErrorMarkers ed) (mBreakpoints ed) (mLanguageDefinition ed).

Definition set_mTextChanged (v : bool) (ed : TextEditor) : TextEditor :=
  mkTextEditor (mLines ed) (mState ed) (mUndoBuffer ed) (mUndoIndex ed) (mTabSize ed)
    (mOverwrite ed) (mReadOnly ed) v (mColorizerEnabled ed)
    (mColorRangeMin ed) (mColorRangeMax ed) (mCheckComments ed)
    (mErrorMarkers ed) (mBreakpoints ed) (mLanguageDefinition ed).

Definition set_mColorizerEnabled (v : bool) (ed : TextEditor) : TextEditor :=
  mkTextEditor (mLines ed) (mState ed) (mUndoBuffer ed) (mUndoIndex ed) (mTabSize ed)
    (mOverwrite ed) (mReadOnly ed) (mTextChanged ed) v
    (mColorRangeMin ed) (mColorRangeMax ed) (mCheckComments ed)
    (mErrorMarkers ed) (mBreakpoints ed) (mLanguageDefinition ed).

Definition set_mColorRange (lo hi : Z) (ed : TextEditor) : TextEditor :=
  mkTextEditor (mLines ed) (mState ed) (mUndoBuffer ed) (mUndoIndex ed) (mTabSize ed)
    (mOverwrite ed) (mReadOnly ed) (mTextChanged ed) (mColorizerEnabled ed)
    lo hi (mCheckComments ed)
    (mErrorMarkers ed) (mBreakpoints ed) (mLanguageDefinition ed).

Definition set_mCheckComments (v : bool) (ed : TextEditor) : TextEditor :=
  mkTextEditor (mLines ed) (mState ed) (mUndoBuffer ed) (mUndoIndex ed) (mTabSize ed)
    (mOverwrite ed) (mReadOnly ed) (mTextChanged ed) (mColorizerEnabled ed)
    (mColorRangeMin ed) (mColorRangeMax ed) v
    (mErrorMarkers ed) (mBreakpoints ed) (mLanguageDefinition ed).

Definition set_mErrorMarkers (v : ErrorMarkers) (ed : TextEditor) : TextEditor :=
  mkTextEditor (mLines ed) (mState ed) (mUndoBuffer ed) (mUndoIndex ed) (mTabSize ed)
    (mOverwrite ed) (mReadOnly ed) (mTextChanged ed) (mColorizerEnabled ed)
    (mColorRangeMin ed) (mColorRangeMax ed) (mCheckComments ed)
    v (mBreakpoints ed) (mLanguageDefinition ed).

Definition set_mBreakpoints (v : Breakpoints) (ed : TextEditor) : TextEditor :=
  mkTextEditor (mLines ed) (mState ed) (mUndoBuffer ed) (mUndoIndex ed) (mTabSize ed)
    (mOverwrite ed) (mReadOnly ed) (mTextChanged ed) (mColorizerEnabled ed)
    (mColorRangeMin ed) (mColorRangeMax ed) (mCheckComments ed)
    (mErrorMarkers ed) v (mLanguageDefinition ed).

Definition set_mLanguageDefinition (v : LanguageDefinition) (ed : TextEditor) : TextEditor :=
  mkTextEditor (mLines ed) (mState ed) (mUndoBuffer ed) (mUndoIndex ed) (mTabSize ed)
    (mOverwrite ed) (mReadOnly ed) (mTextChanged ed) (mColorizerEnabled ed)
    (mColorRangeMin ed) (mColorRangeMax ed) (mCheckComments ed)
    (mErrorMarkers ed) (mBreakpoints ed) v.

Definition set_mCursorPosition (c : Coordinates) (st : EditorState) : EditorState :=
  mkEditorState (mSelectionStart st) (mSelectionEnd st) c.
Definition set_mSelectionStart (c : Coordinates) (st : EditorState) : EditorState :=
  mkEditorState c (mSelectionEnd st) (mCursorPosition st).
Definition set_mSelectionEnd (c : Coordinates) (st : EditorState) : EditorState :=
  mkEditorState (mSelectionStart st) c (mCursorPosition st).

(** ** Coordinate arithmetic (lines 472-529) *)

(** [(c / mTabSize) * mTabSize + mTabSize]; the division is the truncating
    division of [int]. *)
Definition tab_stop (ed : TextEditor) (c : Z) : result Z :=
  if mTabSize ed =? 0 then Fault DivisionByZero
  else Ok (Z.quot c (mTabSize ed) * mTabSize ed + mTabSize ed).

(** [GetCharacterIndex], lines 472-486. *)
Definition GetCharacterIndex (ed : TextEditor) (aCoordinates : Coordinates) : result Z :=
  if ge_size (mLine aCoordinates) (mLines ed) then Ok (-1)
  else
    line ← at_ (mLines ed) (mLine aCoordinates);
    '(c, i) ← while (List.length line)
      (λ '(c, i), (i <? size line) && (c <? mColumn aCoordinates))
      (λ '(c, i),
         g ← at_ line i;
         c ← (if char_eqb (mChar g) TAB then tab_stop ed c else Ok (c + 1));
         Ok (c, i + UTF8CharLength (mChar g)))
      (0, 0);
    Ok i.

(** [GetCharacterColumn], lines 488-503. *)
Definition GetCharacterColumn (ed : TextEditor) (aLine aIndex : Z) : result Z :=
  if ge_size aLine (mLines ed) then Ok 0
  else
    line ← at_ (mLines ed) aLine;
    '(col, i) ← while (List.length line)
      (λ '(col, i), (i <? aIndex) && (i <? size line))
      (λ '(col, i),
         g ← at_ line i;
         let c := mChar g in
         let i := i + UTF8CharLength c in
         col ← (if char_eqb c TAB then tab_stop ed col else Ok (col + 1));
         Ok (col, i))
      (0, 0);
    Ok col.

(** [GetLineCharacterCount], lines 505-513. *)
Definition GetLineCharacterCount (ed : TextEditor) (aLine : Z) : result Z :=
  if ge_size aLine (mLines ed) then Ok 0
  else
    line ← at_ (mLines ed) aLine;
    '(c, i) ← while (List.length line)
      (λ '(c, i), i <? size line)
      (λ '(c, i), g ← at_ line i; Ok (c + 1, i + UTF8CharLength (mChar g)))
      (0, 0);
    Ok c.

(** [GetLineMaxColumn], lines 515-529. *)
Definition GetLineMaxColumn (ed : TextEditor) (aLine : Z) : result Z :=
  if ge_size aLine (mLines ed) then Ok 0
  else
    line ← at_ (mLines ed) aLine;
    '(col, i) ← while (List.length line)
      (λ '(col, i), i <? size line)
      (λ '(col, i),
         g ← at_ line i;
         let c := mChar g in
         col ← (if char_eqb c TAB then tab_stop ed col else Ok (col + 1));
         Ok (col, i + UTF8CharLength c))
      (0, 0);
    Ok col.

(** The body that the loops of [GetCharacterIndex], [GetCharacterColumn]
    and [GetLineMaxColumn] share: from a column and an index to the column
    and the index after the character at the index. *)
Definition walk_body (ed : TextEditor) (line : Line) : Z * Z -> result (Z * Z) :=
  λ '(c, i),
    g ← at_ line i;
    c ← (if char_eqb (mChar g) TAB then tab_stop ed c else Ok (c + 1));
    Ok (c, i + UTF8CharLength (mChar g)).

(** [SanitizeCoordinates], lines 147-163. *)
Definition SanitizeCoordinates (ed : TextEditor) (aValue : Coordinates) : result Coordinates :=
  let line := mLine aValue in
  let column := mColumn aValue in
  if line >=? size (mLines ed) then
    if empty (mLines ed) then Ok (mkCoordinates 0 0)
    else
      let line := size (mLines ed) - 1 in
      column ← GetLineMaxColumn ed line;
      Ok (mkCoordinates line column)
  else
    column ← (if empty (mLines ed) then Ok 0
              else m ← GetLineMaxColumn ed line; Ok (Z.min column m));
    Ok (mkCoordinates line column).

(** [GetActualCursorCoordinates], lines 143-145. *)
Definition GetActualCursorCoordinates (ed : TextEditor) : result Coordinates :=
  SanitizeCoordinates ed (mCursorPosition (mState ed)).

(** [SetTabSize], lines 1360-1362. *)
Definition SetTabSize (ed : TextEditor) (aValue : Z) : TextEditor :=
  set_mTabSize (Z.max 0 (Z.min 32 aValue)) ed.

(** ** The dirty range of the colorizer *)

(** [Colorize], lines 2111-2118.  The call without arguments, [Colorize()],
    is [Colorize(0, -1)]. *)
Definition Colorize (ed : TextEditor) (aFromLine aLines : Z) : TextEditor :=
  let toLine :=
    if aLines =? -1 then size (mLines ed)
    else Z.min (size (mLines ed)) (aFromLine + aLines) in
  let lo := Z.min (mColorRangeMin ed) aFromLine in
  let hi := Z.max (mColorRangeMax ed) toLine in
  let lo := Z.max 0 lo in
  let hi := Z.max lo hi in
  set_mCheckComments true (set_mColorRange lo hi ed).

(** ** Structural operations on the lines, with the side tables *)

(** [RemoveLine(int aStart, int aEnd)], lines 546-572. *)
Definition RemoveLines (ed : TextEditor) (aStart aEnd : Z) : result TextEditor :=
  _ ← assert (negb (mReadOnly ed));
  _ ← assert (aEnd >=? aStart);
  _ ← assert (size (mLines ed) >? to_size_t (aEnd - aStart));
  let etmp :=
    foldl (λ etmp i,
             let e := (if fst i >=? aStart then fst i - 1 else fst i, snd i) in
             if (fst e >=? aStart) && (fst e <=? aEnd) then etmp
             else ErrorMarkers_insert e etmp)
          [] (mErrorMarkers ed) in
  let btmp : Breakpoints :=
    set_fold (λ i btmp,
                if (i >=? aStart) && (i <=? aEnd) then btmp
                else {[ if i >=? aStart then i - 1 else i ]} ∪ btmp)
             ∅ (mBreakpoints ed) in
  lines ← erase (mLines ed) aStart aEnd;
  _ ← assert (negb (empty lines));
  Ok (set_mTextChanged true
        (set_mLines lines (set_mBreakpoints btmp (set_mErrorMarkers etmp ed)))).

(** [RemoveLine(int aIndex)], lines 574-599. *)
Definition RemoveLine (ed : TextEditor) (aIndex : Z) : result TextEditor :=
  _ ← assert (negb (mReadOnly ed));
  _ ← assert (size (mLines ed) >? 1);
  let etmp :=
    foldl (λ etmp i,
             let e := (if fst i >? aIndex then fst i - 1 else fst i, snd i) in
             if fst e - 1 =? aIndex then etmp
             else ErrorMarkers_insert e etmp)
          [] (mErrorMarkers ed) in
  let btmp : Breakpoints :=
    set_fold (λ i btmp,
                if i =? aIndex then btmp
                else {[ if i >=? aIndex then i - 1 else i ]} ∪ btmp)
             ∅ (mBreakpoints ed) in
  lines ← erase (mLines ed) aIndex (aIndex + 1);
  _ ← assert (negb (empty lines));
  Ok (set_mTextChanged true
        (set_mLines lines (set_mBreakpoints btmp (set_mErrorMarkers etmp ed)))).

(** [InsertLine], lines 601-617.  The reference that it returns is to the
    line at [aIndex] of the result. *)
Definition InsertLine (ed : TextEditor) (aIndex : Z) : result TextEditor :=
  _ ← assert (negb (mReadOnly ed));
  lines ← insert_at (mLines ed) aIndex ([] : Line);
  let etmp :=
    foldl (λ etmp i,
             ErrorMarkers_insert
               (if fst i >=? aIndex then fst i + 1 else fst i, snd i) etmp)
          [] (mErrorMarkers ed) in
  let btmp : Breakpoints :=
    set_fold (λ i btmp, {[ if i >=? aIndex then i + 1 else i ]} ∪ btmp)
             ∅ (mBreakpoints ed) in
  Ok (set_mBreakpoints btmp (set_mErrorMarkers etmp (set_mLines lines ed))).

(** ** Loading text *)

(** The loop of [SetText]: a carriage return is dropped, a newline opens a
    line, any other byte goes to the end of the last line
    ([mLines.back().emplace_back(...)]; the vector holds at least the line
    that [SetText] puts in before the loop). *)
Fixpoint SetText_loop (aText : list Char) (lines : list Line) : list Line :=
  match aText with
  | [] => lines
  | chr :: aText =>
      if char_eqb chr CR then SetText_loop aText lines
      else if char_eqb chr NEWLINE then SetText_loop aText (lines ++ [[]])
      else
        SetText_loop aText
          (alter (λ back, back ++ [Glyph_new chr PaletteIndex.Default])
                 (List.length lines - 1)%nat lines)
  end.

(** [SetText], lines 1102-1122. *)
Definition SetText (ed : TextEditor) (aText : string) : TextEditor :=
  let lines := SetText_loop (list_ascii_of_string aText) [[]] in
  let ed := set_mLines lines ed in
  let ed := set_mTextChanged true ed in
  let ed := set_mUndo [] 0 ed in
  Colorize ed 0 (-1).

Definition Line_of_string (aLine : string) : Line :=
  map (λ c, Glyph_new c PaletteIndex.Default) (list_ascii_of_string aLine).

(** [SetTextLines], lines 1124-1148. *)
Definition SetTextLines (ed : TextEditor) (aLines : list string) : TextEditor :=
  let lines :=
    if empty aLines then [[]]
    else map Line_of_string aLines in
  let ed := set_mLines lines ed in
  let ed := set_mTextChanged true ed in
  let ed := set_mUndo [] 0 ed in
  Colorize ed 0 (-1).

(** [GetTextLines], lines 2080-2097. *)
Definition string_of_Line (line : Line) : string :=
  string_of_list_ascii (map mChar line).

Definition GetTextLines (ed : TextEditor) : list string :=
  map string_of_Line (mLines ed).

(** ** Text of a range *)

(** [*aValue] of a C string: the terminator at the end of the text. *)
Definition peek (aValue : string) : Char :=
  match aValue with
  | EmptyString => NUL
  | String c _ => c
  end.

(** [++aValue] *)
Definition next (aValue : string) : string :=
  match aValue with
  | EmptyString => EmptyString
  | String _ s => s
  end.

(** The text of a C string: the bytes before the first terminator
    ([std::string(const char* )], [strlen]). *)
Fixpoint c_str (s : string) : string :=
  match s with
  | EmptyString => EmptyString
  | String c s' => if char_eqb c NUL then EmptyString else String c (c_str s')
  end.

(** [result += c] *)
Definition push_back (s : string) (c : Char) : string := s ++ String c EmptyString.

(** An iteration budget for a walk over the text: every byte and every end
    of line once. *)
Definition text_fuel (lines : list Line) : nat :=
  foldr (λ line n, S (List.length line + n)) 1%nat lines.

(** [GetText(aStart, aEnd)], lines 111-141.  The loop that computes the
    capacity to reserve reads the size of every line from [aStart.mLine] to
    [aEnd.mLine - 1]; the [break] of the copy loop is its first statement
    and is part of the test here. *)
Definition GetText (ed : TextEditor) (aStart aEnd : Coordinates) : result string :=
  let lstart := mLine aStart in
  let lend := mLine aEnd in
  istart ← GetCharacterIndex ed aStart;
  iend ← GetCharacterIndex ed aEnd;
  _ ← while (S (List.length (mLines ed)))
        (λ '(i, s), i <? to_size_t lend)
        (λ '(i, s), line ← at_ (mLines ed) i; Ok (i + 1, s + size line))
        (to_size_t lstart, 0);
  '(result, lstart, istart) ← while (text_fuel (mLines ed))
    (λ '(result, lstart, istart),
       ((istart <? iend) || (lstart <? lend)) && negb (lstart >=? size (mLines ed)))
    (λ '(result, lstart, istart),
       line ← at_ (mLines ed) lstart;
       if istart <? size line then
         g ← at_ line istart;
         Ok (push_back result (mChar g), lstart, istart + 1)
       else
         Ok (push_back result NEWLINE, lstart + 1, 0))
    (EmptyString, lstart, istart);
  Ok result.

(** [GetText()], lines 2076-2078. *)
Definition GetText_all (ed : TextEditor) : result string :=
  GetText ed (mkCoordinates 0 0) (mkCoordinates (size (mLines ed)) 0).

(** [GetSelectedText], lines 2099-2101. *)
Definition GetSelectedText (ed : TextEditor) : result string :=
  GetText ed (mSelectionStart (mState ed)) (mSelectionEnd (mState ed)).

(** ** Deleting and inserting text *)

(** [DeleteRange], lines 233-267. *)
Definition DeleteRange (ed : TextEditor) (aStart aEnd : Coordinates) : result TextEditor :=
  _ ← assert (Coordinates_geb aEnd aStart);
  _ ← assert (negb (mReadOnly ed));
  if Coordinates_eqb aEnd aStart then Ok ed
  else
    start ← GetCharacterIndex ed aStart;
    end_ ← GetCharacterIndex ed aEnd;
    ed ←
      (if mLine aStart =? mLine aEnd then
         line ← at_ (mLines ed) (mLine aStart);
         n ← GetLineMaxColumn ed (mLine aStart);
         line ← (if mColumn aEnd >=? n then erase line start (size line)
                 else erase line start end_);
         lines ← set_at (mLines ed) (mLine aStart) line;
         Ok (set_mLines lines ed)
       else
         firstLine ← at_ (mLines ed) (mLine aStart);
         lastLine ← at_ (mLines ed) (mLine aEnd);
         firstLine ← erase firstLine start (size firstLine);
         lastLine ← erase lastLine 0 end_;
         let firstLine :=
           if mLine aStart <? mLine aEnd then firstLine ++ lastLine
           else firstLine in
         lines ← set_at (mLines ed) (mLine aStart) firstLine;
         lines ← set_at lines (mLine aEnd) lastLine;
         let ed := set_mLines lines ed in
         if mLine aStart <? mLine aEnd
         then RemoveLines ed (mLine aStart + 1) (mLine aEnd + 1)
         else Ok ed);
    Ok (set_mTextChanged true ed).

(** [InsertTextAt], lines 269-306: the editor, the coordinate [aWhere] after
    the insertion, and the number of lines added. *)
Definition InsertTextAt (ed : TextEditor) (aWhere : Coordinates) (aValue : string)
    : result (TextEditor * Coordinates * Z) :=
  _ ← assert (negb (mReadOnly ed));
  cindex ← GetCharacterIndex ed aWhere;
  '(ed, aWhere, aValue, cindex, totalLines) ← while (String.length aValue)
    (λ '(ed, aWhere, aValue, cindex, totalLines), negb (char_eqb (peek aValue) NUL))
    (λ '(ed, aWhere, aValue, cindex, totalLines),
       _ ← assert (negb (empty (mLines ed)));
       '(ed, aWhere, aValue, cindex, totalLines) ←
         (if char_eqb (peek aValue) CR then
            Ok (ed, aWhere, next aValue, cindex, totalLines)
          else if char_eqb (peek aValue) NEWLINE then
            line ← at_ (mLines ed) (mLine aWhere);
            ed ←
              (if cindex <? size line then
                 ed ← InsertLine ed (mLine aWhere + 1);
                 newLine ← at_ (mLines ed) (mLine aWhere + 1);
                 line ← at_ (mLines ed) (mLine aWhere);
                 _ ← assert_range (0 <=? cindex);
                 newLine ← insert_range newLine 0 (drop (Z.to_nat cindex) line);
                 line ← erase line cindex (size line);
                 lines ← set_at (mLines ed) (mLine aWhere + 1) newLine;
                 lines ← set_at lines (mLine aWhere) line;
                 Ok (set_mLines lines ed)
               else InsertLine ed (mLine aWhere + 1));
            Ok (ed, mkCoordinates (mLine aWhere + 1) 0, next aValue, 0, totalLines + 1)
          else
            line ← at_ (mLines ed) (mLine aWhere);
            let d := UTF8CharLength (peek aValue) in
            '(line, aValue, cindex, d) ← while (Z.to_nat d)
              (λ '(line, aValue, cindex, d),
                 (d >? 0) && negb (char_eqb (peek aValue) NUL))
              (λ '(line, aValue, cindex, d),
                 line ← insert_at line cindex
                          (Glyph_new (peek aValue) PaletteIndex.Default);
                 Ok (line, next aValue, cindex + 1, d - 1))
              (line, aValue, cindex, d);
            lines ← set_at (mLines ed) (mLine aWhere) line;
            Ok (set_mLines lines ed,
                mkCoordinates (mLine aWhere) (mColumn aWhere + 1),
                aValue, cindex, totalLines));
       Ok (set_mTextChanged true ed, aWhere, aValue, cindex, totalLines))
    (ed, aWhere, aValue, cindex, 0);
  Ok (ed, aWhere, totalLines).

(** ** Cursor and selection *)

(** [HasSelection], lines 1912-1914. *)
Definition HasSelection (ed : TextEditor) : bool :=
  Coordinates_gtb (mSelectionEnd (mState ed)) (mSelectionStart (mState ed)).

(** [SetCursorPosition], lines 1307-1313. *)
Definition SetCursorPosition (ed : TextEditor) (aPosition : Coordinates) : TextEditor :=
  if negb (Coordinates_eqb (mCursorPosition (mState ed)) aPosition)
  then set_mState (set_mCursorPosition aPosition (mState ed)) ed
  else ed.

(** [SetSelection(aStart, aEnd)], lines 1327-1358, in the selection mode
    [Normal] of the calls that the edit operations make.  The arguments are
    references: [aStart] and [aEnd] are read when the function uses them,
    the second one after the first assignment to [mState]. *)
Definition SetSelection_ref (ed : TextEditor)
    (aStart aEnd : TextEditor -> Coordinates) : result TextEditor :=
  s ← SanitizeCoordinates ed (aStart ed);
  let ed := set_mState (set_mSelectionStart s (mState ed)) ed in
  e ← SanitizeCoordinates ed (aEnd ed);
  let ed := set_mState (set_mSelectionEnd e (mState ed)) ed in
  if Coordinates_gtb (mSelectionStart (mState ed)) (mSelectionEnd (mState ed))
  then Ok (set_mState
             (mkEditorState (mSelectionEnd (mState ed)) (mSelectionStart (mState ed))
                            (mCursorPosition (mState ed))) ed)
  else Ok ed.

Definition SetSelection (ed : TextEditor) (aStart aEnd : Coordinates) : result TextEditor :=
  SetSelection_ref ed (λ _, aStart) (λ _, aEnd).

(** [Advance], lines 217-231. *)
Definition Advance (ed : TextEditor) (aCoordinates : Coordinates) : result Coordinates :=
  if mLine aCoordinates <? size (mLines ed) then
    line ← at_ (mLines ed) (mLine aCoordinates);
    cindex ← GetCharacterIndex ed aCoordinates;
    '(aLine, cindex) ←
      (if cindex + 1 <? size line then
         g ← at_ line cindex;
         let delta := UTF8CharLength (mChar g) in
         Ok (mLine aCoordinates, Z.min (cindex + delta) (size line - 1))
       else Ok (mLine aCoordinates + 1, 0));
    column ← GetCharacterColumn ed aLine cindex;
    Ok (mkCoordinates aLine column)
  else Ok aCoordinates.

(** [a < b ? a : b], the macro [min], on coordinates. *)
Definition Coordinates_min (a b : Coordinates) : Coordinates :=
  if Coordinates_ltb a b then a else b.

(** [InsertText], lines 1368-1381. *)
Definition InsertText (ed : TextEditor) (aValue : string) : result TextEditor :=
  pos ← GetActualCursorCoordinates ed;
  let start := Coordinates_min pos (mSelectionStart (mState ed)) in
  let totalLines := mLine pos - mLine start in
  '(ed, pos, n) ← InsertTextAt ed pos aValue;
  let totalLines := totalLines + n in
  ed ← SetSelection ed pos pos;
  let ed := SetCursorPosition ed pos in
  Ok (Colorize ed (mLine start - 1) (totalLines + 2)).

(** [DeleteSelection], lines 1383-1394. *)
Definition DeleteSelection (ed : TextEditor) : result TextEditor :=
  _ ← assert (Coordinates_geb (mSelectionEnd (mState ed)) (mSelectionStart (mState ed)));
  if Coordinates_eqb (mSelectionEnd (mState ed)) (mSelectionStart (mState ed)) then Ok ed
  else
    ed ← DeleteRange ed (mSelectionStart (mState ed)) (mSelectionEnd (mState ed));
    ed ← SetSelection_ref ed (λ ed, mSelectionStart (mState ed))
                             (λ ed, mSelectionStart (mState ed));
    let ed := SetCursorPosition ed (mSelectionStart (mState ed)) in
    Ok (Colorize ed (mLine (mSelectionStart (mState ed))) 1).

(** ** The undo log *)

(** [AddUndo], lines 308-320. *)
Definition AddUndo (ed : TextEditor) (aValue : UndoRecord) : result TextEditor :=
  _ ← assert (negb (mReadOnly ed));
  _ ← assert_range (0 <=? mUndoIndex ed + 1);
  let buf := resize (Z.to_nat (mUndoIndex ed + 1)) UndoRecord_new (mUndoBuffer ed) in
  buf ← set_at buf (size buf - 1) aValue;
  Ok (set_mUndo buf (mUndoIndex ed + 1) ed).

Definition string_empty (s : string) : bool :=
  match s with EmptyString => true | String _ _ => false end.

(** [UndoRecord::Undo], lines 2403-2417. *)
Definition UndoRecord_Undo (u : UndoRecord) (aEditor : TextEditor) : result TextEditor :=
  aEditor ←
    (if negb (string_empty (mAdded u)) then
       aEditor ← DeleteRange aEditor (mAddedStart u) (mAddedEnd u);
       Ok (Colorize aEditor (mLine (mAddedStart u) - 1)
                    (mLine (mAddedEnd u) - mLine (mAddedStart u) + 2))
     else Ok aEditor);
  aEditor ←
    (if negb (string_empty (mRemoved u)) then
       let start := mRemovedStart u in
       '(aEditor, _, _) ← InsertTextAt aEditor start (mRemoved u);
       Ok (Colorize aEditor (mLine (mRemovedStart u) - 1)
                    (mLine (mRemovedEnd u) - mLine (mRemovedStart u) + 2))
     else Ok aEditor);
  Ok (set_mState (mBefore u) aEditor).

(** [UndoRecord::Redo], lines 2419-2433. *)
Definition UndoRecord_Redo (u : UndoRecord) (aEditor : TextEditor) : result TextEditor :=
  aEditor ←
    (if negb (string_empty (mRemoved u)) then
       aEditor ← DeleteRange aEditor (mRemovedStart u) (mRemovedEnd u);
       Ok (Colorize aEditor (mLine (mRemovedStart u) - 1)
                    (mLine (mRemovedEnd u) - mLine (mRemovedStart u) + 1))
     else Ok aEditor);
  aEditor ←
    (if negb (string_empty (mAdded u)) then
       let start := mAddedStart u in
       '(aEditor, _, _) ← InsertTextAt aEditor start (mAdded u);
       Ok (Colorize aEditor (mLine (mAddedStart u) - 1)
                    (mLine (mAddedEnd u) - mLine (mAddedStart u) + 1))
     else Ok aEditor);
  Ok (set_mState (mAfter u) aEditor).

(** [CanUndo] and [CanRedo], lines 1977-1983. *)
Definition CanUndo (ed : TextEditor) : bool :=
  negb (mReadOnly ed) && (mUndoIndex ed >? 0).

Definition CanRedo (ed : TextEditor) : bool :=
  negb (mReadOnly ed) && (mUndoIndex ed <? size (mUndoBuffer ed)).

(** [Undo(aSteps)], lines 1985-1988; [Undo()] is [Undo(1)]. *)
Definition Undo (ed : TextEditor) (aSteps : Z) : result TextEditor :=
  '(ed, _) ← while (Z.to_nat aSteps)
    (λ '(ed, aSteps), CanUndo ed && (aSteps >? 0))
    (λ '(ed, aSteps),
       let ed := set_mUndo (mUndoBuffer ed) (mUndoIndex ed - 1) ed in
       u ← at_ (mUndoBuffer ed) (mUndoIndex ed);
       ed ← UndoRecord_Undo u ed;
       Ok (ed, aSteps - 1))
    (ed, aSteps);
  Ok ed.

(** [Redo(aSteps)], lines 1990-1993; [Redo()] is [Redo(1)]. *)
Definition Redo (ed : TextEditor) (aSteps : Z) : result TextEditor :=
  '(ed, _) ← while (Z.to_nat aSteps)
    (λ '(ed, aSteps), CanRedo ed && (aSteps >? 0))
    (λ '(ed, aSteps),
       u ← at_ (mUndoBuffer ed) (mUndoIndex ed);
       let ed := set_mUndo (mUndoBuffer ed) (mUndoIndex ed + 1) ed in
       ed ← UndoRecord_Redo u ed;
       Ok (ed, aSteps - 1))
    (ed, aSteps);
  Ok ed.

(** ** Undo records under construction *)

Definition string_of_char (c : Char) : string := String c EmptyString.

(** An undo record with the removed text and range set. *)
Definition set_removed (text : string) (s e : Coordinates) (u : UndoRecord) : UndoRecord :=
  mkUndoRecord (mAdded u) (mAddedStart u) (mAddedEnd u) text s e (mBefore u) (mAfter u).

(** An undo record with the added text and range set. *)
Definition set_added (text : string) (s e : Coordinates) (u : UndoRecord) : UndoRecord :=
  mkUndoRecord text s e (mRemoved u) (mRemovedStart u) (mRemovedEnd u) (mBefore u) (mAfter u).

Definition set_mBefore (st : EditorState) (u : UndoRecord) : UndoRecord :=
  mkUndoRecord (mAdded u) (mAddedStart u) (mAddedEnd u)
    (mRemoved u) (mRemovedStart u) (mRemovedEnd u) st (mAfter u).

Definition set_mAfter (st : EditorState) (u : UndoRecord) : UndoRecord :=
  mkUndoRecord (mAdded u) (mAddedStart u) (mAddedEnd u)
    (mRemoved u) (mRemovedStart u) (mRemovedEnd u) (mBefore u) st.

(** ** Comment toggling (lines 1605-1780) *)

(** [while (non_ws < line.size() && isspace(line[non_ws].mChar)) ++non_ws;]
    from [non_ws = 0]: the number of blanks at the start of the line. *)
Fixpoint first_non_space (line : Line) : Z :=
  match line with
  | [] => 0
  | g :: line => if isspace (mChar g) then 1 + first_non_space line else 0
  end.

(** [line[i].mChar == c], for an index inside of the line. *)
Definition char_is (line : Line) (i : Z) (c : Char) : bool :=
  match line !! Z.to_nat i with
  | Some g => char_eqb (mChar g) c
  | None => false
  end.

(** [non_ws + 1 < line.size() && line[non_ws].mChar == '/' &&
     line[non_ws + 1].mChar == '/'] *)
Definition slashes_at (line : Line) (non_ws : Z) : bool :=
  (non_ws + 1 <? size line) && char_is line non_ws SLASH
  && char_is line (non_ws + 1) SLASH.

(** The shift of a column past the two bytes that are removed or added. *)
Definition shift_removed (line_idx non_ws : Z) (c : Coordinates) : Coordinates :=
  if (mLine c =? to_int line_idx) && (mColumn c >? to_int non_ws)
  then mkCoordinates (mLine c) (Z.max (to_int non_ws) (mColumn c - 2))
  else c.

Definition shift_added (line_idx non_ws : Z) (c : Coordinates) : Coordinates :=
  if (mLine c =? to_int line_idx) && (mColumn c >=? to_int non_ws)
  then mkCoordinates (mLine c) (mColumn c + 2)
  else c.

Definition EditorState_map (f : Coordinates -> Coordinates) (st : EditorState) : EditorState :=
  mkEditorState (f (mSelectionStart st)) (f (mSelectionEnd st)) (f (mCursorPosition st)).

(** [s.substr(pos, n)] and [s.substr(pos)] for [pos <= s.size()]. *)
Definition substr (s : string) (pos n : Z) : string :=
  String.substring (Z.to_nat pos) (Z.to_nat n) s.

Definition string_size (s : string) : Z := Z.of_nat (String.length s).

(** The block mode of [ToggleComment] (lines 1630-1693). *)
Definition ToggleComment_block (ed : TextEditor) (u : UndoRecord) : result TextEditor :=
  if negb (HasSelection ed) then
    coord ← GetActualCursorCoordinates ed;
    let insertPos := coord in
    let block := "/* */"%string in
    '(ed, insertPos, _) ← InsertTextAt ed insertPos block;
    let ed := SetCursorPosition ed (mkCoordinates (mLine coord) (mColumn coord + 2)) in
    let u := mkUndoRecord block coord (mkCoordinates (mLine coord) (mColumn coord + 4))
               (mRemoved u) (mRemovedStart u) (mRemovedEnd u)
               (mBefore u) (mState ed) in
    AddUndo ed u
  else
    selStart ← SanitizeCoordinates ed (mSelectionStart (mState ed));
    selEnd ← SanitizeCoordinates ed (mSelectionEnd (mState ed));
    let '(selStart, selEnd) :=
      if Coordinates_gtb selStart selEnd then (selEnd, selStart)
      else (selStart, selEnd) in
    selText ← GetText ed selStart selEnd;
    let isWrapped :=
      (string_size selText >=? 4)
      && String.eqb (substr selText 0 2) "/*"
      && String.eqb (substr selText (string_size selText - 2) 2) "*/" in
    let newText :=
      if isWrapped then substr selText 2 (string_size selText - 4)
      else ("/*" ++ selText ++ "*/")%string in
    ed ← DeleteRange ed selStart selEnd;
    let insertPos := selStart in
    '(ed, insertPos, _) ← InsertTextAt ed insertPos newText;
    let ed := set_mState (set_mSelectionEnd insertPos
                            (set_mSelectionStart selStart (mState ed))) ed in
    let u := mkUndoRecord newText selStart insertPos
               selText selStart selEnd
               (mBefore u) (mState ed) in
    AddUndo ed u.

(** The lines that [ToggleComment] works on (lines 1607-1613): the line of
    the cursor, or the lines of a selection of several lines. *)
Definition ToggleComment_span (ed : TextEditor) : Z * Z :=
  let start_line := to_size_t (mLine (mCursorPosition (mState ed))) in
  let end_line := start_line in
  if negb (mLine (mSelectionStart (mState ed)) =? mLine (mSelectionEnd (mState ed)))
  then (to_size_t (Z.min (mLine (mSelectionStart (mState ed)))
                         (mLine (mSelectionEnd (mState ed)))),
        to_size_t (Z.max (mLine (mSelectionStart (mState ed)))
                         (mLine (mSelectionEnd (mState ed)))))
  else (start_line, end_line).

(** The loop of lines 1706-1719: whether every line of the span that is not
    empty begins with [//] after its blanks.  The [break] leaves the loop
    with [uncomment_all] false. *)
Definition ToggleComment_verify (lines : list Line) (start_line end_line : Z)
    : result bool :=
  '(_, uncomment_all) ← while (S (List.length lines))
    (λ '(line_idx, uncomment_all),
       uncomment_all && (line_idx <=? end_line) && (line_idx <? size lines))
    (λ '(line_idx, uncomment_all),
       line ← at_ lines line_idx;
       if empty line then Ok (line_idx + 1, uncomment_all)
       else
         let non_ws := first_non_space line in
         if negb (slashes_at line non_ws) then Ok (line_idx, false)
         else Ok (line_idx + 1, uncomment_all))
    (start_line, true);
  Ok uncomment_all.

(** The loop of lines 1722-1760: the lines of the span that are not empty
    are uncommented or commented; the result is the editor and [didModify]. *)
Definition ToggleComment_apply (ed : TextEditor) (uncomment_all : bool)
    (start_line end_line : Z) : result (TextEditor * bool) :=
  '(ed, _, didModify) ← while (S (List.length (mLines ed)))
    (λ '(ed, line_idx, didModify),
       (line_idx <=? end_line) && (line_idx <? size (mLines ed)))
    (λ '(ed, line_idx, didModify),
       line ← at_ (mLines ed) line_idx;
       if empty line then Ok (ed, line_idx + 1, didModify)
       else
         let non_ws := first_non_space line in
         if uncomment_all then
           if slashes_at line non_ws then
             line ← erase line non_ws (non_ws + 2);
             lines ← set_at (mLines ed) line_idx line;
             let ed := set_mLines lines ed in
             let ed := set_mState
                         (EditorState_map (shift_removed line_idx non_ws) (mState ed)) ed in
             Ok (ed, line_idx + 1, true)
           else Ok (ed, line_idx + 1, didModify)
         else
           let slash := Glyph_new SLASH PaletteIndex.Comment in
           line ← insert_at line non_ws slash;
           line ← insert_at line (non_ws + 1) slash;
           lines ← set_at (mLines ed) line_idx line;
           let ed := set_mLines lines ed in
           let ed := set_mState
                       (EditorState_map (shift_added line_idx non_ws) (mState ed)) ed in
           Ok (ed, line_idx + 1, true))
    (ed, start_line, false);
  Ok (ed, didModify).

(** The undo record of the line mode (lines 1762-1771). *)
Definition ToggleComment_record (ed : TextEditor) (u : UndoRecord)
    (start_line end_line : Z) : result TextEditor :=
  (* Best-effort undo information: record the affected text region *)
  let beg := mkCoordinates (to_int start_line) 0 in
  column ← GetLineMaxColumn ed (to_int end_line);
  let end_ := mkCoordinates (to_int end_line) column in
  added ← GetText ed beg end_;
  let u := mkUndoRecord added beg end_
             (mRemoved u) (mRemovedStart u) (mRemovedEnd u)
             (mBefore u) (mState ed) in
  AddUndo ed u.

(** The line mode of [ToggleComment] (lines 1694-1772). *)
Definition ToggleComment_line (ed : TextEditor) (u : UndoRecord)
    (start_line end_line first_non_ws : Z) : result TextEditor :=
  (* Look at first line to see if it begins with // *)
  uncomment_all ←
    (if start_line <? size (mLines ed) then
       fl ← at_ (mLines ed) start_line;
       Ok (slashes_at fl first_non_ws)
     else Ok false);
  (* Verify every line is commented (after whitespace) *)
  uncomment_all ←
    (if (uncomment_all : bool)
     then ToggleComment_verify (mLines ed) start_line end_line
     else Ok uncomment_all);
  (* Perform uncomment or comment *)
  '(ed, didModify) ← ToggleComment_apply ed uncomment_all start_line end_line;
  if (didModify : bool) then ToggleComment_record ed u start_line end_line
  else Ok ed.

(** [ToggleComment(shift)], lines 1605-1780. *)
Definition ToggleComment (ed : TextEditor) (shift : bool) : result TextEditor :=
  let '(start_line, end_line) := ToggleComment_span ed in
  (* Nothing to do for a single empty line *)
  if (start_line <? size (mLines ed))
     && match mLines ed !! Z.to_nat start_line with
        | Some line => empty line
        | None => false
        end
     && (end_line =? start_line)
  then Ok ed
  else
    let u := set_mBefore (mState ed) UndoRecord_new in
    let first_non_ws :=
      match mLines ed !! Z.to_nat start_line with
      | Some firstLine =>
          if start_line <? size (mLines ed) then first_non_space firstLine else 0
      | None => 0
      end in
    if shift then ToggleComment_block ed u
    else
      ed ← ToggleComment_line ed u start_line end_line first_non_ws;
      (* Trigger syntax highlighting update for the affected lines *)
      Ok (set_mColorRange (Z.min (mColorRangeMin ed) (to_int start_line))
                          (Z.max (mColorRangeMax ed) (to_int end_line + 1)) ed).

(** The line with [//] after its blanks, and the lines of a buffer where the
    lines from [lo] to [hi] that are not empty have it. *)
Definition comment_line (line : Line) : Line :=
  let non_ws := Z.to_nat (first_non_space line) in
  let slash := Glyph_new SLASH PaletteIndex.Comment in
  take non_ws line ++ [slash; slash] ++ drop non_ws line.

Definition commented_between (lo hi : Z) (lines : list Line) : list Line :=
  imap (λ (j : nat) line,
          if (lo <=? Z.of_nat j) && (Z.of_nat j <=? hi) && negb (empty line)
          then comment_line line else line) lines.

(** The line is empty or begins with [//] after its blanks. *)
Definition commented (line : Line) : bool :=
  empty line || slashes_at line (first_non_space line).

(** Every line of the span that is not empty begins with [//]. *)
Definition span_commented (lines : list Line) (start_line end_line : Z) : Prop :=
  forall j line, start_line <= j <= end_line ->
    lines !! Z.to_nat j = Some line -> commented line = true.

(** The coordinate after the commenting of the lines from [lo] to [hi]: on
    a line that gets [//], a column at or after the blanks moves by two. *)
Definition shift_between (lines : list Line) (lo hi : Z) (c : Coordinates) : Coordinates :=
  match lines !! Z.to_nat (mLine c) with
  | Some line =>
      if (0 <=? mLine c) && (lo <=? mLine c) && (mLine c <=? hi)
         && negb (empty line) && (mColumn c >=? first_non_space line)
      then mkCoordinates (mLine c) (mColumn c + 2)
      else c
  | None => c
  end.

(** The sizes of the buffer and of its lines are values of [int]. *)
Definition fits_int (lines : list Line) : Prop :=
  size lines < 2 ^ 31 /\ forall j line, lines !! j = Some line -> size line < 2 ^ 31.

(** The line of a coordinate is a line of the buffer. *)
Definition in_buffer (lines : list Line) (c : Coordinates) : Prop :=
  0 <= mLine c < size lines.

(** ** Delete, Backspace, Cut and Paste (lines 1782-1975) *)

(** [Delete], lines 1782-1831. *)
Definition Delete (ed : TextEditor) : result TextEditor :=
  _ ← assert (negb (mReadOnly ed));
  if empty (mLines ed) then Ok ed
  else
    let u := set_mBefore (mState ed) UndoRecord_new in
    if HasSelection ed then
      removed ← GetSelectedText ed;
      let u := set_removed removed (mSelectionStart (mState ed))
                 (mSelectionEnd (mState ed)) u in
      ed ← DeleteSelection ed;
      AddUndo ed (set_mAfter (mState ed) u)
    else
      pos ← GetActualCursorCoordinates ed;
      let ed := SetCursorPosition ed pos in
      line ← at_ (mLines ed) (mLine pos);
      n ← GetLineMaxColumn ed (mLine pos);
      if mColumn pos =? n then
        if mLine pos =? size (mLines ed) - 1 then Ok ed
        else
          removedStart ← GetActualCursorCoordinates ed;
          removedEnd ← Advance ed removedStart;
          let u := set_removed (string_of_char NEWLINE) removedStart removedEnd u in
          nextLine ← at_ (mLines ed) (mLine pos + 1);
          lines ← set_at (mLines ed) (mLine pos) (line ++ nextLine);
          ed ← RemoveLine (set_mLines lines ed) (mLine pos + 1);
          let ed := set_mTextChanged true ed in
          let ed := Colorize ed (mLine pos) 1 in
          AddUndo ed (set_mAfter (mState ed) u)
      else
        cindex ← GetCharacterIndex ed pos;
        removedStart ← GetActualCursorCoordinates ed;
        let removedEnd := mkCoordinates (mLine removedStart) (mColumn removedStart + 1) in
        removed ← GetText ed removedStart removedEnd;
        let u := set_removed removed removedStart removedEnd u in
        g ← at_ line cindex;
        let d := UTF8CharLength (mChar g) in
        '(line, _) ← while (Z.to_nat d)
          (λ '(line, d), (d >? 0) && (cindex <? size line))
          (λ '(line, d), line ← erase line cindex (cindex + 1); Ok (line, d - 1))
          (line, d);
        lines ← set_at (mLines ed) (mLine pos) line;
        let ed := set_mLines lines ed in
        let ed := set_mTextChanged true ed in
        let ed := Colorize ed (mLine pos) 1 in
        AddUndo ed (set_mAfter (mState ed) u).

(** [IsUTFSequence(line[i].mChar)], for an index inside of the line. *)
Definition IsUTFSequence_at (line : Line) (i : Z) : bool :=
  match line !! Z.to_nat i with
  | Some g => IsUTFSequence (mChar g)
  | None => false
  end.

(** [Backspace], lines 1833-1901. *)
Definition Backspace (ed : TextEditor) : result TextEditor :=
  _ ← assert (negb (mReadOnly ed));
  if empty (mLines ed) then Ok ed
  else
    let u := set_mBefore (mState ed) UndoRecord_new in
    if HasSelection ed then
      removed ← GetSelectedText ed;
      let u := set_removed removed (mSelectionStart (mState ed))
                 (mSelectionEnd (mState ed)) u in
      ed ← DeleteSelection ed;
      AddUndo ed (set_mAfter (mState ed) u)
    else
      pos ← GetActualCursorCoordinates ed;
      let ed := SetCursorPosition ed pos in
      let cursor := mCursorPosition (mState ed) in
      if mColumn cursor =? 0 then
        if mLine cursor =? 0 then Ok ed
        else
          column ← GetLineMaxColumn ed (mLine pos - 1);
          let removedStart := mkCoordinates (mLine pos - 1) column in
          removedEnd ← Advance ed removedStart;
          let u := set_removed (string_of_char NEWLINE) removedStart removedEnd u in
          line ← at_ (mLines ed) (mLine cursor);
          prevLine ← at_ (mLines ed) (mLine cursor - 1);
          prevSize ← GetLineMaxColumn ed (mLine cursor - 1);
          lines ← set_at (mLines ed) (mLine cursor - 1) (prevLine ++ line);
          let ed := set_mLines lines ed in
          let etmp :=
            foldl (λ etmp i,
                     ErrorMarkers_insert
                       (if fst i - 1 =? mLine cursor then fst i - 1 else fst i, snd i)
                       etmp)
                  [] (mErrorMarkers ed) in
          let ed := set_mErrorMarkers etmp ed in
          ed ← RemoveLine ed (mLine cursor);
          let ed := set_mState
                      (set_mCursorPosition (mkCoordinates (mLine cursor - 1) prevSize)
                                           (mState ed)) ed in
          let ed := set_mTextChanged true ed in
          let ed := Colorize ed (mLine (mCursorPosition (mState ed))) 1 in
          AddUndo ed (set_mAfter (mState ed) u)
      else
        line ← at_ (mLines ed) (mLine cursor);
        cindex ← GetCharacterIndex ed pos;
        let cindex := cindex - 1 in
        let cend := cindex + 1 in
        _ ← assert_range ((cindex <=? 0) || (cindex <? size line));
        cindex ← while (Z.to_nat cindex)
          (λ cindex, (cindex >? 0) && IsUTFSequence_at line cindex)
          (λ cindex, Ok (cindex - 1))
          cindex;
        removedEnd ← GetActualCursorCoordinates ed;
        let removedStart := mkCoordinates (mLine removedEnd) (mColumn removedEnd - 1) in
        let ed := set_mState
                    (set_mCursorPosition (mkCoordinates (mLine cursor) (mColumn cursor - 1))
                                         (mState ed)) ed in
        '(line, removed, _) ← while (S (List.length line))
          (λ '(line, removed, cend), negb (ge_size cindex line) && (cend >? cindex))
          (λ '(line, removed, cend),
             g ← at_ line cindex;
             line ← erase line cindex (cindex + 1);
             Ok (line, push_back removed (mChar g), cend - 1))
          (line, EmptyString, cend);
        let u := set_removed removed removedStart removedEnd u in
        lines ← set_at (mLines ed) (mLine cursor) line;
        let ed := set_mLines lines ed in
        let ed := set_mTextChanged true ed in
        let ed := Colorize ed (mLine (mCursorPosition (mState ed))) 1 in
        AddUndo ed (set_mAfter (mState ed) u).

(** [Copy], lines 1916-1928: the text that it hands to the clipboard of the
    host, when it hands one. *)
Definition Copy (ed : TextEditor) : result (option string) :=
  if HasSelection ed then
    text ← GetSelectedText ed; Ok (Some (c_str text))
  else if negb (empty (mLines ed)) then
    pos ← GetActualCursorCoordinates ed;
    line ← at_ (mLines ed) (mLine pos);
    Ok (Some (c_str (string_of_list_ascii (map mChar line))))
  else Ok None.

(** [Cut], lines 1930-1948. *)
Definition Cut (ed : TextEditor) : result TextEditor :=
  if mReadOnly ed then _ ← Copy ed; Ok ed
  else if HasSelection ed then
    let u := set_mBefore (mState ed) UndoRecord_new in
    removed ← GetSelectedText ed;
    let u := set_removed removed (mSelectionStart (mState ed))
               (mSelectionEnd (mState ed)) u in
    _ ← Copy ed;
    ed ← DeleteSelection ed;
    AddUndo ed (set_mAfter (mState ed) u)
  else Ok ed.

(** [Paste], lines 1950-1975; [clipText] is the answer of the clipboard of
    the host, [None] for the null pointer. *)
Definition Paste (ed : TextEditor) (clipText : option string) : result TextEditor :=
  if mReadOnly ed then Ok ed
  else
    match clipText with
    | None => Ok ed
    | Some clipText =>
        if negb (char_eqb (peek clipText) NUL) then
          let u := set_mBefore (mState ed) UndoRecord_new in
          '(ed, u) ←
            (if HasSelection ed then
               removed ← GetSelectedText ed;
               let u := set_removed removed (mSelectionStart (mState ed))
                          (mSelectionEnd (mState ed)) u in
               ed ← DeleteSelection ed;
               Ok (ed, u)
             else Ok (ed, u));
          addedStart ← GetActualCursorCoordinates ed;
          ed ← InsertText ed clipText;
          addedEnd ← GetActualCursorCoordinates ed;
          let u := set_added (c_str clipText) addedStart addedEnd u in
          AddUndo ed (set_mAfter (mState ed) u)
        else Ok ed
    end.

(** ** Character entry (lines 1150-1297) *)

(** [(char)n] *)
Definition to_char (n : Z) : Char := chr (n mod 256).

(** [ImTextCharToUtf8(buf, 7, c)], lines 182-215: the bytes written to
    [buf]; the empty list where the function returns 0. *)
Definition ImTextCharToUtf8 (c : Z) : list Char :=
  if c <? 0x80 then [to_char c]
  else if c <? 0x800 then
    [to_char (0xc0 + Z.shiftr c 6); to_char (0x80 + Z.land c 0x3f)]
  else if (c >=? 0xdc00) && (c <? 0xe000) then []
  else if (c >=? 0xd800) && (c <? 0xdc00) then
    [to_char (0xf0 + Z.shiftr c 18);
     to_char (0x80 + Z.land (Z.shiftr c 12) 0x3f);
     to_char (0x80 + Z.land (Z.shiftr c 6) 0x3f);
     to_char (0x80 + Z.land c 0x3f)]
  else
    [to_char (0xe0 + Z.shiftr c 12);
     to_char (0x80 + Z.land (Z.shiftr c 6) 0x3f);
     to_char (0x80 + Z.land c 0x3f)].

(** [for (it = 0; it < line.size() && isascii(line[it].mChar) &&
    isblank(line[it].mChar); ++it) newLine.push_back(line[it]);]: the blanks
    at the start of the line. *)
Fixpoint take_while_blank_ (blank : Char -> bool) (line : Line) : Line :=
  match line with
  | [] => []
  | g :: line => if blank (mChar g) then g :: take_while_blank_ blank line else []
  end.

(** [isascii(c) && isblank(c)] *)
Definition is_ascii_blank (c : Char) : bool :=
  (char_code c <? 128) && ((char_code c =? 32) || (char_code c =? 9)).

(** [line.front().mChar == c] for a line that is not empty. *)
Definition front_is (line : Line) (c : Char) : bool :=
  match line with
  | [] => false
  | g :: _ => char_eqb (mChar g) c
  end.

Definition take_while_blank (line : Line) : Line :=
  take_while_blank_ is_ascii_blank line.

Definition SPACE : Char := chr 32.

(** The indentation of the lines of a selection by the tab key
    (lines 1158-1230). *)
Definition EnterCharacter_tab (ed : TextEditor) (u : UndoRecord) (aShift : bool)
    : result TextEditor :=
  let start := mSelectionStart (mState ed) in
  let end_ := mSelectionEnd (mState ed) in
  let originalEnd := end_ in
  let '(start, end_) :=
    if Coordinates_gtb start end_ then (end_, start) else (start, end_) in
  let start := mkCoordinates (mLine start) 0 in
  let end_ :=
    if (mColumn end_ =? 0) && (mLine end_ >? 0)
    then mkCoordinates (mLine end_ - 1) (mColumn end_) else end_ in
  let end_ :=
    if mLine end_ >=? size (mLines ed)
    then mkCoordinates (if empty (mLines ed) then 0 else size (mLines ed) - 1)
                       (mColumn end_)
    else end_ in
  column ← GetLineMaxColumn ed (mLine end_);
  let end_ := mkCoordinates (mLine end_) column in
  removed ← GetText ed start end_;
  let u := set_removed removed start end_ u in
  '(ed, _, modified) ← while (S (List.length (mLines ed)))
    (λ '(ed, i, modified), i <=? mLine end_)
    (λ '(ed, i, modified),
       line ← at_ (mLines ed) i;
       '(line, modified) ←
         (if (aShift : bool) then
            if negb (empty line) then
              if front_is line TAB then
                line ← erase line 0 1; Ok (line, true)
              else
                '(line, _, modified) ← while (Z.to_nat (mTabSize ed))
                  (λ '(line, j, modified),
                     (j <? mTabSize ed) && negb (empty line) && front_is line SPACE)
                  (λ '(line, j, modified),
                     line ← erase line 0 1; Ok (line, j + 1, true))
                  (line, 0, modified);
                Ok (line, modified)
            else Ok (line, modified)
          else
            line ← insert_at line 0 (Glyph_new TAB PaletteIndex.Background);
            Ok (line, true));
       lines ← set_at (mLines ed) i line;
       Ok (set_mLines lines ed, i + 1, modified))
    (ed, mLine start, false);
  if (modified : bool) then
    column ← GetCharacterColumn ed (mLine start) 0;
    let start := mkCoordinates (mLine start) column in
    '(end_, rangeEnd, added) ←
      (if negb (mColumn originalEnd =? 0) then
         column ← GetLineMaxColumn ed (mLine end_);
         let end_ := mkCoordinates (mLine end_) column in
         added ← GetText ed start end_;
         Ok (end_, end_, added)
       else
         let end_ := mkCoordinates (mLine originalEnd) 0 in
         column ← GetLineMaxColumn ed (mLine end_ - 1);
         let rangeEnd := mkCoordinates (mLine end_ - 1) column in
         added ← GetText ed start rangeEnd;
         Ok (end_, rangeEnd, added));
    let u := set_mAfter (mState ed) (set_added added start rangeEnd u) in
    let ed := set_mState (set_mSelectionEnd end_
                            (set_mSelectionStart start (mState ed))) ed in
    ed ← AddUndo ed u;
    Ok (set_mTextChanged true ed)
  else Ok ed.

(** [EnterCharacter], lines 1150-1297. *)
Definition EnterCharacter (ed : TextEditor) (aChar : Z) (aShift : bool)
    : result TextEditor :=
  _ ← assert (negb (mReadOnly ed));
  let u := set_mBefore (mState ed) UndoRecord_new in
  if HasSelection ed
     && (aChar =? char_code TAB)
     && negb (mLine (mSelectionStart (mState ed)) =? mLine (mSelectionEnd (mState ed)))
  then EnterCharacter_tab ed u aShift
  else
    '(ed, u) ←
      (if HasSelection ed then
         removed ← GetSelectedText ed;
         let u := set_removed removed (mSelectionStart (mState ed))
                    (mSelectionEnd (mState ed)) u in
         ed ← DeleteSelection ed;
         Ok (ed, u)
       else Ok (ed, u));
    coord ← GetActualCursorCoordinates ed;
    _ ← assert (negb (empty (mLines ed)));
    r ←
      (if aChar =? char_code NEWLINE then
         ed ← InsertLine ed (mLine coord + 1);
         line ← at_ (mLines ed) (mLine coord);
         newLine ← at_ (mLines ed) (mLine coord + 1);
         let newLine :=
           if mAutoIndentation (mLanguageDefinition ed)
           then newLine ++ take_while_blank line
           else newLine in
         let whitespaceSize := size newLine in
         cindex ← GetCharacterIndex ed coord;
         _ ← assert_range ((0 <=? cindex) && (cindex <=? size line));
         let newLine := newLine ++ drop (Z.to_nat cindex) line in
         line ← erase line cindex (size line);
         lines ← set_at (mLines ed) (mLine coord) line;
         lines ← set_at lines (mLine coord + 1) newLine;
         let ed := set_mLines lines ed in
         column ← GetCharacterColumn ed (mLine coord + 1) whitespaceSize;
         let ed := SetCursorPosition ed (mkCoordinates (mLine coord + 1) column) in
         Ok (Some (ed, set_added (string_of_char (to_char aChar)) coord (mAddedEnd u) u))
       else
         let buf := ImTextCharToUtf8 aChar in
         if size buf >? 0 then
           line ← at_ (mLines ed) (mLine coord);
           cindex ← GetCharacterIndex ed coord;
           '(line, u) ←
             (if mOverwrite ed && (cindex <? size line) then
                g ← at_ line cindex;
                let d := UTF8CharLength (mChar g) in
                column ← GetCharacterColumn ed (mLine coord) (cindex + d);
                let removedStart := mCursorPosition (mState ed) in
                let removedEnd := mkCoordinates (mLine coord) column in
                '(line, removed, _) ← while (Z.to_nat d)
                  (λ '(line, removed, d), (d >? 0) && (cindex <? size line))
                  (λ '(line, removed, d),
                     g ← at_ line cindex;
                     line ← erase line cindex (cindex + 1);
                     Ok (line, push_back removed (mChar g), d - 1))
                  (line, mRemoved u, d);
                Ok (line, set_removed removed removedStart removedEnd u)
              else Ok (line, u));
           let text := c_str (string_of_list_ascii buf) in
           '(line, cindex) ← foldl
             (λ acc p,
                '(line, cindex) ← acc;
                line ← insert_at line cindex (Glyph_new p PaletteIndex.Default);
                Ok (line, cindex + 1))
             (Ok (line, cindex)) (list_ascii_of_string text);
           lines ← set_at (mLines ed) (mLine coord) line;
           let ed := set_mLines lines ed in
           column ← GetCharacterColumn ed (mLine coord) cindex;
           let ed := SetCursorPosition ed (mkCoordinates (mLine coord) column) in
           Ok (Some (ed, set_added text coord (mAddedEnd u) u))
         else Ok None);
    match r with
    | None => Ok ed
    | Some (ed, u) =>
        let ed := set_mTextChanged true ed in
        addedEnd ← GetActualCursorCoordinates ed;
        let u := set_mAfter (mState ed) (set_added (mAdded u) (mAddedStart u) addedEnd u) in
        ed ← AddUndo ed u;
        Ok (Colorize ed (mLine coord - 1) 3)
    end.

(** ** The colorizer step (lines 2120-2326) *)

Section Colorizer.

(** The two passes over the glyphs are parameters here: they write the
    highlighting data of the glyphs and call the regular expressions and the
    tokenizer of the language.
    - [CommentSweep]: the scan of lines 2215-2310 over the whole buffer, which
      stamps the comment and preprocessor flags;
    - [ColorizeLine]: the token loop of lines 2135-2206 on one line that is
      not empty. *)
Variable CommentSweep : LanguageDefinition -> list Line -> result (list Line).
Variable ColorizeLine : LanguageDefinition -> Line -> result Line.

(** [ColorizeRange], lines 2120-2208. *)
Definition ColorizeRange (ed : TextEditor) (aFromLine aToLine : Z) : result TextEditor :=
  if empty (mLines ed) || (aFromLine >=? aToLine) then Ok ed
  else
    let endLine := Z.max 0 (Z.min (size (mLines ed)) aToLine) in
    '(ed, _) ← while (Z.to_nat (endLine - aFromLine))
      (λ '(ed, i), i <? endLine)
      (λ '(ed, i),
         line ← at_ (mLines ed) i;
         if empty line then Ok (ed, i + 1)
         else
           line ← ColorizeLine (mLanguageDefinition ed) line;
           lines ← set_at (mLines ed) i line;
           Ok (set_mLines lines ed, i + 1))
      (ed, aFromLine);
    Ok ed.

(** [ColorizeInternal], lines 2210-2326. *)
Definition ColorizeInternal (ed : TextEditor) : result TextEditor :=
  if empty (mLines ed) || negb (mColorizerEnabled ed) then Ok ed
  else
    ed ←
      (if mCheckComments ed then
         lines ← CommentSweep (mLanguageDefinition ed) (mLines ed);
         Ok (set_mCheckComments false (set_mLines lines ed))
       else Ok ed);
    if mColorRangeMin ed <? mColorRangeMax ed then
      let increment :=
        match mTokenize (mLanguageDefinition ed) with
        | None => 10
        | Some _ => 10000
        end in
      let to := Z.min (mColorRangeMin ed + increment) (mColorRangeMax ed) in
      ed ← ColorizeRange ed (mColorRangeMin ed) to;
      let ed := set_mColorRange to (mColorRangeMax ed) ed in
      if mColorRangeMax ed =? mColorRangeMin ed
      then Ok (set_mColorRange 10000 0 ed)
      else Ok ed
    else Ok ed.

(** The line after the token pass, where the pass returns. *)
Definition colorized (ld : LanguageDefinition) (line : Line) : Line :=
  match ColorizeLine ld line with Ok line' => line' | Fault _ => line end.

(** The lines after the token pass over the lines from [lo] to [hi - 1]. *)
Definition colorized_between (ld : LanguageDefinition) (lo hi : Z) (lines : list Line)
    : list Line :=
  imap (λ (i : nat) line,
          if (lo <=? Z.of_nat i) && (Z.of_nat i <? hi) && negb (empty line)
          then colorized ld line else line) lines.

(** The buffer after the comment sweep of a step, which runs when
    [mCheckComments] is set. *)
Definition swept (ed : TextEditor) : list Line :=
  if mCheckComments ed then
    match CommentSweep (mLanguageDefinition ed) (mLines ed) with
    | Ok lines => lines
    | Fault _ => mLines ed
    end
  else mLines ed.

End Colorizer.

(** ** Language definitions and the editor at its construction *)

(** [LanguageDefinition::Lua], lines 3052-3109: no custom tokenizer is set. *)
Definition Lua : LanguageDefinition :=
  mkLanguageDefinition "Lua" "--[[" "]]" "--" true false None.

(** [LanguageDefinition::CPlusPlus], lines 2629-2693, with its tokenizer
    (the lambda of lines 2656-2679). *)
Definition CPlusPlus (tokenize : TokenizeCallback) : LanguageDefinition :=
  mkLanguageDefinition "C++" "/*" "*/" "//" true true (Some tokenize).

(** [SetLanguageDefinition], lines 97-105. *)
Definition SetLanguageDefinition (ed : TextEditor) (aLanguageDef : LanguageDefinition)
    : TextEditor :=
  Colorize (set_mLanguageDefinition aLanguageDef ed) 0 (-1).

(** [TextEditor::TextEditor], lines 65-92. *)
Definition TextEditor_new : TextEditor :=
  let ed := mkTextEditor [] EditorState_zero [] 0 4 false false false true
              0 0 true [] ∅ Lua in
  let ed := SetLanguageDefinition ed Lua in
  set_mLines (mLines ed ++ [[]]) ed.

(** [SetReadOnly] and [SetColorizerEnable], lines 1299-1305. *)
Definition SetReadOnly (ed : TextEditor) (aValue : bool) : TextEditor :=
  set_mReadOnly aValue ed.

Definition SetColorizerEnable (ed : TextEditor) (aValue : bool) : TextEditor :=
  set_mColorizerEnabled aValue ed.

(** ** Inputs for the examples *)

(** Two passes to run the step with: a sweep that leaves the glyphs as they
    are, and a token pass that paints every glyph of the line as a keyword. *)
Definition sweep_nothing (ld : LanguageDefinition) (lines : list Line) : result (list Line) :=
  Ok lines.

Definition paint_keyword (ld : LanguageDefinition) (line : Line) : result Line :=
  Ok (map (λ g, mkGlyph (mChar g) PaletteIndex.Keyword (mComment g)
                        (mMultiLineComment g) (mPreprocessor g)) line).

Definition painted (line : Line) : bool :=
  match line with
  | g :: _ => bool_decide (mColorIndex g = PaletteIndex.Keyword)
  | [] => false
  end.

Definition fifty_lines (ld : LanguageDefinition) : TextEditor :=
  SetTextLines (SetLanguageDefinition TextEditor_new ld) (replicate 50 "x"%string).


(** A buffer of five lines with an error marker and a breakpoint on each of
    its last two lines, 3 and 4. *)
Definition five_lines : TextEditor :=
  set_mBreakpoints {[3; 4]}
    (set_mErrorMarkers [(3, "warning"%string); (4, "error"%string)]
       (SetTextLines TextEditor_new ["a"; "b"; "c"; "d"; "e"]%string)).

(** The document ["abc"], and the selection (0,0)-(0,3) in it. *)
Definition abc : TextEditor := SetText TextEditor_new "abc".

Definition abc_selected : result TextEditor :=
  SetSelection abc (mkCoordinates 0 0) (mkCoordinates 0 3).

(** A document of one line that begins with a tab. *)
Definition tab_line : TextEditor :=
  SetTextLines TextEditor_new [String TAB "x"].

(** A coordinate inside of the tab of [tab_line]. *)
Definition inside_tab : Coordinates := mkCoordinates 0 2.

(** ** Sequences of operations *)

(** The operations of the editor that change its buffer or its
    configuration, with their arguments. *)
Inductive Operation : Type :=
| OpSetText (aText : string)
| OpSetTextLines (aLines : list string)
| OpInsertText (aValue : string)
| OpEnterCharacter (aChar : Z) (aShift : bool)
| OpDelete
| OpBackspace
| OpDeleteSelection
| OpCut
| OpPaste (clipText : option string)
| OpToggleComment (shift : bool)
| OpUndo (aSteps : Z)
| OpRedo (aSteps : Z)
| OpInsertLine (aIndex : Z)
| OpRemoveLine (aIndex : Z)
| OpRemoveLines (aStart aEnd : Z)
| OpDeleteRange (aStart aEnd : Coordinates)
| OpInsertTextAt (aWhere : Coordinates) (aValue : string)
| OpSetSelection (aStart aEnd : Coordinates)
| OpSetCursorPosition (aPosition : Coordinates)
| OpSetTabSize (aValue : Z)
| OpSetReadOnly (aValue : bool)
| OpSetColorizerEnable (aValue : bool)
| OpSetLanguageDefinition (aLanguageDef : LanguageDefinition)
| OpColorize (aFromLine aLines : Z).

Definition perform (op : Operation) (ed : TextEditor) : result TextEditor :=
  match op with
  | OpSetText aText => Ok (SetText ed aText)
  | OpSetTextLines aLines => Ok (SetTextLines ed aLines)
  | OpInsertText aValue => InsertText ed aValue
  | OpEnterCharacter aChar aShift => EnterCharacter ed aChar aShift
  | OpDelete => Delete ed
  | OpBackspace => Backspace ed
  | OpDeleteSelection => DeleteSelection ed
  | OpCut => Cut ed
  | OpPaste clipText => Paste ed clipText
  | OpToggleComment shift => ToggleComment ed shift
  | OpUndo aSteps => Undo ed aSteps
  | OpRedo aSteps => Redo ed aSteps
  | OpInsertLine aIndex => InsertLine ed aIndex
  | OpRemoveLine aIndex => RemoveLine ed aIndex
  | OpRemoveLines aStart aEnd => RemoveLines ed aStart aEnd
  | OpDeleteRange aStart aEnd => DeleteRange ed aStart aEnd
  | OpInsertTextAt aWhere aValue =>
      '(ed, _, _) ← InsertTextAt ed aWhere aValue; Ok ed
  | OpSetSelection aStart aEnd => SetSelection ed aStart aEnd
  | OpSetCursorPosition aPosition => Ok (SetCursorPosition ed aPosition)
  | OpSetTabSize aValue => Ok (SetTabSize ed aValue)
  | OpSetReadOnly aValue => Ok (SetReadOnly ed aValue)
  | OpSetColorizerEnable aValue => Ok (SetColorizerEnable ed aValue)
  | OpSetLanguageDefinition aLanguageDef => Ok (SetLanguageDefinition ed aLanguageDef)
  | OpColorize aFromLine aLines => Ok (Colorize ed aFromLine aLines)
  end.

(** The operations of a list, one after the other. *)
Fixpoint perform_all (ops : list Operation) (ed : TextEditor) : result TextEditor :=
  match ops with
  | [] => Ok ed
  | op :: ops => ed ← perform op ed; perform_all ops ed
  end.

(** A session: two lines are loaded, the cursor goes to the start of the
    second line, Backspace joins the lines, Enter splits them again, a
    character is typed, and Delete is pressed at the end of the buffer. *)
Definition session : list Operation :=
  [OpSetText "a
b";
   OpSetCursorPosition (mkCoordinates 1 0);
   OpBackspace;
   OpEnterCharacter 10 false;
   OpEnterCharacter 120 false;
   OpSetCursorPosition (mkCoordinates 1 2);
   OpDelete;
   OpUndo 1].

Definition after_session : TextEditor :=
  match perform_all session TextEditor_new with
  | Ok ed => ed
  | Fault _ => TextEditor_new
  end.

(** The editor with the document ["abc"] and the selection (0,0)-(0,3). *)
Definition abc_sel : TextEditor :=
  match abc_selected with
  | Ok ed => ed
  | Fault _ => abc
  end.

(** An empty line and the line ["abc"], with both lines selected. *)
Definition blank_then_abc : TextEditor :=
  let ed := SetTextLines TextEditor_new [EmptyString; "abc"%string] in
  match SetSelection ed (mkCoordinates 0 0) (mkCoordinates 1 3) with
  | Ok ed => ed
  | Fault _ => ed
  end.

(** ** The whole text of a buffer *)

(** The text of the lines, each one followed by a newline. *)
Definition text_of_lines (lines : list Line) : string :=
  foldr (λ line rest, (string_of_Line line ++ String NEWLINE rest)%string)
        EmptyString lines.

(** The text without its carriage returns. *)
Definition without_CR (aText : string) : string :=
  string_of_list_ascii
    (List.filter (λ c, negb (char_eqb c CR)) (list_ascii_of_string aText)).

(** ** Invariants of the editor *)

(** The index of the undo log is a position of the log: the records before
    it can be undone, the records from it on can be redone. *)
Definition undo_log_ok (buf : list UndoRecord) (idx : Z) : Prop :=
  0 <= idx <= size buf.


(** The error markers are a map: their lines are in ascending order, and no
    line has two entries. *)
Fixpoint ErrorMarkers_ordered (m : ErrorMarkers) : Prop :=
  match m with
  | [] => True
  | e :: m' => (forall e', e' ∈ m' -> fst e < fst e') /\ ErrorMarkers_ordered m'
  end.

(** [mErrorMarkers.find(i)]: the message of the entry of line [i]. *)
Fixpoint ErrorMarkers_find (i : Z) (m : ErrorMarkers) : option string :=
  match m with
  | [] => None
  | e :: m' => if fst e =? i then Some (snd e) else ErrorMarkers_find i m'
  end.

(** ** The tokenizers of the C-style languages (lines 2435-2627)

    A tokenizer gets the text from [in_begin] to [in_end].  A pointer [p]
    into that text is held as the text from [p] to [in_end]: [*p] is [peek],
    [p++] is [next], [p < in_end] is [before_end], and [p - in_begin] is
    [offset_in].  The result is the pair of [out_begin - in_begin] and
    [out_end - in_begin] where the function returns [true]. *)

Definition before_end (p : string) : bool := negb (string_empty p).

Definition offset_in (s p : string) : Z := string_size s - string_size p.

Definition QUOTE : Char := chr 34.
Definition APOSTROPHE : Char := chr 39.
Definition BACKSLASH : Char := chr 92.

(** [lo <= c && c <= hi] *)
Definition char_between (lo hi c : Char) : bool :=
  (char_code lo <=? char_code c) && (char_code c <=? char_code hi).

(** [c] is one of the characters of [cs]. *)
Definition char_among (cs : string) (c : Char) : bool :=
  existsb (char_eqb c) (list_ascii_of_string cs).

Definition is_digit (c : Char) : bool := char_between "0" "9" c.

(** [while (p < in_end && f( *p )) p++;] *)
Fixpoint skip (f : Char -> bool) (p : string) : string :=
  match p with
  | String c p' => if f c then skip f p' else p
  | EmptyString => p
  end.

(** [while (p < in_end && f( *p )) { flag = true; p++; }] *)
Fixpoint skip_set (f : Char -> bool) (p : string) (flag : bool) : string * bool :=
  match p with
  | String c p' => if f c then skip_set f p' true else (p, flag)
  | EmptyString => (p, flag)
  end.

(** The loop of [TokenizeCStyleString], lines 2441-2454: the pointer after
    the closing quote, where there is one. *)
Fixpoint TokenizeCStyleString_scan (p : string) : option string :=
  match p with
  | EmptyString => None
  | String c p1 =>
      (* handle end of string *)
      if char_eqb c QUOTE then Some p1
      else
        match p1 with
        | String c1 p2 =>
            (* handle escape character for the quote *)
            if char_eqb c BACKSLASH && char_eqb c1 QUOTE
            then TokenizeCStyleString_scan p2
            else TokenizeCStyleString_scan p1
        | EmptyString => TokenizeCStyleString_scan p1
        end
  end.

(** [TokenizeCStyleString], lines 2435-2458. *)
Definition TokenizeCStyleString (s : string) : option (Z * Z) :=
  let p := s in
  if char_eqb (peek p) QUOTE then
    let p := next p in
    match TokenizeCStyleString_scan p with
    | Some out_end => Some (0, offset_in s out_end)
    | None => None
    end
  else None.

(** [TokenizeCStyleCharacterLiteral], lines 2460-2482. *)
Definition TokenizeCStyleCharacterLiteral (s : string) : option (Z * Z) :=
  let p := s in
  if char_eqb (peek p) APOSTROPHE then
    let p := next p in
    (* handle escape characters *)
    let p := if before_end p && char_eqb (peek p) BACKSLASH then next p else p in
    let p := if before_end p then next p else p in
    (* handle end of character literal *)
    if before_end p && char_eqb (peek p) APOSTROPHE
    then Some (0, offset_in s (next p))
    else None
  else None.

Definition is_identifier_start (c : Char) : bool :=
  char_between "a" "z" c || char_between "A" "Z" c || char_eqb c "_".

Definition is_identifier_char (c : Char) : bool :=
  char_between "a" "z" c || char_between "A" "Z" c || char_between "0" "9" c
  || char_eqb c "_".

(** [TokenizeCStyleIdentifier], lines 2484-2499. *)
Definition TokenizeCStyleIdentifier (s : string) : option (Z * Z) :=
  let p := s in
  if is_identifier_start (peek p) then
    let p := next p in
    let p := skip is_identifier_char p in
    Some (0, offset_in s p)
  else None.

Definition is_hex_digit (c : Char) : bool :=
  char_between "0" "9" c || char_between "a" "f" c || char_between "A" "F" c.

(** [TokenizeCStyleNumber], lines 2501-2591. *)
Definition TokenizeCStyleNumber (s : string) : option (Z * Z) :=
  let p := s in
  let startsWithNumber := is_digit (peek p) in
  if negb (char_eqb (peek p) "+") && negb (char_eqb (peek p) "-")
     && negb startsWithNumber
  then None
  else
    let p := next p in
    let '(p, hasNumber) := skip_set is_digit p startsWithNumber in
    if negb hasNumber then None
    else
      let '(p, isFloat, isHex, isBinary) :=
        if before_end p then
          if char_eqb (peek p) "." then
            (skip is_digit (next p), true, false, false)
          else if char_among "xX" (peek p) then
            (* hex formatted integer of the type 0xef80 *)
            (skip is_hex_digit (next p), false, true, false)
          else if char_among "bB" (peek p) then
            (* binary formatted integer of the type 0b01011101 *)
            (skip (char_between "0" "1") (next p), false, false, true)
          else (p, false, false, false)
        else (p, false, false, false) in
      r ← (if negb isHex && negb isBinary then
             (* floating point exponent *)
             '(p, isFloat) ←
               (if before_end p && char_among "eE" (peek p) then
                  let p := next p in
                  let p := if before_end p && char_among "+-" (peek p)
                           then next p else p in
                  let '(p, hasDigits) := skip_set is_digit p false in
                  if negb hasDigits then None else Some (p, true)
                else Some (p, isFloat));
             (* single precision floating point type *)
             let p := if before_end p && char_eqb (peek p) "f" then next p else p in
             Some (p, isFloat)
           else Some (p, isFloat));
      let '(p, isFloat) := r in
      (* integer size type *)
      let p := if negb isFloat then skip (char_among "uUlL") p else p in
      Some (0, offset_in s p).

(** [TokenizeCStylePunctuation], lines 2593-2627. *)
Definition TokenizeCStylePunctuation (s : string) : option (Z * Z) :=
  if char_among "[]{}!%^&*()-+=~|<>?:/;,." (peek s) then Some (0, 1) else None.

(** The tokenizer of the C++ definition, the lambda of lines 2656-2679.  The
    offsets of the result are from the [in_begin] of the call; [None] is the
    result [false] ([paletteIndex] is left at [PaletteIndex::Max]). *)
Definition CPlusPlus_tokenize : TokenizeCallback := λ s,
  let in_begin := skip is_ascii_blank s in
  let from_call (r : Z * Z) (paletteIndex : PaletteIndex.t) :=
    Some (offset_in s in_begin + fst r, offset_in s in_begin + snd r, paletteIndex) in
  if string_empty in_begin then
    Some (string_size s, string_size s, PaletteIndex.Default)
  else
    match TokenizeCStyleString in_begin with
    | Some r => from_call r PaletteIndex.String
    | None =>
    match TokenizeCStyleCharacterLiteral in_begin with
    | Some r => from_call r PaletteIndex.CharLiteral
    | None =>
    match TokenizeCStyleIdentifier in_begin with
    | Some r => from_call r PaletteIndex.Identifier
    | None =>
    match TokenizeCStyleNumber in_begin with
    | Some r => from_call r PaletteIndex.Number
    | None =>
    match TokenizeCStylePunctuation in_begin with
    | Some r => from_call r PaletteIndex.Punctuation
    | None => None
    end end end end end.

(** * Properties *)

(** ** Generic facts: results and loops *)

Lemma bind_Ok {A B} (m : result A) (f : A -> result B) (b : B) :
  m ≫= f = Ok b -> exists a, m = Ok a /\ f a = Ok b.
Proof. destruct m as [a|e]; simpl; [eauto | discriminate]. Qed.

Lemma while_unfold {S} fuel (cond : S -> bool) body s :
  while fuel cond body s =
  if cond s then
    match fuel with
    | O => Fault OutOfFuel
    | Datatypes.S fuel' => body s ≫= while fuel' cond body
    end
  else Ok s.
Proof. destruct fuel; reflexivity. Qed.

(** The loop stops at the first state, along the iterates of its body, that
    fails the test. *)
Lemma while_first_false {S} (cond : S -> bool) body (f : S -> S) :
  forall (n fuel : nat) (s : S),
    (forall j, (j < n)%nat ->
       cond (Nat.iter j f s) = true /\ body (Nat.iter j f s) = Ok (f (Nat.iter j f s))) ->
    cond (Nat.iter n f s) = false ->
    (n <= fuel)%nat ->
    while fuel cond body s = Ok (Nat.iter n f s).
Proof.
  induction n as [|n IH]; intros fuel s Hlt Hstop Hfuel.
  - simpl in Hstop. rewrite while_unfold, Hstop. reflexivity.
  - destruct fuel as [|fuel]; [lia|].
    destruct (Hlt 0%nat ltac:(lia)) as [Hc Hb]. simpl in Hc, Hb.
    rewrite while_unfold, Hc, Hb. unfold mbind, result_bind.
    rewrite Nat.iter_succ_r in Hstop. rewrite Nat.iter_succ_r.
    apply IH; [|exact Hstop|lia].
    intros j Hj. specialize (Hlt (Datatypes.S j) ltac:(lia)).
    rewrite !Nat.iter_succ_r in Hlt. exact Hlt.
Qed.

(** A loop that returns has gone through the iterates of its body up to the
    first one that fails the test. *)
Lemma while_Ok_inv {S} (cond : S -> bool) body :
  forall (fuel : nat) (s r : S),
    while fuel cond body s = Ok r ->
    exists n, (n <= fuel)%nat /\ r = Nat.iter n (step_of body) s /\
      cond r = false /\
      forall j, (j < n)%nat ->
        cond (Nat.iter j (step_of body) s) = true /\
        body (Nat.iter j (step_of body) s)
          = Ok (step_of body (Nat.iter j (step_of body) s)).
Proof.
  induction fuel as [|fuel IH]; intros s r H; rewrite while_unfold in H.
  - destruct (cond s) eqn:Hc; [discriminate|]. injection H as <-.
    exists 0%nat. repeat split; auto; intros; lia.
  - destruct (cond s) eqn:Hc.
    + apply bind_Ok in H as (s' & Hb & H).
      apply IH in H as (n & Hn & -> & Hstop & Hall).
      assert (Hs' : step_of body s = s') by (unfold step_of; rewrite Hb; reflexivity).
      exists (Datatypes.S n). rewrite Nat.iter_succ_r, Hs'.
      split; [lia|]. split; [reflexivity|]. split; [exact Hstop|].
      intros [|j] Hj.
      * simpl. split; [exact Hc|]. rewrite Hs'. exact Hb.
      * rewrite !Nat.iter_succ_r, Hs'. apply Hall. lia.
    + injection H as <-. exists 0%nat. repeat split; auto; intros; lia.
Qed.

(** A loop whose body keeps an invariant returns in a state of the invariant
    that fails the test. *)
Lemma while_invariant {S} (cond : S -> bool) body (Inv : S -> Prop) :
  (forall s s', Inv s -> cond s = true -> body s = Ok s' -> Inv s') ->
  forall (fuel : nat) (s r : S),
    Inv s -> while fuel cond body s = Ok r -> Inv r /\ cond r = false.
Proof.
  intros Hstep. induction fuel as [|fuel IH]; intros s r Hs H;
    rewrite while_unfold in H; destruct (cond s) eqn:Hc;
    try discriminate; try (injection H as <-; split; assumption).
  apply bind_Ok in H as (s' & Hb & H). apply (IH s'); [|exact H].
  eapply Hstep; eauto.
Qed.

Lemma while_keeps {S} (Inv : S -> Prop) (cond : S -> bool) body fuel (s r : S) :
  while fuel cond body s = Ok r ->
  Inv s ->
  (forall s s', Inv s -> cond s = true -> body s = Ok s' -> Inv s') ->
  Inv r.
Proof. intros H Hs Hstep. eapply while_invariant in H as [H _]; eauto. Qed.

(** ** UTF-8 lead bytes *)

(** C3, as stated, fails on the bytes 0xFE, 0xFC and 0xFD: the byte
    [11111110] has length 1 in the code, and the bytes [1111110x] have
    length 6. *)
Lemma UTF8CharLength_spec_counterexample :
  UTF8CharLength (chr 0xFE) = 1 /\ UTF8CharLength_spec (chr 0xFE) = 6 /\
  UTF8CharLength (chr 0xFC) = 6 /\ UTF8CharLength_spec (chr 0xFC) = 1 /\
  ~ (forall c, UTF8CharLength c = UTF8CharLength_spec c).
Proof.
  repeat split; try reflexivity.
  intros H. specialize (H (chr 0xFE)). vm_compute in H. discriminate.
Qed.

(** C3 (amended): for every byte [c], [UTF8CharLength c] is 6 exactly when [c]
    matches the pattern [1111110x], 5 when it matches [111110xx], 4 when it
    matches [11110xxx], 3 when it matches [1110xxxx], 2 when it matches
    [110xxxxx], and 1 otherwise. *)
Theorem UTF8CharLength_table (c : Char) :
  UTF8CharLength c =
    let n := char_code c in
    if Z.shiftr n 1 =? 0x7E (* 1111110 *) then 6
    else if Z.shiftr n 2 =? 0x3E (* 111110 *) then 5
    else if Z.shiftr n 3 =? 0x1E (* 11110 *) then 4
    else if Z.shiftr n 4 =? 0xE (* 1110 *) then 3
    else if Z.shiftr n 5 =? 0x6 (* 110 *) then 2
    else 1.
Proof.
  destruct c as [[] [] [] [] [] [] [] []]; vm_compute; reflexivity.
Qed.

Lemma UTF8CharLength_pos (c : Char) : 1 <= UTF8CharLength c <= 6.
Proof.
  unfold UTF8CharLength.
  repeat match goal with |- context [if ?b then _ else _] => destruct b end; lia.
Qed.

(** ** Vectors *)

Lemma size_nonneg {A} (v : list A) : 0 <= size v.
Proof. unfold size. lia. Qed.

Lemma at_Ok {A} (v : list A) (i : Z) (x : A) :
  at_ v i = Ok x <-> 0 <= i /\ v !! Z.to_nat i = Some x.
Proof.
  unfold at_. destruct (0 <=? i) eqn:H0; simpl.
  - destruct (i <? size v) eqn:H1.
    + destruct (v !! Z.to_nat i) eqn:Hl; split.
      * intros [= ->]. split; [lia|reflexivity].
      * intros [_ [= ->]]. reflexivity.
      * discriminate.
      * intros [_ ?]. discriminate.
    + split; [discriminate|]. intros [_ Hl].
      apply lookup_lt_Some in Hl. unfold size in H1. lia.
  - split; [discriminate|]. lia.
Qed.

Lemma at_lookup {A} (v : list A) (i : nat) (x : A) :
  v !! i = Some x -> at_ v (Z.of_nat i) = Ok x.
Proof. intros H. apply at_Ok. rewrite Nat2Z.id. split; [lia|exact H]. Qed.

Lemma set_at_Ok {A} (v : list A) (i : Z) (x : A) :
  0 <= i < size v -> set_at v i x = Ok (<[Z.to_nat i := x]> v).
Proof.
  intros H. unfold set_at.
  replace ((0 <=? i) && (i <? size v)) with true by lia. reflexivity.
Qed.

Lemma set_at_inv {A} (v v' : list A) (i : Z) (x : A) :
  set_at v i x = Ok v' -> 0 <= i < size v /\ v' = <[Z.to_nat i := x]> v.
Proof.
  unfold set_at. destruct ((0 <=? i) && (i <? size v)) eqn:H; [|discriminate].
  intros [= <-]. split; [lia|reflexivity].
Qed.

Lemma to_size_t_small (i : Z) : 0 <= i < 2 ^ 64 -> to_size_t i = i.
Proof. intros H. unfold to_size_t. apply Z.mod_small. exact H. Qed.

Lemma to_int_small (i : Z) : 0 <= i < 2 ^ 31 -> to_int i = i.
Proof. intros H. unfold to_int. rewrite Z.mod_small; lia. Qed.

Lemma ge_size_false {A} (i : Z) (v : list A) :
  ge_size i v = false <-> 0 <= i < size v.
Proof. unfold ge_size. lia. Qed.

(** ** Sanitization *)

(** C8: sanitizing a sanitized coordinate changes nothing, for every
    coordinate (any line and column, negative ones included) and every
    buffer; a sanitization that does not return (a tab in the line while the
    tab size is 0) does not return at the second time either. *)
Theorem SanitizeCoordinates_idempotent (ed : TextEditor) (c : Coordinates) :
  SanitizeCoordinates ed c ≫= SanitizeCoordinates ed = SanitizeCoordinates ed c.
Proof.
  destruct c as [line column]. unfold SanitizeCoordinates at 2 3. simpl.
  destruct (line >=? size (mLines ed)) eqn:Hline.
  - destruct (empty (mLines ed)) eqn:Hempty.
    + simpl. unfold SanitizeCoordinates. simpl.
      destruct (mLines ed); [reflexivity|discriminate].
    + destruct (GetLineMaxColumn ed (size (mLines ed) - 1)) as [m|e] eqn:Hmax;
        [|reflexivity].
      simpl. unfold SanitizeCoordinates. simpl.
      replace (size (mLines ed) - 1 >=? size (mLines ed)) with false by lia.
      rewrite Hempty, Hmax. simpl. rewrite Z.min_id. reflexivity.
  - destruct (empty (mLines ed)) eqn:Hempty.
    + simpl. unfold SanitizeCoordinates. simpl. rewrite Hline, Hempty. reflexivity.
    + destruct (GetLineMaxColumn ed line) as [m|e] eqn:Hmax; [|reflexivity].
      simpl. unfold SanitizeCoordinates. simpl. rewrite Hline, Hempty, Hmax. simpl.
      f_equal. f_equal. lia.
Qed.

(** ** Tab stops *)

Lemma tab_stop_Ok (ed : TextEditor) (c : Z) :
  mTabSize ed <> 0 ->
  tab_stop ed c = Ok (Z.quot c (mTabSize ed) * mTabSize ed + mTabSize ed).
Proof. intros H. unfold tab_stop. destruct (Z.eqb_spec (mTabSize ed) 0); [lia|reflexivity]. Qed.

(** Tab sizes of 1 and more: the rounding does not divide by zero. *)
Lemma SetTabSize_positive_tab_stop (ed : TextEditor) (aValue c : Z) :
  1 <= aValue -> is_Ok (tab_stop (SetTabSize ed aValue) c).
Proof.
  intros H. rewrite tab_stop_Ok; [exact I|].
  unfold SetTabSize, set_mTabSize. cbn [mTabSize]. lia.
Qed.

(** C10 (the code at the failing input): [SetTabSize(0)] is accepted and
    leaves the tab size at 0; from then on the tab-stop rounding divides by
    zero in [GetLineMaxColumn], [GetCharacterIndex] and [GetCharacterColumn]
    on every line that begins with a tab. *)
Theorem SetTabSize_zero_divides_by_zero
    (ed : TextEditor) (aLine : Z) (g : Glyph) (rest : Line) :
  0 <= aLine ->
  mLines ed !! Z.to_nat aLine = Some (g :: rest) ->
  mChar g = TAB ->
  let ed' := SetTabSize ed 0 in
  mTabSize ed' = 0 /\
  GetLineMaxColumn ed' aLine = Fault DivisionByZero /\
  GetCharacterIndex ed' (mkCoordinates aLine 1) = Fault DivisionByZero /\
  GetCharacterColumn ed' aLine 1 = Fault DivisionByZero.
Proof.
  intros H0 Hl Hg ed'.
  assert (Hlines : mLines ed' = mLines ed) by reflexivity.
  assert (Hsz : ge_size aLine (mLines ed') = false).
  { apply ge_size_false. rewrite Hlines. apply lookup_lt_Some in Hl. unfold size. lia. }
  assert (Hat : at_ (mLines ed') aLine = Ok (g :: rest)).
  { apply at_Ok. rewrite Hlines. split; [lia|exact Hl]. }
  split; [reflexivity|].
  unfold GetLineMaxColumn, GetCharacterIndex, GetCharacterColumn.
  simpl mLine. simpl mColumn.
  rewrite Hsz, Hat. simpl. rewrite Hg. repeat split; reflexivity.
Qed.

(** A loop whose body returns on the states of an invariant, keeps it, and
    decreases a measure, returns. *)
Lemma while_terminates {S} (cond : S -> bool) body (Inv : S -> Prop) (measure : S -> nat) :
  (forall s, Inv s -> cond s = true ->
     exists s', body s = Ok s' /\ Inv s' /\ (measure s' < measure s)%nat) ->
  forall (fuel : nat) (s : S),
    Inv s -> (measure s <= fuel)%nat ->
    exists r, while fuel cond body s = Ok r /\ Inv r /\ cond r = false.
Proof.
  intros Hstep. induction fuel as [|fuel IH]; intros s Hs Hm;
    rewrite while_unfold; destruct (cond s) eqn:Hc; eauto.
  - destruct (Hstep s Hs Hc) as (s' & _ & _ & Hlt). lia.
  - destruct (Hstep s Hs Hc) as (s' & Hb & Hs' & Hlt).
    rewrite Hb. simpl. apply IH; [exact Hs'|lia].
Qed.

(** ** The colorizer step *)

Section ColorizerFacts.

Variable CommentSweep : LanguageDefinition -> list Line -> result (list Line).
Variable ColorizeLine : LanguageDefinition -> Line -> result Line.

Local Abbreviation colorized_lines := (colorized_between ColorizeLine).

Lemma size_colorized_between ld lo hi lines :
  size (colorized_lines ld lo hi lines) = size lines.
Proof. unfold size, colorized_between. rewrite length_imap. reflexivity. Qed.

Lemma colorized_between_nil ld lo hi lines :
  hi <= lo -> colorized_lines ld lo hi lines = lines.
Proof.
  intros H. unfold colorized_between. apply list_eq. intros i.
  rewrite list_lookup_imap. destruct (lines !! i) as [line|]; simpl; [|reflexivity].
  replace ((lo <=? Z.of_nat i) && (Z.of_nat i <? hi)) with false by lia.
  reflexivity.
Qed.

Lemma colorized_between_clamp ld lo hi lines :
  colorized_lines ld lo (Z.max 0 (Z.min (size lines) hi)) lines
  = colorized_lines ld lo hi lines.
Proof.
  unfold colorized_between. apply list_eq. intros i.
  rewrite !list_lookup_imap. destruct (lines !! i) as [line|] eqn:Hl; simpl; [|reflexivity].
  apply lookup_lt_Some in Hl. unfold size.
  replace (Z.of_nat i <? Z.max 0 (Z.min (Z.of_nat (length lines)) hi))
    with (Z.of_nat i <? hi) by lia.
  reflexivity.
Qed.

Lemma colorized_between_step ld lo (i : Z) lines line :
  lo <= i -> 0 <= i ->
  lines !! Z.to_nat i = Some line ->
  <[Z.to_nat i := if negb (empty line) then colorized ColorizeLine ld line else line]>
    (colorized_lines ld lo i lines)
  = colorized_lines ld lo (i + 1) lines.
Proof.
  intros Hlo Hi Hl. unfold colorized_between. apply list_eq. intros j.
  destruct (decide (j = Z.to_nat i)) as [->|Hne].
  - rewrite list_lookup_insert_eq
      by (rewrite length_imap; eapply lookup_lt_Some; exact Hl).
    rewrite list_lookup_imap, Hl. simpl. rewrite Z2Nat.id by lia.
    replace ((lo <=? i) && (i <? i + 1)) with true by lia.
    reflexivity.
  - rewrite list_lookup_insert_ne by congruence.
    rewrite !list_lookup_imap. destruct (lines !! j); simpl; [|reflexivity].
    replace (Z.of_nat j <? i + 1) with (Z.of_nat j <? i) by lia.
    reflexivity.
Qed.

Lemma colorized_between_lookup_self ld lo (i : Z) lines :
  0 <= i ->
  colorized_lines ld lo i lines !! Z.to_nat i = lines !! Z.to_nat i.
Proof.
  intros Hi. unfold colorized_between. rewrite list_lookup_imap.
  destruct (lines !! Z.to_nat i); simpl; [|reflexivity].
  rewrite Z2Nat.id by lia. rewrite Z.ltb_irrefl, andb_false_r. reflexivity.
Qed.

Hypothesis ColorizeLine_returns : forall ld line, is_Ok (ColorizeLine ld line).

(** [ColorizeRange] runs the token pass on the lines of its range that are
    not empty, and on no other line. *)
Lemma ColorizeRange_lines (ed : TextEditor) (aFromLine aToLine : Z) :
  0 <= aFromLine ->
  ColorizeRange ColorizeLine ed aFromLine aToLine
  = Ok (set_mLines
          (colorized_lines (mLanguageDefinition ed) aFromLine aToLine (mLines ed)) ed).
Proof.
  intros H0. unfold ColorizeRange.
  destruct (empty (mLines ed)) eqn:Hempty; simpl.
  { destruct ed as [lines ? ? ? ? ? ? ? ? ? ? ? ? ? ?]. simpl in *.
    destruct lines; [reflexivity|discriminate]. }
  destruct (aFromLine >=? aToLine) eqn:Hge.
  { rewrite colorized_between_nil by lia. destruct ed; reflexivity. }
  set (endLine := Z.max 0 (Z.min (size (mLines ed)) aToLine)).
  set (ld := mLanguageDefinition ed).
  set (Inv := fun s : TextEditor * Z =>
         aFromLine <= snd s /\ (snd s <= endLine \/ snd s = aFromLine) /\
         fst s = set_mLines (colorized_lines ld aFromLine (snd s) (mLines ed)) ed).
  set (cond := λ '(ed, i), i <? endLine : bool).
  set (body := λ '(ed0, i),
                  line ← at_ (mLines ed0) i;
                  if empty line then Ok (ed0, i + 1)
                  else
                    line ← ColorizeLine (mLanguageDefinition ed0) line;
                    lines ← set_at (mLines ed0) i line;
                    Ok (set_mLines lines ed0, i + 1)).
  assert (Hbody : forall s, Inv s -> cond s = true ->
            exists s', body s = Ok s' /\ Inv s' /\
              (Z.to_nat (endLine - snd s') < Z.to_nat (endLine - snd s))%nat).
  { intros [ed0 i] (Hlo & Hhi & Hed) Hc. simpl in Hlo, Hhi, Hed, Hc. subst ed0.
    assert (Hi : 0 <= i < size (mLines ed)) by (unfold endLine in Hc; lia).
    destruct (lookup_lt_is_Some_2 (mLines ed) (Z.to_nat i)) as [line Hl].
    { unfold size in Hi. lia. }
    unfold body. cbn [mLines set_mLines mLanguageDefinition].
    assert (Hat : at_ (colorized_lines ld aFromLine i (mLines ed)) i = Ok line).
    { apply at_Ok. split; [lia|]. rewrite colorized_between_lookup_self by lia. exact Hl. }
    rewrite Hat. simpl.
    pose proof (colorized_between_step ld aFromLine i (mLines ed) line Hlo
                  ltac:(lia) Hl) as Hstep.
    destruct (empty line) eqn:Hline; simpl in Hstep.
    + eexists. split; [reflexivity|]. split; [|simpl; lia].
      split; [simpl; lia|]. split; [simpl; lia|]. simpl.
      rewrite <- Hstep. rewrite list_insert_id; [reflexivity|].
      rewrite colorized_between_lookup_self by lia. exact Hl.
    + pose proof (ColorizeLine_returns ld line) as HOk.
      unfold colorized in Hstep. fold ld.
      destruct (ColorizeLine ld line) as [line'|e]; [|contradiction]. simpl.
      rewrite set_at_Ok by (rewrite size_colorized_between; lia). simpl.
      eexists. split; [reflexivity|]. split; [|simpl; lia].
      split; [simpl; lia|]. split; [simpl; lia|]. simpl.
      rewrite Hstep. reflexivity. }
  assert (Hinit : Inv (ed, aFromLine)).
  { split; [simpl; lia|]. split; [right; reflexivity|]. simpl.
    rewrite colorized_between_nil by lia. destruct ed; reflexivity. }
  destruct (while_terminates cond body Inv (λ s, Z.to_nat (endLine - snd s)) Hbody
              (Z.to_nat (endLine - aFromLine)) (ed, aFromLine) Hinit ltac:(simpl; lia))
    as ([ed1 i] & Hr & (Hlo & Hhi & Hed) & Hstop).
  fold cond body. rewrite Hr. simpl in Hlo, Hhi, Hed, Hstop. simpl.
  subst ed1. f_equal. f_equal.
  assert (Hi : i = endLine \/ (endLine <= aFromLine /\ i = aFromLine)) by lia.
  destruct Hi as [->|[Hle ->]].
  + apply colorized_between_clamp.
  + rewrite colorized_between_nil by lia.
    rewrite <- colorized_between_clamp. fold endLine.
    rewrite colorized_between_nil by lia. reflexivity.
Qed.

Hypothesis CommentSweep_returns : forall ld lines, is_Ok (CommentSweep ld lines).

(** C2 (amended): in a buffer that is not empty, with the colorizer enabled,
    a step of the colorizer on a dirty window [0 <= mColorRangeMin <
    mColorRangeMax] runs the token pass on a batch of exactly [min(increment,
    remaining)] line indices from [mColorRangeMin] on, where [increment] is 10
    when the language has no custom tokenizer (regular expressions only) and
    10000 when it has one; the step returns (the two passes over the glyphs
    returning), [mColorRangeMin] advances to the end of the batch, and when
    the window closes the range is reset to the empty interval [(10000, 0)]. *)
Theorem ColorizeInternal_batch (ed : TextEditor) :
  empty (mLines ed) = false ->
  mColorizerEnabled ed = true ->
  0 <= mColorRangeMin ed < mColorRangeMax ed ->
  let increment :=
    match mTokenize (mLanguageDefinition ed) with None => 10 | Some _ => 10000 end in
  let remaining := mColorRangeMax ed - mColorRangeMin ed in
  let to := mColorRangeMin ed + Z.min increment remaining in
  exists ed',
    ColorizeInternal CommentSweep ColorizeLine ed = Ok ed' /\
    mLines ed' =
      colorized_lines (mLanguageDefinition ed) (mColorRangeMin ed) to (swept CommentSweep ed) /\
    (mColorRangeMin ed', mColorRangeMax ed') =
      (if to =? mColorRangeMax ed then (10000, 0) else (to, mColorRangeMax ed)).
Proof.
  intros Hempty Hen Hrange increment remaining to.
  unfold ColorizeInternal. rewrite Hempty, Hen. simpl.
  set (ed1 := if mCheckComments ed
              then set_mCheckComments false (set_mLines (swept CommentSweep ed) ed) else ed).
  assert (H1 : (if mCheckComments ed
                then lines ← CommentSweep (mLanguageDefinition ed) (mLines ed);
                     Ok (set_mCheckComments false (set_mLines lines ed))
                else Ok ed) = Ok ed1).
  { unfold ed1, swept. destruct (mCheckComments ed); [|reflexivity].
    pose proof (CommentSweep_returns (mLanguageDefinition ed) (mLines ed)) as HOk.
    destruct (CommentSweep (mLanguageDefinition ed) (mLines ed)); [reflexivity|].
    contradiction. }
  rewrite H1. simpl.
  assert (Hfields : mColorRangeMin ed1 = mColorRangeMin ed /\
                    mColorRangeMax ed1 = mColorRangeMax ed /\
                    mLanguageDefinition ed1 = mLanguageDefinition ed /\
                    mLines ed1 = swept CommentSweep ed).
  { unfold ed1, swept. destruct (mCheckComments ed); repeat split; reflexivity. }
  destruct Hfields as (Hmin & Hmax & Hld & Hlines).
  rewrite Hmin, Hmax, Hld.
  replace (mColorRangeMin ed <? mColorRangeMax ed) with true by lia.
  fold increment.
  replace (Z.min (mColorRangeMin ed + increment) (mColorRangeMax ed)) with to
    by (unfold to, remaining; lia).
  rewrite ColorizeRange_lines by lia. simpl. rewrite Hmax, Hld, Hlines.
  rewrite (Z.eqb_sym (mColorRangeMax ed) to).
  destruct (to =? mColorRangeMax ed); eexists; repeat split; reflexivity.
Qed.

End ColorizerFacts.

(** C2, as stated, fails both ways.  With Lua, which has no custom tokenizer,
    a step on a window of 50 dirty lines colors 10 lines (the statement
    says 50) and leaves the window at [10, 50); with the C++ definition,
    which has a tokenizer, it colors the 50 lines (the statement says 10) and
    closes the window. *)
Lemma ColorizeInternal_batch_counterexample :
  (ed ← ColorizeInternal sweep_nothing paint_keyword (fifty_lines Lua);
   Ok (length (filter (λ l, painted l = true) (mLines ed)),
       mColorRangeMin ed, mColorRangeMax ed))
  = Ok (10%nat, 10, 50) /\
  (ed ← ColorizeInternal sweep_nothing paint_keyword
          (fifty_lines (CPlusPlus (λ _, None)));
   Ok (length (filter (λ l, painted l = true) (mLines ed)),
       mColorRangeMin ed, mColorRangeMax ed))
  = Ok (50%nat, 10000, 0).
Proof. split; vm_compute; reflexivity. Qed.

Lemma ColorizeInternal_batch_witness :
  exists ed',
    ColorizeInternal sweep_nothing paint_keyword (fifty_lines Lua) = Ok ed' /\
    mLines ed' =
      colorized_between paint_keyword Lua 0 10
        (swept sweep_nothing (fifty_lines Lua)) /\
    (mColorRangeMin ed', mColorRangeMax ed') = (10, 50).
Proof.
  apply (ColorizeInternal_batch sweep_nothing paint_keyword
           (λ _ _, I) (λ _ _, I) (fifty_lines Lua)).
  - reflexivity.
  - reflexivity.
  - vm_compute. split; [discriminate | reflexivity].
Defined.

(** ** Side tables *)

(** C6 (the code at the failing input): in a buffer of five lines with error
    markers and breakpoints on the lines 3 and 4, [RemoveLine(1, 3)] removes
    the two lines 1 and 2.  The lines 3 and 4 survive as the lines 1 and 2,
    but the breakpoint of line 3 is dropped and the one of line 4 moves down
    by one to 3, and both error markers are dropped. *)
Theorem RemoveLines_side_tables :
  (ed ← RemoveLines five_lines 1 3;
   Ok (GetTextLines ed, mErrorMarkers ed, elements (mBreakpoints ed)))
  = Ok (["a"; "d"; "e"]%string, [], [3]).
Proof. vm_compute. reflexivity. Qed.

(** Inserting a line moves the breakpoints at or after the index up by one. *)
Lemma InsertLine_breakpoints (ed ed' : TextEditor) (aIndex : Z) :
  InsertLine ed aIndex = Ok ed' ->
  forall i, i ∈ mBreakpoints ed' <->
    exists j, j ∈ mBreakpoints ed /\ i = if j >=? aIndex then j + 1 else j.
Proof.
  unfold InsertLine. intros H.
  apply bind_Ok in H as (_ & _ & H). apply bind_Ok in H as (lines & _ & H).
  injection H as <-. simpl. intros i. unfold set_fold. simpl.
  setoid_rewrite <- elem_of_elements at 2.
  induction (elements (mBreakpoints ed)) as [|x xs IH]; simpl.
  - split; [set_solver|]. intros (j & Hj & _). inversion Hj.
  - rewrite elem_of_union, elem_of_singleton, IH. split.
    + intros [->|(j & Hj & ->)]; [exists x|exists j]; split; auto; constructor; auto.
    + intros (j & Hj & ->). apply elem_of_cons in Hj as [->|Hj]; eauto.
Qed.

(** Removing a range of lines drops the breakpoints from [aStart] to [aEnd],
    the end included, and moves the breakpoints after them down by one. *)
Lemma RemoveLines_breakpoints (ed ed' : TextEditor) (aStart aEnd : Z) :
  RemoveLines ed aStart aEnd = Ok ed' ->
  forall i, i ∈ mBreakpoints ed' <->
    exists j, j ∈ mBreakpoints ed /\ ~ aStart <= j <= aEnd /\
              i = if j >=? aStart then j - 1 else j.
Proof.
  unfold RemoveLines. intros H.
  repeat (apply bind_Ok in H as (? & _ & H)).
  injection H as <-. simpl. intros i. unfold set_fold. simpl.
  setoid_rewrite <- elem_of_elements at 2.
  induction (elements (mBreakpoints ed)) as [|b bs IH]; simpl.
  - split; [set_solver|]. intros (j & Hj & _). inversion Hj.
  - destruct ((b >=? aStart) && (b <=? aEnd)) eqn:Hx.
    + rewrite IH. split.
      * intros (j & Hj & Hn & ->). exists j. repeat split; auto. constructor; auto.
      * intros (j & Hj & Hn & ->). apply elem_of_cons in Hj as [->|Hj]; [lia|eauto].
    + rewrite elem_of_union, elem_of_singleton, IH. split.
      * intros [->|(j & Hj & Hn & ->)]; [exists b|exists j];
          repeat split; auto; try lia; constructor; auto.
      * intros (j & Hj & Hn & ->). apply elem_of_cons in Hj as [->|Hj]; eauto.
Qed.

(** ** Comment toggling and the undo log at concrete documents *)

(** C4 (the code at the failing input): the editor is constructed with the
    Lua definition, whose single-line comment prefix is [--]; toggling the
    comment of the line [abc] inserts [//], and toggling the Lua comment
    [--abc] does not uncomment it. *)
Theorem ToggleComment_Lua_inserts_slashes :
  mSingleLineComment (mLanguageDefinition abc) = "--"%string /\
  (ed ← ToggleComment abc false; Ok (GetTextLines ed)) = Ok ["//abc"%string] /\
  (ed ← ToggleComment (SetText TextEditor_new "--abc") false; Ok (GetTextLines ed))
  = Ok ["//--abc"%string].
Proof. repeat split; vm_compute; reflexivity. Qed.

(** C1 (the code at the failing input): after the line-mode comment toggle
    of the document [abc], one [Undo] restores the editor state but leaves
    the line empty: the record of the toggle holds the text after the edit
    and no removed text.  The block-mode toggle without a selection inserts
    the five bytes of [/* */] and records a range of four columns, so that
    its [Undo] leaves a [/] behind. *)
Theorem Undo_after_ToggleComment_loses_text :
  (ed ← ToggleComment abc false; Ok (GetTextLines ed)) = Ok ["//abc"%string] /\
  (ed ← ToggleComment abc false; ed ← Undo ed 1; Ok (GetTextLines ed, mState ed))
  = Ok ([EmptyString], mState abc) /\
  (ed ← ToggleComment abc true; Ok (GetTextLines ed)) = Ok ["/* */abc"%string] /\
  (ed ← ToggleComment abc true; ed ← Undo ed 1; Ok (GetTextLines ed, mState ed))
  = Ok (["/abc"%string], mState abc).
Proof. repeat split; vm_compute; reflexivity. Qed.

Lemma SetTabSize_zero_divides_by_zero_witness :
  mTabSize (SetTabSize tab_line 0) = 0 /\
  GetLineMaxColumn (SetTabSize tab_line 0) 0 = Fault DivisionByZero /\
  GetCharacterIndex (SetTabSize tab_line 0) (mkCoordinates 0 1) = Fault DivisionByZero /\
  GetCharacterColumn (SetTabSize tab_line 0) 0 1 = Fault DivisionByZero.
Proof.
  apply (SetTabSize_zero_divides_by_zero tab_line 0
           (Glyph_new TAB PaletteIndex.Default)
           [Glyph_new "x"%char PaletteIndex.Default]).
  - lia.
  - reflexivity.
  - reflexivity.
Defined.

(** ** Index and column *)

Section Walk.

Variable ed : TextEditor.
Variable line : Line.
Hypothesis tab_size_positive : 0 < mTabSize ed.

Lemma walk_body_inv (c i c' i' : Z) :
  0 <= c -> walk_body ed line (c, i) = Ok (c', i') -> c < c' /\ i < i'.
Proof.
  intros Hc H. unfold walk_body in H.
  apply bind_Ok in H as (g & _ & H). apply bind_Ok in H as (c1 & Hc1 & H).
  injection H as <- <-. pose proof (UTF8CharLength_pos (mChar g)).
  split; [|lia].
  destruct (char_eqb (mChar g) TAB).
  - rewrite tab_stop_Ok in Hc1 by lia. injection Hc1 as <-.
    pose proof (Z.quot_rem' c (mTabSize ed)) as Hq.
    pose proof (Z.rem_bound_pos c (mTabSize ed) Hc tab_size_positive) as Hr.
    set (q := Z.quot c (mTabSize ed)) in *. set (r := Z.rem c (mTabSize ed)) in *.
    clearbody q r. nia.
  - injection Hc1 as <-. lia.
Qed.

(** A walk ends at or after the column and the index where it starts. *)
Lemma walk_monotone (cond : Z * Z -> bool) (fuel : nat) (c i c' i' : Z) :
  0 <= c ->
  while fuel cond (walk_body ed line) (c, i) = Ok (c', i') ->
  c <= c' /\ i <= i'.
Proof.
  intros Hc H.
  apply (while_invariant cond (walk_body ed line)
           (λ s, c <= fst s /\ i <= snd s)) in H.
  - destruct H as [H _]. exact H.
  - intros [c1 i1] [c2 i2] [H1 H2] _ Hb. simpl in *.
    apply walk_body_inv in Hb; lia.
  - simpl. lia.
Qed.

(** The walk to an index ends at a column and an index from which the walk
    to that column and the walk to that index end at the same place. *)
Lemma walk_to_index_fixpoint (k : Z) :
  forall (fuel : nat) (c i col i1 : Z),
    0 <= c ->
    while fuel (λ '(col, i), (i <? k) && (i <? size line))
          (walk_body ed line) (c, i) = Ok (col, i1) ->
    while fuel (λ '(c, i), (i <? size line) && (c <? col))
          (walk_body ed line) (c, i) = Ok (col, i1) /\
    while fuel (λ '(col, i), (i <? i1) && (i <? size line))
          (walk_body ed line) (c, i) = Ok (col, i1).
Proof.
  induction fuel as [|fuel IH]; intros c i col i1 Hc H;
    rewrite while_unfold in H; rewrite !while_unfold;
    destruct ((i <? k) && (i <? size line)) eqn:Hcond; try discriminate.
  - injection H as <- <-. rewrite !Z.ltb_irrefl, andb_false_r. simpl. auto.
  - apply bind_Ok in H as ([c' i'] & Hb & H).
    pose proof (walk_body_inv _ _ _ _ Hc Hb) as [Hcc Hii].
    assert (Hc' : 0 <= c') by lia.
    pose proof (walk_monotone _ _ _ _ _ _ Hc' H) as [Hcol Hi1].
    destruct (IH c' i' col i1 Hc' H) as [IH1 IH2].
    replace ((i <? size line) && (c <? col)) with true by lia.
    replace ((i <? i1) && (i <? size line)) with true by lia.
    rewrite Hb. simpl. auto.
  - injection H as <- <-. rewrite !Z.ltb_irrefl, andb_false_r. simpl. auto.
Qed.

End Walk.

(** C9, as stated, fails inside of a tab: in the line of a tab and an [x],
    with the tab size 4 of the constructor, the coordinate (0, 2) is valid
    (sanitization leaves it as it is), its character index is 1, and the
    column of the index 1 is 4. *)
Lemma GetCharacterColumn_inside_tab_counterexample :
  SanitizeCoordinates tab_line inside_tab = Ok inside_tab /\
  GetCharacterIndex tab_line inside_tab = Ok 1 /\
  GetCharacterColumn tab_line (mLine inside_tab) 1 = Ok 4 /\
  (i ← GetCharacterIndex tab_line inside_tab;
   GetCharacterColumn tab_line (mLine inside_tab) i) <> Ok (mColumn inside_tab).
Proof. repeat split; try (vm_compute; reflexivity). vm_compute. discriminate. Qed.

(** C9 (amended): for a tab size of 1 or more, every line and every
    coordinate [c] whose column is the display column of a character index of
    its line ([c.column = characterColumn(line, k)] for some index [k]; a
    column inside of the span of a tab is not one), the column of the
    character index of [c] is [c.column]. *)
Theorem GetCharacterColumn_of_GetCharacterIndex
    (ed : TextEditor) (c : Coordinates) (k : Z) :
  0 < mTabSize ed ->
  GetCharacterColumn ed (mLine c) k = Ok (mColumn c) ->
  (i ← GetCharacterIndex ed c; GetCharacterColumn ed (mLine c) i) = Ok (mColumn c).
Proof.
  intros Ht H.
  destruct (ge_size (mLine c) (mLines ed)) eqn:Hge.
  - unfold GetCharacterIndex, GetCharacterColumn in *. rewrite Hge in *.
    simpl. exact H.
  - destruct (at_ (mLines ed) (mLine c)) as [line|e] eqn:Hline.
    2:{ unfold GetCharacterColumn in H. rewrite Hge, Hline in H. discriminate. }
    assert (EC : forall k, GetCharacterColumn ed (mLine c) k =
              r ← while (length line)
                    (fun s : Z * Z => let '(col, i) := s in (i <? k) && (i <? size line))
                    (walk_body ed line) (0, 0);
              Ok (fst r)).
    { intros k'. unfold GetCharacterColumn. rewrite Hge, Hline. simpl.
      match goal with |- ?w ≫= _ = ?w' ≫= _ =>
        change w with w'; destruct w' as [[? ?]|]; reflexivity end. }
    assert (EI : GetCharacterIndex ed c =
              r ← while (length line)
                    (fun s : Z * Z =>
                       let '(c0, i) := s in (i <? size line) && (c0 <? mColumn c))
                    (walk_body ed line) (0, 0);
              Ok (snd r)).
    { unfold GetCharacterIndex. rewrite Hge, Hline. simpl.
      match goal with |- ?w ≫= _ = ?w' ≫= _ =>
        change w with w'; destruct w' as [[? ?]|]; reflexivity end. }
    rewrite EC in H. apply bind_Ok in H as ([col i1] & Hw & H).
    injection H as H. simpl in H. subst col.
    apply walk_to_index_fixpoint in Hw as [H1 H2]; [|exact Ht|lia].
    rewrite EI, H1. simpl. rewrite EC, H2. reflexivity.
Qed.

Lemma GetCharacterColumn_of_GetCharacterIndex_witness :
  (i ← GetCharacterIndex tab_line (mkCoordinates 0 4);
   GetCharacterColumn tab_line 0 i) = Ok 4.
Proof.
  apply (GetCharacterColumn_of_GetCharacterIndex tab_line (mkCoordinates 0 4) 1).
  - vm_compute. reflexivity.
  - vm_compute. reflexivity.
Defined.

(** ** The buffer is never empty *)

Local Abbreviation nonempty ed := (mLines ed <> []).

Create HintDb buffer.

Ltac inv_Ok :=
  repeat match goal with
  | H : Fault _ = Ok _ |- _ => discriminate H
  | H : Ok _ = Ok _ |- _ => injection H as H
  | H : (_, _) = (_, _) |- _ => injection H as ? H
  | H : Some _ = Some _ |- _ => injection H as H
  | H : None = Some _ |- _ => discriminate H
  | H : Some _ = None |- _ => discriminate H
  | H : mbind _ _ = Ok _ |- _ => apply bind_Ok in H as (? & ? & H)
  | H : (if ?b then _ else _) = Ok _ |- _ => destruct b eqn:?
  | H : (let '(_, _) := ?p in _) = Ok _ |- _ => destruct p
  | H : match ?x with _ => _ end = Ok _ |- _ => destruct x eqn:?
  end.

Lemma set_at_nonempty {A} (v v' : list A) (i : Z) (x : A) :
  set_at v i x = Ok v' -> v' <> [].
Proof.
  intros H. apply set_at_inv in H as [Hi ->]. intros Hnil.
  apply (f_equal length) in Hnil. rewrite length_insert in Hnil.
  unfold size in Hi. simpl in Hnil. lia.
Qed.

#[local] Hint Resolve set_at_nonempty : buffer.

Lemma empty_false {A} (v : list A) : empty v = false <-> v <> [].
Proof. destruct v; simpl; split; congruence. Qed.

Lemma InsertLine_nonempty ed aIndex ed' :
  InsertLine ed aIndex = Ok ed' -> nonempty ed'.
Proof.
  unfold InsertLine, insert_at, insert_range. intros H. inv_Ok.
  subst. simpl. intros Hnil. apply (f_equal length) in Hnil.
  rewrite length_app in Hnil. simpl in Hnil. lia.
Qed.

Lemma RemoveLine_nonempty ed aIndex ed' :
  RemoveLine ed aIndex = Ok ed' -> nonempty ed'.
Proof.
  unfold RemoveLine. intros H. inv_Ok. subst. simpl.
  match goal with H : assert (negb (empty ?l)) = Ok _ |- ?l <> [] =>
    apply empty_false; destruct (empty l); [discriminate H|reflexivity] end.
Qed.

Lemma RemoveLines_nonempty ed aStart aEnd ed' :
  RemoveLines ed aStart aEnd = Ok ed' -> nonempty ed'.
Proof.
  unfold RemoveLines. intros H. inv_Ok. subst. simpl.
  match goal with H : assert (negb (empty ?l)) = Ok _ |- ?l <> [] =>
    apply empty_false; destruct (empty l); [discriminate H|reflexivity] end.
Qed.

#[local] Hint Resolve InsertLine_nonempty RemoveLine_nonempty RemoveLines_nonempty : buffer.

Lemma mLines_SetCursorPosition ed aPosition :
  mLines (SetCursorPosition ed aPosition) = mLines ed.
Proof. unfold SetCursorPosition. destruct (negb _); reflexivity. Qed.

Lemma mLines_Colorize ed aFromLine aLines :
  mLines (Colorize ed aFromLine aLines) = mLines ed.
Proof. reflexivity. Qed.

#[local] Hint Extern 1 (mLines (SetCursorPosition _ _) <> []) =>
  rewrite mLines_SetCursorPosition : buffer.
#[local] Hint Extern 2 (mLines _ <> []) => progress simpl : buffer.

Lemma SetSelection_ref_lines ed aStart aEnd ed' :
  SetSelection_ref ed aStart aEnd = Ok ed' -> mLines ed' = mLines ed.
Proof. unfold SetSelection_ref. intros H. inv_Ok; subst; reflexivity. Qed.

Lemma AddUndo_lines ed u ed' : AddUndo ed u = Ok ed' -> mLines ed' = mLines ed.
Proof. unfold AddUndo. intros H. inv_Ok; subst; reflexivity. Qed.

Lemma DeleteRange_nonempty ed aStart aEnd ed' :
  DeleteRange ed aStart aEnd = Ok ed' -> nonempty ed -> nonempty ed'.
Proof.
  unfold DeleteRange. intros H Hne. inv_Ok; subst; simpl; eauto with buffer.
Qed.

Lemma InsertTextAt_nonempty ed aWhere aValue ed' aWhere' n :
  InsertTextAt ed aWhere aValue = Ok (ed', aWhere', n) -> nonempty ed -> nonempty ed'.
Proof.
  unfold InsertTextAt. intros H Hne. inv_Ok.
  match goal with Hw : while _ _ _ _ = Ok _ |- _ =>
    apply (while_keeps
             (λ s : TextEditor * Coordinates * string * Z * Z,
                nonempty (fst (fst (fst (fst s)))))) in Hw;
      [subst; exact Hw | exact Hne |] end.
  intros [[[[ed0 w0] v0] c0] t0] [[[[ed1 w1] v1] c1] t1] Hinv _ Hb.
  simpl in *. inv_Ok; subst; simpl; eauto with buffer.
Qed.

#[local] Hint Resolve DeleteRange_nonempty InsertTextAt_nonempty : buffer.

Lemma SetSelection_ref_nonempty ed aStart aEnd ed' :
  SetSelection_ref ed aStart aEnd = Ok ed' -> nonempty ed -> nonempty ed'.
Proof. intros H Hne. apply SetSelection_ref_lines in H. congruence. Qed.

Lemma AddUndo_nonempty ed u ed' :
  AddUndo ed u = Ok ed' -> nonempty ed -> nonempty ed'.
Proof. intros H Hne. apply AddUndo_lines in H. congruence. Qed.

#[local] Hint Resolve SetSelection_ref_nonempty AddUndo_nonempty : buffer.

Lemma DeleteSelection_nonempty ed ed' :
  DeleteSelection ed = Ok ed' -> nonempty ed -> nonempty ed'.
Proof.
  unfold DeleteSelection. intros H Hne. inv_Ok; subst; simpl; eauto 10 with buffer.
Qed.

Lemma InsertText_nonempty ed aValue ed' :
  InsertText ed aValue = Ok ed' -> nonempty ed -> nonempty ed'.
Proof.
  unfold InsertText, SetSelection. intros H Hne. inv_Ok; subst; simpl;
    eauto 10 with buffer.
Qed.

#[local] Hint Resolve DeleteSelection_nonempty InsertText_nonempty : buffer.

Lemma UndoRecord_Undo_nonempty u ed ed' :
  UndoRecord_Undo u ed = Ok ed' -> nonempty ed -> nonempty ed'.
Proof.
  unfold UndoRecord_Undo. intros H Hne. inv_Ok; subst; simpl; eauto with buffer.
Qed.

Lemma UndoRecord_Redo_nonempty u ed ed' :
  UndoRecord_Redo u ed = Ok ed' -> nonempty ed -> nonempty ed'.
Proof.
  unfold UndoRecord_Redo. intros H Hne. inv_Ok; subst; simpl; eauto with buffer.
Qed.

#[local] Hint Resolve UndoRecord_Undo_nonempty UndoRecord_Redo_nonempty : buffer.

Lemma Undo_nonempty ed aSteps ed' :
  Undo ed aSteps = Ok ed' -> nonempty ed -> nonempty ed'.
Proof.
  unfold Undo. intros H Hne. inv_Ok.
  match goal with Hw : while _ _ _ _ = Ok _ |- _ =>
    apply (while_keeps (λ s : TextEditor * Z, nonempty (fst s))) in Hw;
      [subst; exact Hw | exact Hne |] end.
  intros [ed0 n0] [ed1 n1] Hinv _ Hb. simpl in *.
  inv_Ok; subst; simpl; eauto with buffer.
Qed.

Lemma Redo_nonempty ed aSteps ed' :
  Redo ed aSteps = Ok ed' -> nonempty ed -> nonempty ed'.
Proof.
  unfold Redo. intros H Hne. inv_Ok.
  match goal with Hw : while _ _ _ _ = Ok _ |- _ =>
    apply (while_keeps (λ s : TextEditor * Z, nonempty (fst s))) in Hw;
      [subst; exact Hw | exact Hne |] end.
  intros [ed0 n0] [ed1 n1] Hinv _ Hb. simpl in *.
  inv_Ok; subst; simpl; eauto with buffer.
Qed.

Lemma ToggleComment_nonempty ed shift ed' :
  ToggleComment ed shift = Ok ed' -> nonempty ed -> nonempty ed'.
Proof.
  unfold ToggleComment, ToggleComment_block, ToggleComment_line,
    ToggleComment_verify, ToggleComment_apply, ToggleComment_record.
  intros H Hne. inv_Ok; subst; simpl; eauto 10 with buffer.
  all: match goal with Hw : while _ _ _ (_, _, false) = Ok _ |- _ =>
    apply (while_keeps (λ s : TextEditor * Z * bool, nonempty (fst (fst s)))) in Hw;
      [ | exact Hne
        | intros [[ed0 i0] b0] [[ed1 i1] b1] Hinv _ Hb; simpl in *;
          inv_Ok; subst; simpl; eauto with buffer ] end.
  all: simpl in *; eauto with buffer.
Qed.

Lemma Delete_nonempty ed ed' :
  Delete ed = Ok ed' -> nonempty ed -> nonempty ed'.
Proof.
  unfold Delete. intros H Hne. inv_Ok; subst; simpl; eauto 10 with buffer.
Qed.

Lemma Backspace_nonempty ed ed' :
  Backspace ed = Ok ed' -> nonempty ed -> nonempty ed'.
Proof.
  unfold Backspace. intros H Hne. inv_Ok; subst; simpl; eauto 10 with buffer.
Qed.

Lemma Cut_nonempty ed ed' :
  Cut ed = Ok ed' -> nonempty ed -> nonempty ed'.
Proof.
  unfold Cut. intros H Hne. inv_Ok; subst; simpl; eauto 10 with buffer.
Qed.

Lemma Paste_nonempty ed clipText ed' :
  Paste ed clipText = Ok ed' -> nonempty ed -> nonempty ed'.
Proof.
  unfold Paste. intros H Hne. inv_Ok; subst; simpl; eauto 10 with buffer.
Qed.

Lemma EnterCharacter_tab_nonempty ed u aShift ed' :
  EnterCharacter_tab ed u aShift = Ok ed' -> nonempty ed -> nonempty ed'.
Proof.
  unfold EnterCharacter_tab. intros H Hne.
  repeat match goal with
  | H : context [let '(_, _) := ?p in _] |- _ => destruct p eqn:?
  end.
  inv_Ok; subst; simpl; eauto 10 with buffer.
  all: match goal with Hw : while _ _ _ (_, _, false) = Ok _ |- _ =>
    apply (while_keeps (λ s : TextEditor * Z * bool, nonempty (fst (fst s)))) in Hw;
      [ | exact Hne
        | intros [[ed0 i0] b0] [[ed1 i1] b1] Hinv _ Hb; simpl in *;
          inv_Ok; subst; simpl; eauto with buffer ] end.
  all: simpl in *; eauto 10 with buffer.
Qed.

#[local] Hint Resolve EnterCharacter_tab_nonempty : buffer.

Lemma EnterCharacter_nonempty ed aChar aShift ed' :
  EnterCharacter ed aChar aShift = Ok ed' -> nonempty ed -> nonempty ed'.
Proof.
  unfold EnterCharacter. intros H Hne. inv_Ok; subst; simpl; eauto 10 with buffer.
Qed.

Lemma SetText_loop_nonempty aText lines :
  lines <> [] -> SetText_loop aText lines <> [].
Proof.
  revert lines. induction aText as [|chr aText IH]; intros lines Hne; simpl; [exact Hne|].
  destruct (char_eqb chr CR); [auto|].
  destruct (char_eqb chr NEWLINE); apply IH.
  - destruct lines; discriminate.
  - intros Hnil. apply (f_equal length) in Hnil. rewrite length_alter in Hnil.
    destruct lines; [congruence|discriminate].
Qed.

Lemma SetText_nonempty ed aText : nonempty (SetText ed aText).
Proof. unfold SetText. simpl. apply SetText_loop_nonempty. discriminate. Qed.

Lemma SetTextLines_nonempty ed aLines : nonempty (SetTextLines ed aLines).
Proof. unfold SetTextLines. simpl. destruct aLines; simpl; discriminate. Qed.

(** Every operation that returns keeps a buffer with at least one line. *)
Lemma perform_nonempty op ed ed' :
  perform op ed = Ok ed' -> nonempty ed -> nonempty ed'.
Proof.
  destruct op; simpl; intros H Hne; inv_Ok; subst;
    eauto using SetText_nonempty, SetTextLines_nonempty, InsertText_nonempty,
      EnterCharacter_nonempty, Delete_nonempty, Backspace_nonempty,
      DeleteSelection_nonempty, Cut_nonempty, Paste_nonempty,
      ToggleComment_nonempty, Undo_nonempty, Redo_nonempty, InsertLine_nonempty,
      RemoveLine_nonempty, RemoveLines_nonempty, DeleteRange_nonempty,
      InsertTextAt_nonempty, SetSelection_ref_nonempty.
  rewrite mLines_SetCursorPosition. exact Hne.
Qed.

Lemma perform_all_nonempty ops :
  forall ed ed', perform_all ops ed = Ok ed' -> nonempty ed -> nonempty ed'.
Proof.
  induction ops as [|op ops IH]; simpl; intros ed ed' H Hne.
  - injection H as <-. exact Hne.
  - apply bind_Ok in H as (ed1 & H1 & H). eapply IH; [exact H|].
    eapply perform_nonempty; eassumption.
Qed.

Lemma TextEditor_new_lines : mLines TextEditor_new = [[]].
Proof. reflexivity. Qed.

Lemma size_pos_nonempty {A} (v : list A) : v <> [] <-> 1 <= size v.
Proof. unfold size. destruct v; simpl; split; try congruence; lia. Qed.

(** C7: from a buffer with at least one line (the buffer of the constructor
    is one empty line), every sequence of operations that returns leaves at
    least one line in the buffer; in the buffer that it leaves,
    [RemoveLine(int)] refuses to remove the only line of a buffer of one line
    and [RemoveLine(int, int)] refuses every range that is as long as the
    buffer (both fail their assertion before the buffer changes), and
    [SetText] of the empty string gives exactly one empty line. *)
Theorem buffer_never_empty (ops : list Operation) (ed ed' : TextEditor) :
  1 <= size (mLines ed) ->
  perform_all ops ed = Ok ed' ->
  1 <= size (mLines ed') /\
  (forall aIndex, size (mLines ed') = 1 ->
     RemoveLine ed' aIndex = Fault AssertionFailure) /\
  (forall aStart aEnd, size (mLines ed') <= aEnd - aStart ->
     ~ is_Ok (RemoveLines ed' aStart aEnd)) /\
  mLines (SetText ed' EmptyString) = [[]].
Proof.
  intros Hne H. split; [|split; [|split]].
  - apply size_pos_nonempty. eapply perform_all_nonempty; [exact H|].
    apply size_pos_nonempty. exact Hne.
  - intros aIndex Hone. unfold RemoveLine. rewrite Hone.
    destruct (mReadOnly ed'); reflexivity.
  - intros aStart aEnd Hlen HOk.
    destruct (RemoveLines ed' aStart aEnd) as [ed''|f] eqn:HR; [|exact HOk].
    pose proof (RemoveLines_nonempty _ _ _ _ HR) as Hne'.
    unfold RemoveLines, erase in HR. inv_Ok. subst. simpl in Hne'.
    apply Hne'. apply length_zero_iff_nil.
    rewrite length_app, length_take, length_drop. unfold size in *. lia.
  - reflexivity.
Qed.

Lemma buffer_never_empty_witness :
  1 <= size (mLines after_session) /\
  (forall aIndex, size (mLines after_session) = 1 ->
     RemoveLine after_session aIndex = Fault AssertionFailure) /\
  (forall aStart aEnd, size (mLines after_session) <= aEnd - aStart ->
     ~ is_Ok (RemoveLines after_session aStart aEnd)) /\
  mLines (SetText after_session EmptyString) = [[]].
Proof.
  apply (buffer_never_empty session TextEditor_new after_session).
  - vm_compute. discriminate.
  - vm_compute. reflexivity.
Defined.

(** ** Commenting a line and uncommenting it *)

Lemma first_non_space_range (line : Line) : 0 <= first_non_space line <= size line.
Proof.
  unfold size. induction line as [|g line IH]; simpl; [lia|].
  destruct (isspace (mChar g)); lia.
Qed.

Lemma isspace_SLASH : isspace SLASH = false.
Proof. reflexivity. Qed.

Lemma first_non_space_comment_line (line : Line) :
  first_non_space (comment_line line) = first_non_space line.
Proof.
  unfold comment_line. induction line as [|g line IH]; simpl; [reflexivity|].
  destruct (isspace (mChar g)) eqn:Hg.
  - pose proof (first_non_space_range line).
    replace (Z.to_nat (1 + first_non_space line))
      with (S (Z.to_nat (first_non_space line))) by lia.
    rewrite firstn_cons, skipn_cons, <- app_comm_cons.
    cbn [first_non_space]. rewrite Hg. f_equal. exact IH.
  - reflexivity.
Qed.

Lemma comment_line_lookup (line : Line) :
  let n := Z.to_nat (first_non_space line) in
  comment_line line !! n = Some (Glyph_new SLASH PaletteIndex.Comment) /\
  comment_line line !! S n = Some (Glyph_new SLASH PaletteIndex.Comment).
Proof.
  intros n. unfold comment_line. fold n.
  pose proof (first_non_space_range line) as Hr. unfold size in Hr.
  assert (Hlen : length (take n line) = n) by (rewrite length_take; lia).
  split.
  - rewrite lookup_app_r by lia. rewrite Hlen, Nat.sub_diag. reflexivity.
  - rewrite lookup_app_r by lia. rewrite Hlen.
    replace (S n - n)%nat with 1%nat by lia. reflexivity.
Qed.

Lemma size_comment_line (line : Line) : size (comment_line line) = size line + 2.
Proof.
  unfold size, comment_line. rewrite !length_app, length_take, length_drop.
  pose proof (first_non_space_range line) as Hr. unfold size in Hr. simpl. lia.
Qed.

Lemma slashes_at_comment_line (line : Line) :
  slashes_at (comment_line line) (first_non_space line) = true.
Proof.
  unfold slashes_at, char_is. pose proof (first_non_space_range line) as Hr.
  destruct (comment_line_lookup line) as [H1 H2].
  rewrite H1. replace (Z.to_nat (first_non_space line + 1))
    with (S (Z.to_nat (first_non_space line))) by lia.
  rewrite H2, size_comment_line. simpl.
  replace (first_non_space line + 1 <? size line + 2) with true by lia.
  reflexivity.
Qed.

Lemma comment_line_nonempty (line : Line) : empty (comment_line line) = false.
Proof.
  pose proof (size_comment_line line) as H. pose proof (size_nonneg line).
  destruct (comment_line line); [unfold size in H; simpl in H; lia|reflexivity].
Qed.

(** The two insertions of the loop give the commented line. *)
Lemma insert_slashes (line : Line) :
  let slash := Glyph_new SLASH PaletteIndex.Comment in
  (line1 ← insert_at line (first_non_space line) slash;
   insert_at line1 (first_non_space line + 1) slash) = Ok (comment_line line).
Proof.
  intros slash. pose proof (first_non_space_range line) as Hr.
  unfold insert_at, insert_range.
  replace ((0 <=? first_non_space line) && (first_non_space line <=? size line))
    with true by lia.
  simpl.
  set (n := Z.to_nat (first_non_space line)).
  assert (Hn : (n <= length line)%nat) by (unfold size in Hr; lia).
  assert (Hsz : size (take n line ++ slash :: drop n line) = size line + 1).
  { unfold size. rewrite length_app, length_take. simpl. rewrite length_drop. lia. }
  rewrite Hsz.
  replace ((0 <=? first_non_space line + 1) && (first_non_space line + 1 <=? size line + 1))
    with true by lia.
  f_equal. unfold comment_line. fold n. fold slash.
  replace (Z.to_nat (first_non_space line + 1)) with (S n) by lia.
  assert (Hlen : length (take n line) = n) by (rewrite length_take; lia).
  rewrite take_app_ge by lia. rewrite drop_app_ge by lia. rewrite Hlen.
  replace (S n - n)%nat with 1%nat by lia. simpl.
  rewrite take_0, drop_0. rewrite <- app_assoc. reflexivity.
Qed.

(** Erasing the two bytes of a commented line gives the line back. *)
Lemma erase_slashes (line : Line) :
  erase (comment_line line) (first_non_space line) (first_non_space line + 2) = Ok line.
Proof.
  pose proof (first_non_space_range line) as Hr. unfold erase.
  rewrite size_comment_line.
  replace ((0 <=? first_non_space line)
           && (first_non_space line <=? first_non_space line + 2)
           && (first_non_space line + 2 <=? size line + 2)) with true by lia.
  f_equal. unfold comment_line.
  set (n := Z.to_nat (first_non_space line)).
  assert (Hn : (n <= length line)%nat) by (unfold size in Hr; lia).
  assert (Hlen : length (take n line) = n) by (rewrite length_take; lia).
  replace (Z.to_nat (first_non_space line + 2)) with (S (S n)) by lia.
  rewrite take_app_le by lia. rewrite take_take, Nat.min_id.
  rewrite drop_app_ge by lia. rewrite Hlen.
  replace (S (S n) - n)%nat with 2%nat by lia. simpl. rewrite drop_0.
  apply take_drop.
Qed.

Lemma size_commented_between lo hi lines :
  size (commented_between lo hi lines) = size lines.
Proof. unfold size, commented_between. rewrite length_imap. reflexivity. Qed.

Lemma commented_between_lookup lo hi lines (j : nat) :
  commented_between lo hi lines !! j =
  (λ line, if (lo <=? Z.of_nat j) && (Z.of_nat j <=? hi) && negb (empty line)
           then comment_line line else line) <$> lines !! j.
Proof. unfold commented_between. apply list_lookup_imap. Qed.

Lemma commented_between_ext lo hi lo' hi' lines :
  (forall j, 0 <= j < size lines -> (lo <= j <= hi <-> lo' <= j <= hi')) ->
  commented_between lo hi lines = commented_between lo' hi' lines.
Proof.
  intros H. apply list_eq. intros j. rewrite !commented_between_lookup.
  destruct (lines !! j) as [line|] eqn:Hl; [|reflexivity]. simpl.
  apply lookup_lt_Some in Hl. specialize (H (Z.of_nat j)). unfold size in H.
  replace ((lo' <=? Z.of_nat j) && (Z.of_nat j <=? hi'))
    with ((lo <=? Z.of_nat j) && (Z.of_nat j <=? hi)); [reflexivity|].
  apply eq_true_iff_eq. rewrite !andb_true_iff, !Z.leb_le. apply H. lia.
Qed.

Lemma commented_between_none lo hi lines :
  (forall j, 0 <= j < size lines -> ~ lo <= j <= hi) ->
  commented_between lo hi lines = lines.
Proof.
  intros H. apply list_eq. intros j. rewrite commented_between_lookup.
  destruct (lines !! j) as [line|] eqn:Hl; [|reflexivity]. simpl.
  apply lookup_lt_Some in Hl. specialize (H (Z.of_nat j)). unfold size in H.
  replace ((lo <=? Z.of_nat j) && (Z.of_nat j <=? hi)) with false; [reflexivity|].
  symmetry. apply not_true_iff_false. rewrite andb_true_iff, !Z.leb_le. apply H. lia.
Qed.

(** The step of the loop that comments: the line [i] is replaced. *)
Lemma commented_between_comment_step lo (i : Z) lines line :
  lo <= i -> 0 <= i ->
  lines !! Z.to_nat i = Some line ->
  <[Z.to_nat i := if negb (empty line) then comment_line line else line]>
    (commented_between lo (i - 1) lines)
  = commented_between lo i lines.
Proof.
  intros Hlo Hi Hl. apply list_eq. intros j.
  destruct (decide (j = Z.to_nat i)) as [->|Hne].
  - rewrite list_lookup_insert_eq.
    2:{ pose proof (size_commented_between lo (i - 1) lines) as Hs.
        apply lookup_lt_Some in Hl. unfold size in Hs. lia. }
    rewrite commented_between_lookup, Hl. simpl. rewrite Z2Nat.id by lia.
    replace ((lo <=? i) && (i <=? i)) with true by lia. reflexivity.
  - rewrite list_lookup_insert_ne by congruence.
    rewrite !commented_between_lookup. destruct (lines !! j); simpl; [|reflexivity].
    replace (Z.of_nat j <=? i - 1) with (Z.of_nat j <=? i) by lia. reflexivity.
Qed.

(** The step of the loop that uncomments: the line [i] is put back. *)
Lemma commented_between_uncomment_step (i hi : Z) lines line :
  0 <= i ->
  lines !! Z.to_nat i = Some line ->
  <[Z.to_nat i := line]> (commented_between i hi lines)
  = commented_between (i + 1) hi lines.
Proof.
  intros Hi Hl. apply list_eq. intros j.
  destruct (decide (j = Z.to_nat i)) as [->|Hne].
  - rewrite list_lookup_insert_eq.
    2:{ pose proof (size_commented_between i hi lines) as Hs.
        apply lookup_lt_Some in Hl. unfold size in Hs. lia. }
    rewrite commented_between_lookup, Hl. simpl. rewrite Z2Nat.id by lia.
    replace (i + 1 <=? i) with false by lia. reflexivity.
  - rewrite list_lookup_insert_ne by congruence.
    rewrite !commented_between_lookup. destruct (lines !! j); simpl; [|reflexivity].
    replace (i + 1 <=? Z.of_nat j) with (i <=? Z.of_nat j) by lia. reflexivity.
Qed.

(** ** The loops of the line mode *)

Lemma ToggleComment_verify_spec (lines : list Line) (start_line end_line : Z) :
  0 <= start_line ->
  exists b, ToggleComment_verify lines start_line end_line = Ok b /\
            (b = true <-> span_commented lines start_line end_line).
Proof.
  intros H0. unfold ToggleComment_verify.
  set (cond := λ '(line_idx, uncomment_all),
         uncomment_all && (line_idx <=? end_line) && (line_idx <? size lines) : bool).
  set (body := λ '(line_idx, uncomment_all),
         line ← at_ lines line_idx;
         if empty line then Ok (line_idx + 1, uncomment_all)
         else
           let non_ws := first_non_space line in
           if negb (slashes_at line non_ws) then Ok (line_idx, false)
           else Ok (line_idx + 1, uncomment_all)).
  set (Inv := fun s : Z * bool =>
         start_line <= fst s /\
         if snd s
         then forall j line, start_line <= j < fst s -> j <= end_line ->
                lines !! Z.to_nat j = Some line -> commented line = true
         else ~ span_commented lines start_line end_line).
  set (measure := fun s : Z * bool =>
         if snd s then S (Z.to_nat (size lines - fst s)) else 0%nat).
  assert (Hbody : forall s, Inv s -> cond s = true ->
            exists s', body s = Ok s' /\ Inv s' /\ (measure s' < measure s)%nat).
  { intros [i b] [Hi Hb] Hc. simpl in Hi, Hb, Hc.
    destruct b; [|discriminate]. simpl in Hc.
    assert (Hr : 0 <= i < size lines) by lia.
    destruct (lookup_lt_is_Some_2 lines (Z.to_nat i)) as [line Hl].
    { unfold size in Hr. lia. }
    unfold body. rewrite (proj2 (at_Ok lines i line) (conj (proj1 Hr) Hl)). simpl.
    destruct (empty line) eqn:He.
    - eexists. split; [reflexivity|]. split; [|unfold measure; simpl; lia].
      split; [simpl; lia|]. simpl. intros j line' Hj Hje Hl'.
      destruct (decide (j = i)) as [->|Hne].
      + rewrite Hl in Hl'. injection Hl' as <-. unfold commented. rewrite He. reflexivity.
      + apply (Hb j); [lia|exact Hje|exact Hl'].
    - destruct (slashes_at line (first_non_space line)) eqn:Hs; simpl.
      + eexists. split; [reflexivity|]. split; [|unfold measure; simpl; lia].
        split; [simpl; lia|]. simpl. intros j line' Hj Hje Hl'.
        destruct (decide (j = i)) as [->|Hne].
        * rewrite Hl in Hl'. injection Hl' as <-. unfold commented.
          rewrite Hs. apply orb_true_r.
        * apply (Hb j); [lia|exact Hje|exact Hl'].
      + eexists. split; [reflexivity|]. split; [|unfold measure; simpl; lia].
        split; [simpl; lia|]. simpl. intros Hall.
        specialize (Hall i line ltac:(lia) Hl). unfold commented in Hall.
        rewrite He, Hs in Hall. discriminate. }
  assert (Hinit : Inv (start_line, true)).
  { split; [simpl; lia|]. simpl. intros j line Hj. lia. }
  destruct (while_terminates cond body Inv measure Hbody
              (S (length lines)) (start_line, true) Hinit)
    as ([i b] & Hr & [Hi Hb] & Hstop).
  { unfold measure, size. simpl. lia. }
  simpl in Hi, Hb, Hstop. rewrite Hr. simpl. exists b. split; [reflexivity|].
  destruct b.
  - split; [|reflexivity]. intros _ j line Hj Hl.
    apply (Hb j line); [|lia|exact Hl].
    apply lookup_lt_Some in Hl. unfold size in Hstop. simpl in Hstop. lia.
  - split; [discriminate|]. intros Hall. contradiction.
Qed.

Lemma set_fields_id ed : set_mState (mState ed) (set_mLines (mLines ed) ed) = ed.
Proof. destruct ed; reflexivity. Qed.

Lemma EditorState_map_ext (f g : Coordinates -> Coordinates) st :
  (forall c, f c = g c) -> EditorState_map f st = EditorState_map g st.
Proof. intros H. unfold EditorState_map. rewrite !H. reflexivity. Qed.

Lemma EditorState_map_id st : EditorState_map (λ c, c) st = st.
Proof. destruct st; reflexivity. Qed.

Lemma EditorState_map_compose (f g : Coordinates -> Coordinates) st :
  EditorState_map f (EditorState_map g st) = EditorState_map (λ c, f (g c)) st.
Proof. reflexivity. Qed.

Lemma mLine_shift_between lines lo hi c : mLine (shift_between lines lo hi c) = mLine c.
Proof.
  unfold shift_between. destruct (lines !! Z.to_nat (mLine c)); [|reflexivity].
  match goal with |- context [if ?b then _ else _] => destruct b end; reflexivity.
Qed.

Lemma shift_between_ext lines lo hi lo' hi' c :
  (forall j, 0 <= j < size lines -> (lo <= j <= hi <-> lo' <= j <= hi')) ->
  shift_between lines lo hi c = shift_between lines lo' hi' c.
Proof.
  intros H. unfold shift_between.
  destruct (lines !! Z.to_nat (mLine c)) as [line|] eqn:Hl; [|reflexivity].
  apply lookup_lt_Some in Hl.
  destruct (0 <=? mLine c) eqn:H0; [|reflexivity]. simpl.
  replace ((lo' <=? mLine c) && (mLine c <=? hi'))
    with ((lo <=? mLine c) && (mLine c <=? hi)); [reflexivity|].
  apply eq_true_iff_eq. rewrite !andb_true_iff, !Z.leb_le. apply H.
  unfold size. lia.
Qed.

Lemma shift_between_none lines lo hi c :
  (forall j, 0 <= j < size lines -> ~ lo <= j <= hi) ->
  shift_between lines lo hi c = c.
Proof.
  intros H. unfold shift_between.
  destruct (lines !! Z.to_nat (mLine c)) as [line|] eqn:Hl; [|reflexivity].
  apply lookup_lt_Some in Hl.
  destruct (0 <=? mLine c) eqn:H0; [|reflexivity]. simpl.
  replace ((lo <=? mLine c) && (mLine c <=? hi)) with false; [reflexivity|].
  symmetry. apply not_true_iff_false. rewrite andb_true_iff, !Z.leb_le. apply H.
  unfold size. lia.
Qed.

(** The shift of the loop that comments, on the line [i]. *)
Lemma shift_added_step lines lo (i : Z) line c :
  0 <= lo <= i -> fits_int lines ->
  lines !! Z.to_nat i = Some line ->
  (if empty line then shift_between lines lo (i - 1) c
   else shift_added i (first_non_space line) (shift_between lines lo (i - 1) c))
  = shift_between lines lo i c.
Proof.
  intros Hi [Hfit Hfl] Hl.
  pose proof (first_non_space_range line) as Hn. pose proof (Hfl _ _ Hl) as Hsz.
  assert (Hlt : i < size lines) by (apply lookup_lt_Some in Hl; unfold size; lia).
  unfold shift_added, shift_between. rewrite !to_int_small by lia.
  destruct (decide (mLine c = i)) as [Hc|Hc].
  - rewrite Hc, Hl.
    replace ((0 <=? i) && (lo <=? i) && (i <=? i - 1)) with false by lia.
    replace ((0 <=? i) && (lo <=? i) && (i <=? i)) with true by lia. simpl.
    destruct (empty line); simpl; [reflexivity|].
    rewrite Hc, Z.eqb_refl. simpl. destruct (mColumn c >=? first_non_space line);
      rewrite ?Hc; reflexivity.
  - destruct (lines !! Z.to_nat (mLine c)) as [line'|] eqn:Hl'.
    + replace (mLine c <=? i - 1) with (mLine c <=? i) by lia.
      destruct ((0 <=? mLine c) && (lo <=? mLine c) && (mLine c <=? i)
                && negb (empty line') && (mColumn c >=? first_non_space line'));
        simpl; replace (mLine c =? i) with false by lia;
        destruct (empty line); reflexivity.
    + replace (mLine c =? i) with false by lia. destruct (empty line); reflexivity.
Qed.

(** The shift of the loop that uncomments, on the line [i]. *)
Lemma shift_removed_step lines (i hi : Z) line c :
  0 <= i <= hi -> fits_int lines ->
  lines !! Z.to_nat i = Some line ->
  (if empty line then shift_between lines i hi c
   else shift_removed i (first_non_space line) (shift_between lines i hi c))
  = shift_between lines (i + 1) hi c.
Proof.
  intros Hi [Hfit Hfl] Hl.
  pose proof (first_non_space_range line) as Hn. pose proof (Hfl _ _ Hl) as Hsz.
  assert (Hlt : i < size lines) by (apply lookup_lt_Some in Hl; unfold size; lia).
  destruct c as [l col].
  unfold shift_removed, shift_between. rewrite !to_int_small by lia. simpl.
  destruct (decide (l = i)) as [->|Hc].
  - rewrite Hl.
    replace ((0 <=? i) && (i + 1 <=? i)) with false by lia.
    replace ((0 <=? i) && (i <=? i) && (i <=? hi)) with true by lia. simpl.
    destruct (empty line); simpl; [reflexivity|].
    destruct (col >=? first_non_space line) eqn:Hcol; simpl; rewrite Z.eqb_refl; simpl.
    + replace (col + 2 >? first_non_space line) with true by lia. f_equal. lia.
    + replace (col >? first_non_space line) with false by lia. reflexivity.
  - destruct (lines !! Z.to_nat l) as [line'|] eqn:Hl'.
    + replace (i + 1 <=? l) with (i <=? l) by lia.
      destruct ((0 <=? l) && (i <=? l) && (l <=? hi)
                && negb (empty line') && (col >=? first_non_space line'));
        simpl; replace (l =? i) with false by lia;
        destruct (empty line); reflexivity.
    + simpl. replace (l =? i) with false by lia. destruct (empty line); reflexivity.
Qed.

(** The loop in its commenting mode puts [//] on the lines of the span that
    are not empty and shifts the columns of the editor state on them. *)
Lemma ToggleComment_apply_comment (ed : TextEditor) (start_line end_line : Z) :
  0 <= start_line -> fits_int (mLines ed) ->
  exists didModify,
    ToggleComment_apply ed false start_line end_line
    = Ok (set_mState
            (EditorState_map (shift_between (mLines ed) start_line end_line) (mState ed))
            (set_mLines (commented_between start_line end_line (mLines ed)) ed),
          didModify).
Proof.
  intros H0 Hfit. unfold ToggleComment_apply.
  set (L := mLines ed) in *.
  set (endLine := Z.min (end_line + 1) (size L)).
  match goal with |- context [while _ ?c ?b _] => set (cond := c); set (body := b) end.
  set (Inv := fun s : TextEditor * Z * bool =>
         let '(ed_k, i, _) := s in
         start_line <= i /\ (i <= endLine \/ i = start_line) /\
         ed_k = set_mState
                  (EditorState_map (shift_between L start_line (i - 1)) (mState ed))
                  (set_mLines (commented_between start_line (i - 1) L) ed)).
  assert (Hbody : forall s, Inv s -> cond s = true ->
            exists s', body s = Ok s' /\ Inv s' /\
              (Z.to_nat (endLine - snd (fst s')) < Z.to_nat (endLine - snd (fst s)))%nat).
  { intros [[ed_k i] dm] (Hi & Hhi & ->) Hc. simpl in Hc.
    rewrite size_commented_between in Hc.
    assert (Hr : 0 <= i < size L) by lia.
    destruct (lookup_lt_is_Some_2 L (Z.to_nat i)) as [line Hl].
    { unfold size in Hr. lia. }
    unfold body. cbn [mLines set_mLines set_mState mState].
    assert (Hat : at_ (commented_between start_line (i - 1) L) i = Ok line).
    { apply at_Ok. split; [lia|]. rewrite commented_between_lookup, Hl. simpl.
      rewrite Z2Nat.id by lia. replace (i <=? i - 1) with false by lia.
      rewrite andb_false_r. reflexivity. }
    rewrite Hat. simpl.
    pose proof (commented_between_comment_step start_line i L line Hi ltac:(lia) Hl)
      as Hstep.
    pose proof (λ c, shift_added_step L start_line i line c ltac:(lia) Hfit Hl)
      as Hshift.
    destruct (empty line) eqn:He; simpl in Hstep.
    - eexists. split; [reflexivity|]. split; [|simpl; lia].
      split; [lia|]. split; [unfold endLine; lia|].
      replace (i + 1 - 1) with i by lia. rewrite <- Hstep.
      rewrite (EditorState_map_ext _ _ _ Hshift).
      rewrite list_insert_id; [reflexivity|].
      apply at_Ok in Hat. apply Hat.
    - pose proof (insert_slashes line) as Hins. simpl in Hins.
      apply bind_Ok in Hins as (line1 & Hi1 & Hi2). rewrite Hi1. simpl.
      rewrite Hi2. simpl.
      rewrite set_at_Ok by (rewrite size_commented_between; lia). simpl.
      eexists. split; [reflexivity|]. split; [|simpl; lia].
      split; [lia|]. split; [unfold endLine; lia|].
      replace (i + 1 - 1) with i by lia. rewrite Hstep.
      rewrite EditorState_map_compose, (EditorState_map_ext _ _ _ Hshift).
      reflexivity. }
  assert (Hinit : Inv (ed, start_line, false)).
  { split; [lia|]. split; [right; reflexivity|].
    rewrite commented_between_none by (intros; lia).
    rewrite (EditorState_map_ext _ (λ c, c))
      by (intros c; apply shift_between_none; intros; lia).
    rewrite EditorState_map_id. symmetry. apply set_fields_id. }
  destruct (while_terminates cond body Inv _ Hbody
              (S (length L)) (ed, start_line, false) Hinit)
    as ([[ed_r i] dm] & Hr & (Hi & Hhi & ->) & Hstop).
  { simpl. unfold endLine, size. lia. }
  rewrite Hr. simpl. exists dm.
  simpl in Hstop. rewrite size_commented_between in Hstop.
  assert (Hext : forall j, 0 <= j < size L ->
            (start_line <= j <= i - 1 <-> start_line <= j <= end_line)).
  { intros j Hj. unfold endLine in Hhi. lia. }
  rewrite (commented_between_ext start_line (i - 1) start_line end_line L Hext).
  rewrite (EditorState_map_ext _ (shift_between L start_line end_line))
    by (intros c; apply shift_between_ext; exact Hext).
  reflexivity.
Qed.

(** The loop in its uncommenting mode, on the lines and the state that the
    commenting mode leaves, erases the [//] and shifts the columns back. *)
Lemma ToggleComment_apply_uncomment (ed : TextEditor) (L : list Line)
    (st : EditorState) (start_line end_line : Z) :
  0 <= start_line -> fits_int L ->
  mLines ed = commented_between start_line end_line L ->
  mState ed = EditorState_map (shift_between L start_line end_line) st ->
  exists didModify,
    ToggleComment_apply ed true start_line end_line
    = Ok (set_mState st (set_mLines L ed), didModify).
Proof.
  intros H0 Hfit HL Hst. unfold ToggleComment_apply.
  set (endLine := Z.min (end_line + 1) (size L)).
  match goal with |- context [while _ ?c ?b _] => set (cond := c); set (body := b) end.
  set (Inv := fun s : TextEditor * Z * bool =>
         let '(ed_k, i, _) := s in
         start_line <= i /\ (i <= endLine \/ i = start_line) /\
         ed_k = set_mState (EditorState_map (shift_between L i end_line) st)
                  (set_mLines (commented_between i end_line L) ed)).
  assert (Hbody : forall s, Inv s -> cond s = true ->
            exists s', body s = Ok s' /\ Inv s' /\
              (Z.to_nat (endLine - snd (fst s')) < Z.to_nat (endLine - snd (fst s)))%nat).
  { intros [[ed_k i] dm] (Hi & Hhi & ->) Hc. simpl in Hc.
    rewrite size_commented_between in Hc.
    assert (Hr : 0 <= i < size L) by lia.
    destruct (lookup_lt_is_Some_2 L (Z.to_nat i)) as [line Hl].
    { unfold size in Hr. lia. }
    unfold body. cbn [mLines set_mLines set_mState mState].
    pose proof (commented_between_uncomment_step i end_line L line ltac:(lia) Hl)
      as Hstep.
    pose proof (λ c, shift_removed_step L i end_line line c ltac:(lia) Hfit Hl)
      as Hshift.
    assert (Hlook : commented_between i end_line L !! Z.to_nat i
                    = Some (if negb (empty line) then comment_line line else line)).
    { rewrite commented_between_lookup, Hl. simpl. rewrite Z2Nat.id by lia.
      replace ((i <=? i) && (i <=? end_line)) with true by lia. reflexivity. }
    rewrite (proj2 (at_Ok _ i _) (conj (proj1 Hr) Hlook)). simpl.
    destruct (empty line) eqn:He; simpl.
    - rewrite He. eexists. split; [reflexivity|]. split; [|simpl; lia].
      split; [lia|]. split; [unfold endLine; lia|].
      rewrite <- Hstep. rewrite (EditorState_map_ext _ _ _ Hshift).
      rewrite list_insert_id; [reflexivity|].
      rewrite Hlook. reflexivity.
    - rewrite comment_line_nonempty, first_non_space_comment_line,
        slashes_at_comment_line, erase_slashes. simpl.
      rewrite set_at_Ok by (rewrite size_commented_between; lia). simpl.
      eexists. split; [reflexivity|]. split; [|simpl; lia].
      split; [lia|]. split; [unfold endLine; lia|].
      rewrite Hstep.
      rewrite EditorState_map_compose, (EditorState_map_ext _ _ _ Hshift).
      reflexivity. }
  assert (Hinit : Inv (ed, start_line, false)).
  { split; [lia|]. split; [right; reflexivity|].
    rewrite <- HL, <- Hst. symmetry. apply set_fields_id. }
  destruct (while_terminates cond body Inv _ Hbody
              (S (length (mLines ed))) (ed, start_line, false) Hinit)
    as ([[ed_r i] dm] & Hr & (Hi & Hhi & ->) & Hstop).
  { simpl. unfold endLine. pose proof (size_commented_between start_line end_line L) as Hs.
    rewrite <- HL in Hs. unfold size in *. lia. }
  rewrite Hr. simpl. exists dm.
  simpl in Hstop. rewrite size_commented_between in Hstop.
  rewrite (commented_between_none i end_line L) by (intros j Hj; lia).
  rewrite (EditorState_map_ext _ (λ c, c))
    by (intros c; apply shift_between_none; intros; lia).
  rewrite EditorState_map_id. reflexivity.
Qed.

(** ** The functions of a tab size of 1 or more return *)

Lemma walk_returns (ed : TextEditor) (line : Line) (cond : Z * Z -> bool) :
  0 < mTabSize ed ->
  (forall s, cond s = true -> snd s < size line) ->
  forall (fuel : nat) (c i : Z),
    0 <= c -> 0 <= i -> size line - i <= Z.of_nat fuel ->
    exists c' i', while fuel cond (walk_body ed line) (c, i) = Ok (c', i') /\
                  0 <= c' /\ 0 <= i'.
Proof.
  intros Ht Hcond fuel c i Hc Hi Hfuel.
  destruct (while_terminates cond (walk_body ed line)
              (λ s, 0 <= fst s /\ 0 <= snd s)
              (λ s, Z.to_nat (size line - snd s))) with (fuel := fuel) (s := (c, i))
    as ([c' i'] & Hr & [Hc' Hi'] & _).
  - intros [c1 i1] [Hc1 Hi1] Hcnd. simpl in Hc1, Hi1.
    specialize (Hcond _ Hcnd). simpl in Hcond.
    destruct (lookup_lt_is_Some_2 line (Z.to_nat i1)) as [g Hg].
    { unfold size in Hcond. lia. }
    unfold walk_body. rewrite (proj2 (at_Ok line i1 g) (conj Hi1 Hg)). simpl.
    pose proof (UTF8CharLength_pos (mChar g)).
    destruct (char_eqb (mChar g) TAB).
    + rewrite tab_stop_Ok by lia. simpl. eexists. split; [reflexivity|]. simpl.
      pose proof (Z.quot_pos c1 (mTabSize ed) Hc1 ltac:(lia)).
      split; [|lia]. split; [nia|lia].
    + simpl. eexists. split; [reflexivity|]. simpl. lia.
  - simpl. lia.
  - simpl. lia.
  - exists c', i'. simpl in *. auto.
Qed.

Lemma GetLineMaxColumn_returns (ed : TextEditor) (aLine : Z) :
  0 < mTabSize ed -> exists n, GetLineMaxColumn ed aLine = Ok n.
Proof.
  intros Ht. unfold GetLineMaxColumn.
  destruct (ge_size aLine (mLines ed)) eqn:Hge; [eauto|].
  apply ge_size_false in Hge.
  destruct (lookup_lt_is_Some_2 (mLines ed) (Z.to_nat aLine)) as [line Hl].
  { unfold size in Hge. lia. }
  rewrite (proj2 (at_Ok _ aLine line) (conj (proj1 Hge) Hl)). simpl.
  match goal with |- context [while ?f ?cnd ?b ?s] =>
    change (while f cnd b s) with (while f cnd (walk_body ed line) s);
    destruct (walk_returns ed line cnd Ht) with (fuel := f) (c := 0) (i := 0)
      as (c' & i' & Hw & _)
  end.
  - intros [c1 i1] H. simpl in *. lia.
  - lia.
  - lia.
  - unfold size. lia.
  - rewrite Hw. simpl. eauto.
Qed.

Lemma GetCharacterIndex_returns (ed : TextEditor) (c : Coordinates) :
  0 < mTabSize ed ->
  exists i, GetCharacterIndex ed c = Ok i /\
            (ge_size (mLine c) (mLines ed) = false -> 0 <= i).
Proof.
  intros Ht. unfold GetCharacterIndex.
  destruct (ge_size (mLine c) (mLines ed)) eqn:Hge.
  { eexists. split; [reflexivity|discriminate]. }
  apply ge_size_false in Hge.
  destruct (lookup_lt_is_Some_2 (mLines ed) (Z.to_nat (mLine c))) as [line Hl].
  { unfold size in Hge. lia. }
  rewrite (proj2 (at_Ok _ (mLine c) line) (conj (proj1 Hge) Hl)). simpl.
  match goal with |- context [while ?f ?cnd ?b ?s] =>
    change (while f cnd b s) with (while f cnd (walk_body ed line) s);
    destruct (walk_returns ed line cnd Ht) with (fuel := f) (c := 0) (i := 0)
      as (c' & i' & Hw & _ & Hi')
  end.
  - intros [c1 i1] H. simpl in *. lia.
  - lia.
  - lia.
  - unfold size. lia.
  - rewrite Hw. simpl. eauto.
Qed.

Lemma AddUndo_returns (ed : TextEditor) (u : UndoRecord) :
  mReadOnly ed = false -> 0 <= mUndoIndex ed ->
  exists ed', AddUndo ed u = Ok ed' /\
    mLines ed' = mLines ed /\ mState ed' = mState ed /\
    mReadOnly ed' = false /\ mTabSize ed' = mTabSize ed /\
    mUndoIndex ed' = mUndoIndex ed + 1.
Proof.
  intros Hro Hidx. unfold AddUndo. rewrite Hro. simpl.
  replace (0 <=? mUndoIndex ed + 1) with true by lia. simpl.
  rewrite set_at_Ok.
  - eexists. split; [reflexivity|]. simpl. auto.
  - unfold size. rewrite length_resize. lia.
Qed.

Lemma text_fuel_pos (lines : list Line) : (1 <= text_fuel lines)%nat.
Proof. destruct lines; simpl; lia. Qed.

Lemma text_fuel_drop (lines : list Line) (n : nat) (line : Line) :
  lines !! n = Some line ->
  text_fuel (drop n lines) = S (length line + text_fuel (drop (S n) lines)).
Proof.
  revert n. induction lines as [|l lines IH]; intros n Hl; [discriminate|].
  destruct n as [|n]; simpl in *.
  - injection Hl as ->. rewrite drop_0. reflexivity.
  - apply IH. exact Hl.
Qed.

Lemma text_fuel_drop_le (lines : list Line) (n : nat) :
  (text_fuel (drop n lines) <= text_fuel lines)%nat.
Proof.
  revert n. induction lines as [|l lines IH]; intros n.
  - rewrite drop_nil. lia.
  - destruct n as [|n]; simpl; [lia|]. specialize (IH n). lia.
Qed.

(** [GetText] returns for a tab size of 1 or more and a range of lines that
    starts in or after the first line and ends in the buffer or just after
    it. *)
Lemma GetText_returns (ed : TextEditor) (aStart aEnd : Coordinates) :
  0 < mTabSize ed ->
  0 <= mLine aStart < 2 ^ 64 ->
  0 <= mLine aEnd <= size (mLines ed) ->
  size (mLines ed) < 2 ^ 64 ->
  exists text, GetText ed aStart aEnd = Ok text.
Proof.
  intros Ht Hs He Hsz. unfold GetText.
  destruct (GetCharacterIndex_returns ed aStart Ht) as (istart & -> & Histart).
  destruct (GetCharacterIndex_returns ed aEnd Ht) as (iend & -> & _).
  cbn -[while text_fuel to_size_t].
  set (L := mLines ed) in *.
  rewrite (to_size_t_small (mLine aStart)) by lia.
  (* the loop that computes the capacity *)
  match goal with |- context [while ?f ?cnd ?b (mLine aStart, 0)] =>
    destruct (while_terminates cnd b (λ s, 0 <= fst s)
                (λ s, Z.to_nat (mLine aEnd - fst s))) with (fuel := f)
                (s := (mLine aStart, 0)) as (r1 & -> & _)
  end.
  { intros [i s] Hi Hc. simpl in Hi, Hc.
    rewrite (to_size_t_small (mLine aEnd)) in Hc by lia.
    destruct (lookup_lt_is_Some_2 L (Z.to_nat i)) as [line Hl].
    { unfold size in He. lia. }
    rewrite (proj2 (at_Ok L i line) (conj Hi Hl)). simpl.
    eexists. split; [reflexivity|]. simpl. lia. }
  { simpl. lia. }
  { simpl. unfold size in He. lia. }
  cbn -[while text_fuel].
  (* the loop that copies *)
  set (measure := fun s : string * Z * Z =>
         let '(_, l, i) := s in
         match L !! Z.to_nat l with
         | Some line =>
             (Z.to_nat (size line - i) + text_fuel (drop (S (Z.to_nat l)) L))%nat
         | None => 0%nat
         end).
  match goal with |- context [while ?f ?cnd ?b ?s0] =>
    destruct (while_terminates cnd b
                (λ s : string * Z * Z,
                   0 <= snd (fst s) /\ (snd (fst s) < size L -> 0 <= snd s))
                measure) with (fuel := f) (s := s0) as ([[text l] i] & -> & _)
  end.
  - intros [[text l] i] [Hl Hi] Hc. simpl in Hl, Hi, Hc.
    assert (Hlt : l < size L) by lia. specialize (Hi Hlt).
    destruct (lookup_lt_is_Some_2 L (Z.to_nat l)) as [line Hline].
    { unfold size in Hlt. lia. }
    rewrite (proj2 (at_Ok L l line) (conj Hl Hline)). simpl.
    destruct (i <? size line) eqn:Hil.
    + destruct (lookup_lt_is_Some_2 line (Z.to_nat i)) as [g Hg].
      { unfold size in Hil. lia. }
      rewrite (proj2 (at_Ok line i g) (conj Hi Hg)). simpl.
      eexists. split; [reflexivity|]. split; [simpl; lia|].
      unfold measure. rewrite Hline. lia.
    + eexists. split; [reflexivity|]. split; [simpl; lia|].
      unfold measure. rewrite Hline.
      replace (Z.to_nat (l + 1)) with (S (Z.to_nat l)) by lia.
      replace (Z.to_nat (size line - i)) with 0%nat by lia.
      destruct (L !! S (Z.to_nat l)) as [line'|] eqn:Hnext.
      * rewrite (text_fuel_drop L (S (Z.to_nat l)) line' Hnext).
        unfold size. lia.
      * pose proof (text_fuel_pos (drop (S (Z.to_nat l)) L)). lia.
  - simpl. split; [lia|]. intros Hlt. apply Histart. apply ge_size_false. lia.
  - unfold measure.
    destruct (L !! Z.to_nat (mLine aStart)) as [line|] eqn:Hline; [|lia].
    pose proof (text_fuel_drop L _ line Hline).
    pose proof (text_fuel_drop_le L (Z.to_nat (mLine aStart))).
    assert (0 <= istart).
    { apply Histart. apply ge_size_false. apply lookup_lt_Some in Hline.
      unfold size. lia. }
    unfold size. lia.
  - simpl. eauto.
Qed.

(** ** Comment, then uncomment *)

Lemma ToggleComment_record_returns (ed : TextEditor) (u : UndoRecord)
    (start_line end_line : Z) (didModify : bool) :
  mReadOnly ed = false -> 0 < mTabSize ed -> 0 <= mUndoIndex ed ->
  0 <= start_line < 2 ^ 31 -> 0 <= end_line < size (mLines ed) ->
  size (mLines ed) < 2 ^ 31 ->
  exists ed',
    (if didModify then ToggleComment_record ed u start_line end_line else Ok ed) = Ok ed' /\
    mLines ed' = mLines ed /\ mState ed' = mState ed /\
    mReadOnly ed' = false /\ mTabSize ed' = mTabSize ed /\
    0 <= mUndoIndex ed'.
Proof.
  intros Hro Ht Hidx Hs He Hsz. destruct didModify.
  2:{ exists ed. repeat split; auto. }
  unfold ToggleComment_record. rewrite !to_int_small by lia.
  destruct (GetLineMaxColumn_returns ed end_line Ht) as (column & ->). simpl.
  destruct (GetText_returns ed (mkCoordinates start_line 0)
              (mkCoordinates end_line column) Ht) as (added & ->); simpl; try lia.
  match goal with |- context [AddUndo ed ?r] =>
    destruct (AddUndo_returns ed r Hro Hidx) as (ed' & -> & ? & ? & ? & ? & ?) end.
  exists ed'. repeat split; auto. lia.
Qed.

Lemma ToggleComment_span_in_buffer (ed : TextEditor) (start_line end_line : Z) :
  size (mLines ed) < 2 ^ 31 ->
  in_buffer (mLines ed) (mSelectionStart (mState ed)) ->
  in_buffer (mLines ed) (mSelectionEnd (mState ed)) ->
  in_buffer (mLines ed) (mCursorPosition (mState ed)) ->
  ToggleComment_span ed = (start_line, end_line) ->
  0 <= start_line <= end_line /\ end_line < size (mLines ed).
Proof.
  unfold in_buffer, ToggleComment_span. intros Hsz H1 H2 H3 H.
  destruct (negb _) in H; injection H as <- <-;
    rewrite !to_size_t_small by lia; lia.
Qed.

Lemma ToggleComment_span_same_lines (ed ed' : TextEditor) (f : Coordinates -> Coordinates) :
  (forall c, mLine (f c) = mLine c) ->
  mState ed' = EditorState_map f (mState ed) ->
  ToggleComment_span ed' = ToggleComment_span ed.
Proof.
  intros Hf Hst. unfold ToggleComment_span. rewrite Hst. simpl. rewrite !Hf. reflexivity.
Qed.

Lemma span_commented_commented_between (lines : list Line) (start_line end_line : Z) :
  0 <= start_line ->
  span_commented (commented_between start_line end_line lines) start_line end_line.
Proof.
  intros H0 j line Hj Hl. rewrite commented_between_lookup in Hl.
  destruct (lines !! Z.to_nat j) as [l|]; [|discriminate]. simpl in Hl.
  rewrite Z2Nat.id in Hl by lia.
  replace ((start_line <=? j) && (j <=? end_line)) with true in Hl by lia.
  simpl in Hl. injection Hl as <-. unfold commented.
  destruct (empty l) eqn:He; simpl; [rewrite He; reflexivity|].
  rewrite first_non_space_comment_line, slashes_at_comment_line. apply orb_true_r.
Qed.

(** C5 (amended): in an editor that can be edited (not read-only, tab size of
    1 or more, coordinates inside of the buffer), for every span of lines
    whose first line is not empty and in which some line that is not empty
    does not begin with [//]: the line-mode toggle returns, puts [//] after
    the blanks of every line of the span that is not empty, and moves by two
    the columns of the editor state that are at or after the blanks of such a
    line; the toggle applied again returns and restores the lines and the
    editor state exactly. *)
Theorem ToggleComment_comment_then_uncomment
    (ed : TextEditor) (start_line end_line : Z) (first : Line) :
  mReadOnly ed = false -> 0 < mTabSize ed -> 0 <= mUndoIndex ed ->
  fits_int (mLines ed) ->
  in_buffer (mLines ed) (mSelectionStart (mState ed)) ->
  in_buffer (mLines ed) (mSelectionEnd (mState ed)) ->
  in_buffer (mLines ed) (mCursorPosition (mState ed)) ->
  ToggleComment_span ed = (start_line, end_line) ->
  mLines ed !! Z.to_nat start_line = Some first -> empty first = false ->
  ~ span_commented (mLines ed) start_line end_line ->
  exists ed1 ed2,
    ToggleComment ed false = Ok ed1 /\
    mLines ed1 = commented_between start_line end_line (mLines ed) /\
    mState ed1
      = EditorState_map (shift_between (mLines ed) start_line end_line) (mState ed) /\
    ToggleComment ed1 false = Ok ed2 /\
    mLines ed2 = mLines ed /\
    mState ed2 = mState ed.
Proof.
  intros Hro Ht Hidx Hfit Hb1 Hb2 Hb3 Hspan Hfirst Hne Hnot.
  pose proof (ToggleComment_span_in_buffer ed _ _ (proj1 Hfit) Hb1 Hb2 Hb3 Hspan)
    as [Hse He].
  pose proof (proj1 Hfit) as Hsz.
  set (L := mLines ed) in *.
  (* the first toggle *)
  assert (H1 : exists ed1, ToggleComment ed false = Ok ed1 /\
            mLines ed1 = commented_between start_line end_line L /\
            mState ed1 = EditorState_map (shift_between L start_line end_line) (mState ed) /\
            mReadOnly ed1 = false /\ mTabSize ed1 = mTabSize ed /\ 0 <= mUndoIndex ed1).
  { unfold ToggleComment. rewrite Hspan. fold L. rewrite Hfirst, Hne.
    rewrite andb_false_r. simpl.
    replace (start_line <? size L) with true by lia.
    unfold ToggleComment_line. fold L.
    replace (start_line <? size L) with true by lia.
    rewrite (proj2 (at_Ok L start_line first) (conj (proj1 Hse) Hfirst)). simpl.
    assert (Hmode : (if slashes_at first (first_non_space first)
                     then ToggleComment_verify L start_line end_line
                     else Ok (slashes_at first (first_non_space first))) = Ok false).
    { destruct (slashes_at first (first_non_space first)); [|reflexivity].
      destruct (ToggleComment_verify_spec L start_line end_line (proj1 Hse))
        as (b & -> & Hb).
      destruct b; [|reflexivity]. exfalso. apply Hnot. apply Hb. reflexivity. }
    rewrite Hmode. simpl.
    destruct (ToggleComment_apply_comment ed start_line end_line (proj1 Hse) Hfit)
      as (dm & ->). simpl. fold L.
    match goal with |- context [if dm then ToggleComment_record ?e ?u _ _ else _] =>
      destruct (ToggleComment_record_returns e u start_line end_line dm)
        as (ed' & -> & Hl' & Hs' & Hro' & Ht' & Hi')
    end; simpl; rewrite ?size_commented_between; fold L;
      try assumption; try lia; try apply Hfit.
    eexists. split; [reflexivity|]. simpl. rewrite Hl', Hs', Hro', Ht'. simpl.
    repeat split; auto. }
  destruct H1 as (ed1 & HT1 & Hl1 & Hs1 & Hro1 & Ht1 & Hi1).
  exists ed1.
  (* the second toggle *)
  assert (Hspan1 : ToggleComment_span ed1 = (start_line, end_line)).
  { rewrite <- Hspan. eapply ToggleComment_span_same_lines; [|exact Hs1].
    intros c. apply mLine_shift_between. }
  assert (Hfirst1 : mLines ed1 !! Z.to_nat start_line = Some (comment_line first)).
  { rewrite Hl1, commented_between_lookup, Hfirst. simpl. rewrite Hne. simpl.
    rewrite Z2Nat.id by lia.
    replace ((start_line <=? start_line) && (start_line <=? end_line)) with true by lia.
    reflexivity. }
  assert (Hsz1 : size (mLines ed1) = size L).
  { rewrite Hl1. apply size_commented_between. }
  assert (H2 : exists ed2, ToggleComment ed1 false = Ok ed2 /\
            mLines ed2 = L /\ mState ed2 = mState ed).
  { unfold ToggleComment. rewrite Hspan1, Hfirst1, comment_line_nonempty.
    rewrite andb_false_r. simpl. rewrite Hsz1.
    replace (start_line <? size L) with true by lia.
    unfold ToggleComment_line. rewrite Hsz1.
    replace (start_line <? size L) with true by lia.
    rewrite (proj2 (at_Ok (mLines ed1) start_line _) (conj (proj1 Hse) Hfirst1)). simpl.
    rewrite first_non_space_comment_line, slashes_at_comment_line.
    destruct (ToggleComment_verify_spec (mLines ed1) start_line end_line (proj1 Hse))
      as (b & -> & Hb).
    assert (b = true) as ->.
    { apply Hb. rewrite Hl1. apply span_commented_commented_between. lia. }
    simpl.
    destruct (ToggleComment_apply_uncomment ed1 L (mState ed) start_line end_line
                (proj1 Hse) Hfit Hl1 Hs1) as (dm & ->). simpl.
    match goal with |- context [if dm then ToggleComment_record ?e ?u _ _ else _] =>
      destruct (ToggleComment_record_returns e u start_line end_line dm)
        as (ed' & -> & Hl' & Hs' & Hro' & Ht' & Hi')
    end; simpl; try assumption; try lia; try apply Hfit.
    eexists. split; [reflexivity|]. simpl. rewrite Hl', Hs'. simpl. auto. }
  destruct H2 as (ed2 & HT2 & Hl2 & Hs2).
  exists ed2. repeat split; assumption.
Qed.

(** C5, as stated for every line range, fails on a span whose first line is
    empty: the toggle comments the second line, and the toggle applied again
    does not uncomment it (only the first line of the span, the empty one,
    decides that the span is a candidate for uncommenting) but comments it a
    second time. *)
Lemma ToggleComment_twice_counterexample :
  GetTextLines blank_then_abc = [EmptyString; "abc"%string] /\
  (ed ← ToggleComment blank_then_abc false; Ok (GetTextLines ed))
  = Ok [EmptyString; "//abc"%string] /\
  (ed ← ToggleComment blank_then_abc false; ed ← ToggleComment ed false;
   Ok (GetTextLines ed))
  = Ok [EmptyString; "////abc"%string].
Proof. repeat split; vm_compute; reflexivity. Qed.

Lemma ToggleComment_comment_then_uncomment_witness :
  exists ed1 ed2,
    ToggleComment abc_sel false = Ok ed1 /\
    GetTextLines ed1 = ["//abc"]%string /\
    mState ed1 = mkEditorState (mkCoordinates 0 2) (mkCoordinates 0 5) (mkCoordinates 0 2) /\
    ToggleComment ed1 false = Ok ed2 /\
    GetTextLines ed2 = ["abc"]%string /\
    mState ed2 = mkEditorState (mkCoordinates 0 0) (mkCoordinates 0 3) (mkCoordinates 0 0).
Proof.
  destruct (ToggleComment_comment_then_uncomment abc_sel 0 0 (Line_of_string "abc"))
    as (ed1 & ed2 & H1 & Hl1 & Hs1 & H2 & Hl2 & Hs2).
  - reflexivity.
  - reflexivity.
  - discriminate.
  - split; [reflexivity|]. intros [|[|j]] line Hl; try discriminate.
    injection Hl as <-. reflexivity.
  - split; [discriminate|reflexivity].
  - split; [discriminate|reflexivity].
  - split; [discriminate|reflexivity].
  - reflexivity.
  - reflexivity.
  - reflexivity.
  - intros Hall. specialize (Hall 0 (Line_of_string "abc") ltac:(lia) eq_refl).
    discriminate.
  - exists ed1, ed2. unfold GetTextLines. rewrite Hl1, Hs1, Hl2, Hs2.
    repeat split; try assumption; reflexivity.
Defined.

(** * Further properties of the embedded code *)

(** ** The encoder of a typed character and the length table *)

(** The bytes that [ImTextCharToUtf8] writes for a code point below 0x10000
    agree with the length table that the buffer is walked with: the function
    writes nothing exactly for the code points from 0xdc00 to 0xdfff, and
    otherwise the first byte is a lead byte whose [UTF8CharLength] is the
    number of bytes written, and every further byte is a continuation byte
    for [IsUTFSequence]. *)
Theorem ImTextCharToUtf8_UTF8CharLength (c : Z) :
  0 <= c < 0x10000 ->
  match ImTextCharToUtf8 c with
  | [] => 0xdc00 <= c < 0xe000
  | b :: bs =>
      ~ 0xdc00 <= c < 0xe000 /\
      UTF8CharLength b = size (b :: bs) /\
      forallb IsUTFSequence bs = true
  end.
Proof.
  intros Hc.
  assert (Hrange : forall (n : nat) (P : Z -> bool) (lo x : Z),
            forallb (λ k, P (lo + Z.of_nat k)) (seq 0 n) = true ->
            lo <= x < lo + Z.of_nat n -> P x = true).
  { intros n P lo x Hall Hx. rewrite forallb_forall in Hall.
    specialize (Hall (Z.to_nat (x - lo))).
    replace (lo + Z.of_nat (Z.to_nat (x - lo))) with x in Hall by lia.
    apply Hall. apply in_seq. lia. }
  assert (H1 : forall x, 0 <= x < 0x80 -> UTF8CharLength (to_char x) = 1).
  { intros x Hx. apply Z.eqb_eq.
    apply (Hrange 128%nat (λ x, UTF8CharLength (to_char x) =? 1) 0 x); [reflexivity|lia]. }
  assert (H2 : forall h, 2 <= h < 32 -> UTF8CharLength (to_char (0xc0 + h)) = 2).
  { intros h Hh. apply Z.eqb_eq.
    apply (Hrange 30%nat (λ h, UTF8CharLength (to_char (0xc0 + h)) =? 2) 2 h);
      [reflexivity|lia]. }
  assert (H3 : forall h, 0 <= h < 16 -> UTF8CharLength (to_char (0xe0 + h)) = 3).
  { intros h Hh. apply Z.eqb_eq.
    apply (Hrange 16%nat (λ h, UTF8CharLength (to_char (0xe0 + h)) =? 3) 0 h);
      [reflexivity|lia]. }
  assert (Hcont : forall l, 0 <= l < 64 -> IsUTFSequence (to_char (0x80 + l)) = true).
  { intros l Hl.
    apply (Hrange 64%nat (λ l, IsUTFSequence (to_char (0x80 + l))) 0 l);
      [reflexivity|lia]. }
  assert (Hlow : forall x, 0 <= Z.land x 0x3f < 64).
  { intros x. change 0x3f with (Z.ones 6). rewrite Z.land_ones by lia.
    apply Z.mod_pos_bound. lia. }
  unfold ImTextCharToUtf8.
  destruct (c <? 0x80) eqn:Hc1.
  { split; [lia|]. split; [|reflexivity]. rewrite H1 by lia. reflexivity. }
  destruct (c <? 0x800) eqn:Hc2.
  { split; [lia|]. split.
    - rewrite H2; [reflexivity|]. rewrite Z.shiftr_div_pow2 by lia.
      change (2 ^ 6) with 64.
      assert (2 * 64 <= c < 32 * 64) by lia.
      split; [apply Z.div_le_lower_bound | apply Z.div_lt_upper_bound]; lia.
    - simpl. rewrite Hcont by apply Hlow. reflexivity. }
  destruct ((c >=? 0xdc00) && (c <? 0xe000)) eqn:Hc3; [lia|].
  destruct ((c >=? 0xd800) && (c <? 0xdc00)) eqn:Hc4.
  { split; [lia|]. split.
    - replace (Z.shiftr c 18) with 0; [reflexivity|].
      rewrite Z.shiftr_div_pow2 by lia. symmetry. apply Z.div_small.
      change (2 ^ 18) with 262144. lia.
    - simpl. rewrite !Hcont by apply Hlow. reflexivity. }
  split; [lia|]. split.
  - rewrite H3; [reflexivity|]. rewrite Z.shiftr_div_pow2 by lia.
    change (2 ^ 12) with 4096.
    split; [apply Z.div_pos | apply Z.div_lt_upper_bound]; lia.
  - simpl. rewrite !Hcont by apply Hlow. reflexivity.
Qed.

Lemma ImTextCharToUtf8_UTF8CharLength_witness :
  ~ 0xdc00 <= 0x20ac < 0xe000 /\
  UTF8CharLength (chr 0xe2) = 3 /\
  forallb IsUTFSequence [chr 0x82; chr 0xac] = true.
Proof. apply (ImTextCharToUtf8_UTF8CharLength 0x20ac). lia. Defined.

(** ** Loading and reading the text *)

Lemma append_String (x : ascii) (a b : string) :
  (String x a ++ b)%string = String x (a ++ b).
Proof. reflexivity. Qed.

Lemma append_EmptyString (b : string) : (EmptyString ++ b)%string = b.
Proof. reflexivity. Qed.

Lemma string_append_assoc (a b c : string) :
  ((a ++ b) ++ c = a ++ (b ++ c))%string.
Proof.
  induction a as [|x a IH]; [reflexivity|].
  rewrite !append_String, IH. reflexivity.
Qed.

Lemma string_append_nil_r (a : string) : (a ++ EmptyString = a)%string.
Proof.
  induction a as [|x a IH]; [reflexivity|]. rewrite append_String, IH. reflexivity.
Qed.

Lemma string_of_list_ascii_app (l1 l2 : list ascii) :
  string_of_list_ascii (l1 ++ l2)
  = (string_of_list_ascii l1 ++ string_of_list_ascii l2)%string.
Proof.
  induction l1 as [|x l1 IH]; [reflexivity|]. simpl.
  rewrite append_String, IH. reflexivity.
Qed.

Lemma string_of_Line_of_string (s : string) : string_of_Line (Line_of_string s) = s.
Proof.
  unfold string_of_Line, Line_of_string. rewrite map_map. simpl.
  rewrite map_id. apply string_of_list_ascii_of_string.
Qed.

(** The lines that [SetTextLines] loads are the lines that [GetTextLines]
    reads back; an empty list of lines loads as one empty line. *)
Theorem GetTextLines_SetTextLines (ed : TextEditor) (aLines : list string) :
  GetTextLines (SetTextLines ed aLines)
  = if empty aLines then [EmptyString] else aLines.
Proof.
  unfold GetTextLines, SetTextLines. rewrite mLines_Colorize. simpl.
  destruct aLines as [|l ls]; [reflexivity|]. simpl.
  rewrite map_map. rewrite string_of_Line_of_string. f_equal.
  induction ls as [|x ls IH]; simpl; [reflexivity|].
  rewrite string_of_Line_of_string, IH. reflexivity.
Qed.

Lemma GetCharacterIndex_column_0 (ed : TextEditor) (l : Z) :
  GetCharacterIndex ed (mkCoordinates l 0)
  = Ok (if ge_size l (mLines ed) then -1 else 0).
Proof.
  unfold GetCharacterIndex. simpl.
  destruct (ge_size l (mLines ed)) eqn:Hge; [reflexivity|].
  apply ge_size_false in Hge.
  destruct (lookup_lt_is_Some_2 (mLines ed) (Z.to_nat l)) as [line Hl].
  { unfold size in Hge. lia. }
  rewrite (proj2 (at_Ok _ l line) (conj (proj1 Hge) Hl)). simpl.
  rewrite while_unfold. simpl. rewrite andb_false_r. reflexivity.
Qed.

(** The text after the position (line [l], index [i]) of a buffer: the rest
    of the line, a newline, and the lines after it. *)
Lemma text_of_lines_drop (L : list Line) (l : nat) (line : Line) :
  L !! l = Some line ->
  text_of_lines (drop l L)
  = (string_of_Line line ++ String NEWLINE (text_of_lines (drop (S l) L)))%string.
Proof.
  revert l. induction L as [|x L IH]; intros l Hl; [discriminate|].
  destruct l as [|l]; simpl in *.
  - injection Hl as ->. rewrite drop_0. reflexivity.
  - apply IH. exact Hl.
Qed.

(** [GetText()] is the text of every line, each one followed by a newline:
    the last line has its newline too, and the text of an empty buffer is
    empty. *)
Theorem GetText_all_lines (ed : TextEditor) :
  GetText_all ed = Ok (text_of_lines (mLines ed)).
Proof.
  unfold GetText_all, GetText.
  rewrite !GetCharacterIndex_column_0. cbn -[while text_fuel to_size_t ge_size].
  set (L := mLines ed). clearbody L.
  assert (Hge : ge_size (size L) L = true).
  { unfold ge_size. apply orb_true_iff. right. lia. }
  rewrite Hge.
  destruct (ge_size 0 L) eqn:H0.
  { (* no line *)
    assert (L = []) as ->; [|reflexivity].
    destruct L as [|x L']; [reflexivity|].
    unfold ge_size, size in H0. rewrite length_cons in H0.
    apply orb_true_iff in H0 as [H0|H0]; [discriminate|].
    apply Z.geb_le in H0. lia. }
  apply ge_size_false in H0.
  (* the loop that computes the capacity *)
  match goal with |- context [while ?f ?cnd ?b (to_size_t 0, 0)] =>
    destruct (while_terminates cnd b (λ s, 0 <= fst s)
                (λ s, Z.to_nat (size L - fst s))) with (fuel := f)
                (s := (to_size_t 0, 0)) as (r1 & -> & _)
  end.
  { intros [i s] Hi Hc. simpl in Hi, Hc.
    assert (Hle : to_size_t (size L) <= size L).
    { unfold to_size_t. pose proof (size_nonneg L).
      apply Z.mod_le; lia. }
    destruct (lookup_lt_is_Some_2 L (Z.to_nat i)) as [line Hl].
    { unfold size in *. lia. }
    rewrite (proj2 (at_Ok L i line) (conj Hi Hl)). simpl.
    eexists. split; [reflexivity|]. simpl.
    unfold size in *. lia. }
  { simpl. reflexivity. }
  { simpl. unfold size. change (to_size_t 0) with 0. lia. }
  cbn -[while text_fuel].
  (* the loop that copies *)
  set (rest := fun (l i : Z) =>
         match L !! Z.to_nat l with
         | Some line =>
             (string_of_Line (drop (Z.to_nat i) line)
              ++ String NEWLINE (text_of_lines (drop (S (Z.to_nat l)) L)))%string
         | None => EmptyString
         end).
  set (measure := fun s : string * Z * Z =>
         let '(_, l, i) := s in
         match L !! Z.to_nat l with
         | Some line =>
             (Z.to_nat (size line - i) + text_fuel (drop (S (Z.to_nat l)) L))%nat
         | None => 0%nat
         end).
  match goal with |- context [while ?f ?cnd ?b ?s0] =>
    destruct (while_terminates cnd b
                (λ s : string * Z * Z,
                   let '(text, l, i) := s in
                   0 <= l <= size L /\ 0 <= i /\
                   (forall line, L !! Z.to_nat l = Some line -> i <= size line) /\
                   (text ++ rest l i)%string = text_of_lines L)
                measure) with (fuel := f) (s := s0)
      as ([[text l] i] & -> & (Hl & Hi & _ & Htext) & Hc)
  end.
  - intros [[text l] i] (Hl & Hi & Hile & Htext) Hc. simpl in Hc.
    assert (Hlt : l < size L) by lia.
    destruct (lookup_lt_is_Some_2 L (Z.to_nat l)) as [line Hline].
    { unfold size in Hlt. lia. }
    specialize (Hile line Hline).
    rewrite (proj2 (at_Ok L l line) (conj (proj1 Hl) Hline)). simpl.
    unfold rest in Htext. rewrite Hline in Htext.
    destruct (i <? size line) eqn:Hil.
    + destruct (lookup_lt_is_Some_2 line (Z.to_nat i)) as [g Hg].
      { unfold size in Hil. lia. }
      rewrite (proj2 (at_Ok line i g) (conj Hi Hg)). simpl.
      eexists. split; [reflexivity|]. split.
      * split; [lia|]. split; [lia|]. split.
        { intros line' Hline'. rewrite Hline in Hline'. injection Hline' as <-. lia. }
        unfold rest. rewrite Hline. rewrite <- Htext.
        unfold push_back.
        rewrite string_append_assoc, append_String, append_EmptyString. f_equal.
        rewrite (drop_S line g (Z.to_nat i) Hg).
        replace (Z.to_nat (i + 1)) with (S (Z.to_nat i)) by lia. reflexivity.
      * unfold measure. rewrite Hline. lia.
    + eexists. split; [reflexivity|]. split.
      * split; [lia|]. split; [lia|]. split.
        { intros line' _. apply size_nonneg. }
        rewrite <- Htext. unfold push_back.
        rewrite string_append_assoc, append_String, append_EmptyString. f_equal.
        rewrite drop_ge by (unfold size in *; lia).
        change (string_of_Line []) with EmptyString. rewrite append_EmptyString.
        f_equal. unfold rest.
        replace (Z.to_nat (l + 1)) with (S (Z.to_nat l)) by lia.
        destruct (L !! S (Z.to_nat l)) as [line'|] eqn:Hnext.
        { rewrite drop_0. symmetry. apply text_of_lines_drop. exact Hnext. }
        rewrite drop_ge; [reflexivity|]. apply lookup_ge_None. exact Hnext.
      * unfold measure. rewrite Hline.
        replace (Z.to_nat (l + 1)) with (S (Z.to_nat l)) by lia.
        replace (Z.to_nat (size line - i)) with 0%nat by lia.
        destruct (L !! S (Z.to_nat l)) as [line'|] eqn:Hnext.
        { rewrite (text_fuel_drop L (S (Z.to_nat l)) line' Hnext).
          unfold size. lia. }
        pose proof (text_fuel_pos (drop (S (Z.to_nat l)) L)). lia.
  - split; [lia|]. split; [lia|]. split.
    { intros line _. apply size_nonneg. }
    simpl. unfold rest. simpl.
    destruct L as [|line L']; [unfold size in H0; simpl in H0; lia|].
    simpl. rewrite drop_0. reflexivity.
  - unfold measure. simpl.
    destruct L as [|line L']; [unfold size in H0; simpl in H0; lia|].
    simpl. rewrite drop_0. unfold size. lia.
  - simpl. f_equal. rewrite <- Htext. simpl in Hc.
    assert (l = size L) as -> by lia.
    unfold rest. rewrite (proj2 (lookup_ge_None L _)) by (unfold size; lia).
    symmetry. apply string_append_nil_r.
Qed.

Lemma text_of_lines_app (pre : list Line) (last : Line) :
  text_of_lines (pre ++ [last])
  = (text_of_lines pre ++ string_of_Line last ++ String NEWLINE EmptyString)%string.
Proof.
  induction pre as [|x pre IH]; simpl.
  - rewrite append_EmptyString. reflexivity.
  - rewrite IH. rewrite string_append_assoc, append_String. reflexivity.
Qed.

Lemma string_of_Line_app (a b : Line) :
  string_of_Line (a ++ b) = (string_of_Line a ++ string_of_Line b)%string.
Proof. unfold string_of_Line. rewrite map_app. apply string_of_list_ascii_app. Qed.

Lemma SetText_loop_text (aText : list Char) :
  forall (pre : list Line) (last : Line),
    text_of_lines (SetText_loop aText (pre ++ [last]))
    = (text_of_lines pre ++ string_of_Line last
       ++ string_of_list_ascii (List.filter (λ c, negb (char_eqb c CR)) aText)
       ++ String NEWLINE EmptyString)%string.
Proof.
  induction aText as [|c t IH]; intros pre last.
  - simpl. rewrite append_EmptyString. apply text_of_lines_app.
  - cbn [SetText_loop List.filter].
    destruct (char_eqb c CR) eqn:Hcr; cbn [negb]; [apply IH|].
    destruct (char_eqb c NEWLINE) eqn:Hnl.
    + assert (c = NEWLINE) as ->.
      { unfold char_eqb, char_code in Hnl. apply Z.eqb_eq in Hnl.
        apply N2Z.inj in Hnl.
        rewrite <- (ascii_N_embedding c), Hnl. reflexivity. }
      rewrite IH. rewrite text_of_lines_app.
      change (string_of_Line []) with EmptyString.
      cbn [string_of_list_ascii].
      rewrite !string_append_assoc, !append_String, !append_EmptyString.
      reflexivity.
    + replace (length (pre ++ [last]) - 1)%nat with (length pre + 0)%nat
        by (rewrite length_app; simpl; lia).
      rewrite alter_app_r. cbn [alter list_alter].
      rewrite IH. rewrite string_of_Line_app.
      cbn [string_of_list_ascii].
      change (string_of_Line [Glyph_new c PaletteIndex.Default])
        with (String c EmptyString).
      rewrite !string_append_assoc, !append_String, !append_EmptyString.
      reflexivity.
Qed.

(** [GetText()] after [SetText(aText)] is [aText] without its carriage
    returns and with one newline more at its end. *)
Theorem GetText_all_SetText (ed : TextEditor) (aText : string) :
  GetText_all (SetText ed aText)
  = Ok (without_CR aText ++ String NEWLINE EmptyString)%string.
Proof.
  rewrite GetText_all_lines. f_equal.
  unfold SetText. rewrite mLines_Colorize.
  change (text_of_lines _)
    with (text_of_lines (SetText_loop (list_ascii_of_string aText) ([] ++ [[]]))).
  rewrite SetText_loop_text. reflexivity.
Qed.

(** ** Sanitized coordinates *)



(** A negative line is not repaired: [SanitizeCoordinates] keeps the line of
    a coordinate before the buffer, and only cuts its column to 0. *)
Theorem SanitizeCoordinates_negative_line (ed : TextEditor) (c : Coordinates) :
  mLine c < 0 ->
  SanitizeCoordinates ed c
  = Ok (mkCoordinates (mLine c)
          (if empty (mLines ed) then 0 else Z.min (mColumn c) 0)).
Proof.
  intros Hl. unfold SanitizeCoordinates.
  pose proof (size_nonneg (mLines ed)).
  replace (mLine c >=? size (mLines ed)) with false by lia.
  destruct (empty (mLines ed)); [reflexivity|].
  unfold GetLineMaxColumn, ge_size.
  replace (mLine c <? 0) with true by lia. reflexivity.
Qed.

Lemma SanitizeCoordinates_negative_line_witness :
  SanitizeCoordinates abc (mkCoordinates (-2) 5) = Ok (mkCoordinates (-2) 0).
Proof. apply (SanitizeCoordinates_negative_line abc (mkCoordinates (-2) 5)). simpl. lia. Defined.

(** ** The undo log *)

(** Where the editor can be edited, [AddUndo] returns: the record is the
    last one of the log, at the old index; the records before the old index
    are kept and the records from it on (the steps that could be redone) are
    dropped, so that after it there is a step to undo and no step to redo. *)
Theorem AddUndo_discards_redo (ed : TextEditor) (u : UndoRecord) :
  mReadOnly ed = false -> 0 <= mUndoIndex ed ->
  exists ed',
    AddUndo ed u = Ok ed' /\
    mUndoIndex ed' = mUndoIndex ed + 1 /\
    size (mUndoBuffer ed') = mUndoIndex ed' /\
    at_ (mUndoBuffer ed') (mUndoIndex ed) = Ok u /\
    (forall j, 0 <= j < Z.min (mUndoIndex ed) (size (mUndoBuffer ed)) ->
       mUndoBuffer ed' !! Z.to_nat j = mUndoBuffer ed !! Z.to_nat j) /\
    CanUndo ed' = true /\ CanRedo ed' = false.
Proof.
  intros Hro Hidx. unfold AddUndo. rewrite Hro. simpl.
  replace (0 <=? mUndoIndex ed + 1) with true by lia. simpl.
  set (buf := resize (Z.to_nat (mUndoIndex ed + 1)) UndoRecord_new (mUndoBuffer ed)).
  assert (Hlen : size buf = mUndoIndex ed + 1).
  { unfold size, buf. rewrite length_resize. lia. }
  rewrite set_at_Ok by lia. simpl.
  eexists. split; [reflexivity|]. simpl.
  rewrite Hlen. replace (mUndoIndex ed + 1 - 1) with (mUndoIndex ed) by lia.
  assert (Hlen' : length buf = S (Z.to_nat (mUndoIndex ed))).
  { unfold size in Hlen. lia. }
  split; [reflexivity|]. split.
  { unfold size. rewrite length_insert. lia. }
  split.
  { apply at_Ok. split; [lia|]. apply list_lookup_insert_eq. lia. }
  split.
  { intros j Hj. rewrite list_lookup_insert_ne by lia.
    unfold buf. apply lookup_resize; unfold size in Hj; lia. }
  unfold CanUndo, CanRedo. simpl. rewrite Hro. simpl. split.
  - lia.
  - unfold size. rewrite length_insert. lia.
Qed.

Lemma AddUndo_discards_redo_witness :
  exists ed',
    AddUndo after_session UndoRecord_new = Ok ed' /\
    mUndoIndex ed' = mUndoIndex after_session + 1 /\
    size (mUndoBuffer ed') = mUndoIndex ed' /\
    at_ (mUndoBuffer ed') (mUndoIndex after_session) = Ok UndoRecord_new /\
    (forall j, 0 <= j < Z.min (mUndoIndex after_session) (size (mUndoBuffer after_session)) ->
       mUndoBuffer ed' !! Z.to_nat j = mUndoBuffer after_session !! Z.to_nat j) /\
    CanUndo ed' = true /\ CanRedo ed' = false.
Proof.
  apply (AddUndo_discards_redo after_session UndoRecord_new).
  - reflexivity.
  - vm_compute. discriminate.
Defined.

(** *** The index stays in the log *)

Local Abbreviation undo_ok ed := (undo_log_ok (mUndoBuffer ed) (mUndoIndex ed)).

Create HintDb undo.

Lemma undo_SetCursorPosition ed aPosition :
  undo_ok ed -> undo_ok (SetCursorPosition ed aPosition).
Proof. unfold SetCursorPosition. destruct (negb _); simpl; auto. Qed.

#[local] Hint Resolve undo_SetCursorPosition : undo.
#[local] Hint Extern 2 (undo_log_ok _ _) => progress simpl : undo.

Lemma InsertLine_undo ed aIndex ed' :
  InsertLine ed aIndex = Ok ed' -> undo_ok ed -> undo_ok ed'.
Proof. unfold InsertLine. intros H Hu. inv_Ok; subst; simpl; auto. Qed.

Lemma RemoveLine_undo ed aIndex ed' :
  RemoveLine ed aIndex = Ok ed' -> undo_ok ed -> undo_ok ed'.
Proof. unfold RemoveLine. intros H Hu. inv_Ok; subst; simpl; auto. Qed.

Lemma RemoveLines_undo ed aStart aEnd ed' :
  RemoveLines ed aStart aEnd = Ok ed' -> undo_ok ed -> undo_ok ed'.
Proof. unfold RemoveLines. intros H Hu. inv_Ok; subst; simpl; auto. Qed.

#[local] Hint Resolve InsertLine_undo RemoveLine_undo RemoveLines_undo : undo.

Lemma SetSelection_ref_undo ed aStart aEnd ed' :
  SetSelection_ref ed aStart aEnd = Ok ed' -> undo_ok ed -> undo_ok ed'.
Proof. unfold SetSelection_ref. intros H Hu. inv_Ok; subst; simpl; auto. Qed.

Lemma AddUndo_undo ed u ed' : AddUndo ed u = Ok ed' -> undo_ok ed'.
Proof.
  unfold AddUndo. intros H. inv_Ok. subst. simpl.
  match goal with H : set_at _ _ _ = Ok _ |- _ => apply set_at_inv in H as [Hi ->] end.
  unfold undo_log_ok, size in *. rewrite length_insert.
  rewrite length_resize in *. lia.
Qed.

Lemma DeleteRange_undo ed aStart aEnd ed' :
  DeleteRange ed aStart aEnd = Ok ed' -> undo_ok ed -> undo_ok ed'.
Proof.
  unfold DeleteRange. intros H Hu. inv_Ok; subst; simpl; eauto with undo.
Qed.

Lemma InsertTextAt_undo ed aWhere aValue ed' aWhere' n :
  InsertTextAt ed aWhere aValue = Ok (ed', aWhere', n) -> undo_ok ed -> undo_ok ed'.
Proof.
  unfold InsertTextAt. intros H Hu. inv_Ok.
  match goal with Hw : while _ _ _ _ = Ok _ |- _ =>
    apply (while_keeps
             (λ s : TextEditor * Coordinates * string * Z * Z,
                undo_ok (fst (fst (fst (fst s)))))) in Hw;
      [subst; exact Hw | exact Hu |] end.
  intros [[[[ed0 w0] v0] c0] t0] [[[[ed1 w1] v1] c1] t1] Hinv _ Hb.
  simpl in *. inv_Ok; subst; simpl; eauto with undo.
Qed.

#[local] Hint Resolve SetSelection_ref_undo AddUndo_undo DeleteRange_undo
  InsertTextAt_undo : undo.

Lemma DeleteSelection_undo ed ed' :
  DeleteSelection ed = Ok ed' -> undo_ok ed -> undo_ok ed'.
Proof.
  unfold DeleteSelection. intros H Hu. inv_Ok; subst; simpl; eauto 10 with undo.
Qed.

Lemma InsertText_undo ed aValue ed' :
  InsertText ed aValue = Ok ed' -> undo_ok ed -> undo_ok ed'.
Proof.
  unfold InsertText, SetSelection. intros H Hu. inv_Ok; subst; simpl;
    eauto 10 with undo.
Qed.

#[local] Hint Resolve DeleteSelection_undo InsertText_undo : undo.

Lemma UndoRecord_Undo_undo u ed ed' :
  UndoRecord_Undo u ed = Ok ed' -> undo_ok ed -> undo_ok ed'.
Proof.
  unfold UndoRecord_Undo. intros H Hu. inv_Ok; subst; simpl; eauto with undo.
Qed.

Lemma UndoRecord_Redo_undo u ed ed' :
  UndoRecord_Redo u ed = Ok ed' -> undo_ok ed -> undo_ok ed'.
Proof.
  unfold UndoRecord_Redo. intros H Hu. inv_Ok; subst; simpl; eauto with undo.
Qed.

Lemma Undo_undo ed aSteps ed' :
  Undo ed aSteps = Ok ed' -> undo_ok ed -> undo_ok ed'.
Proof.
  unfold Undo. intros H Hu. inv_Ok.
  match goal with Hw : while _ _ _ _ = Ok _ |- _ =>
    apply (while_keeps (λ s : TextEditor * Z, undo_ok (fst s))) in Hw;
      [subst; exact Hw | exact Hu |] end.
  intros [ed0 n0] [ed1 n1] Hinv Hc Hb. simpl in *.
  apply bind_Ok in Hb as (u & Hu0 & Hb).
  apply bind_Ok in Hb as (ed2 & Hb & Hret). injection Hret as <- _.
  eapply UndoRecord_Undo_undo; [exact Hb|]. simpl.
  unfold CanUndo in Hc. unfold undo_log_ok in *.
  destruct (mReadOnly ed0); simpl in Hc; [discriminate|].
  apply andb_prop in Hc as [Hc _]. lia.
Qed.

Lemma Redo_undo ed aSteps ed' :
  Redo ed aSteps = Ok ed' -> undo_ok ed -> undo_ok ed'.
Proof.
  unfold Redo. intros H Hu. inv_Ok.
  match goal with Hw : while _ _ _ _ = Ok _ |- _ =>
    apply (while_keeps (λ s : TextEditor * Z, undo_ok (fst s))) in Hw;
      [subst; exact Hw | exact Hu |] end.
  intros [ed0 n0] [ed1 n1] Hinv Hc Hb. simpl in *.
  apply bind_Ok in Hb as (u & Hu0 & Hb).
  apply bind_Ok in Hb as (ed2 & Hb & Hret). injection Hret as <- _.
  eapply UndoRecord_Redo_undo; [exact Hb|]. simpl.
  unfold CanRedo in Hc. unfold undo_log_ok in *.
  destruct (mReadOnly ed0); simpl in Hc; [discriminate|].
  apply andb_prop in Hc as [Hc _]. lia.
Qed.

Lemma ToggleComment_undo ed shift ed' :
  ToggleComment ed shift = Ok ed' -> undo_ok ed -> undo_ok ed'.
Proof.
  unfold ToggleComment, ToggleComment_block, ToggleComment_line,
    ToggleComment_verify, ToggleComment_apply, ToggleComment_record.
  intros H Hu. inv_Ok; subst; simpl; eauto 10 with undo.
  all: match goal with Hw : while _ _ _ (_, _, false) = Ok _ |- _ =>
    apply (while_keeps (λ s : TextEditor * Z * bool, undo_ok (fst (fst s)))) in Hw;
      [ | exact Hu
        | intros [[ed0 i0] b0] [[ed1 i1] b1] Hinv _ Hb; simpl in *;
          inv_Ok; subst; simpl; eauto with undo ] end.
  all: simpl in *; eauto with undo.
Qed.

Lemma Delete_undo ed ed' : Delete ed = Ok ed' -> undo_ok ed -> undo_ok ed'.
Proof. unfold Delete. intros H Hu. inv_Ok; subst; simpl; eauto 10 with undo. Qed.

Lemma Backspace_undo ed ed' : Backspace ed = Ok ed' -> undo_ok ed -> undo_ok ed'.
Proof. unfold Backspace. intros H Hu. inv_Ok; subst; simpl; eauto 10 with undo. Qed.

Lemma Cut_undo ed ed' : Cut ed = Ok ed' -> undo_ok ed -> undo_ok ed'.
Proof. unfold Cut. intros H Hu. inv_Ok; subst; simpl; eauto 10 with undo. Qed.

Lemma Paste_undo ed clipText ed' :
  Paste ed clipText = Ok ed' -> undo_ok ed -> undo_ok ed'.
Proof. unfold Paste. intros H Hu. inv_Ok; subst; simpl; eauto 10 with undo. Qed.

Lemma EnterCharacter_tab_undo ed u aShift ed' :
  EnterCharacter_tab ed u aShift = Ok ed' -> undo_ok ed -> undo_ok ed'.
Proof.
  unfold EnterCharacter_tab. intros H Hu.
  repeat match goal with
  | H : context [let '(_, _) := ?p in _] |- _ => destruct p eqn:?
  end.
  inv_Ok; subst; simpl; eauto 10 with undo.
  all: match goal with Hw : while _ _ _ (_, _, false) = Ok _ |- _ =>
    apply (while_keeps (λ s : TextEditor * Z * bool, undo_ok (fst (fst s)))) in Hw;
      [ | exact Hu
        | intros [[ed0 i0] b0] [[ed1 i1] b1] Hinv _ Hb; simpl in *;
          inv_Ok; subst; simpl; eauto with undo ] end.
  all: simpl in *; eauto 10 with undo.
Qed.

#[local] Hint Resolve EnterCharacter_tab_undo : undo.

Lemma EnterCharacter_undo ed aChar aShift ed' :
  EnterCharacter ed aChar aShift = Ok ed' -> undo_ok ed -> undo_ok ed'.
Proof.
  unfold EnterCharacter. intros H Hu. inv_Ok; subst; simpl; eauto 10 with undo.
Qed.

Lemma perform_undo op ed ed' :
  perform op ed = Ok ed' -> undo_ok ed -> undo_ok ed'.
Proof.
  destruct op; simpl; intros H Hu; inv_Ok; subst;
    eauto using InsertText_undo, EnterCharacter_undo, Delete_undo, Backspace_undo,
      DeleteSelection_undo, Cut_undo, Paste_undo, ToggleComment_undo, Undo_undo,
      Redo_undo, InsertLine_undo, RemoveLine_undo, RemoveLines_undo,
      DeleteRange_undo, InsertTextAt_undo, SetSelection_ref_undo,
      undo_SetCursorPosition.
  all: unfold undo_log_ok, size; simpl; lia.
Qed.

(** From an editor whose undo index is a position of its log (the editor of
    the constructor is one: its log is empty and its index is 0), every
    sequence of operations that returns leaves the index in the log:
    [0 <= mUndoIndex <= mUndoBuffer.size()], so that [Undo] and [Redo] read
    records of the log only. *)
Theorem undo_index_in_log (ops : list Operation) (ed ed' : TextEditor) :
  undo_log_ok (mUndoBuffer ed) (mUndoIndex ed) ->
  perform_all ops ed = Ok ed' ->
  undo_log_ok (mUndoBuffer ed') (mUndoIndex ed').
Proof.
  revert ed ed'. induction ops as [|op ops IH]; simpl; intros ed ed' Hu H.
  - injection H as <-. exact Hu.
  - apply bind_Ok in H as (ed1 & H1 & H). eapply IH; [|exact H].
    eapply perform_undo; eassumption.
Qed.

Lemma undo_index_in_log_witness :
  undo_log_ok (mUndoBuffer after_session) (mUndoIndex after_session).
Proof.
  apply (undo_index_in_log session TextEditor_new after_session).
  - unfold undo_log_ok, size. simpl. lia.
  - vm_compute. reflexivity.
Defined.

(** ** A read-only editor *)











(** ** The side tables when a line is inserted or removed *)

Lemma ErrorMarkers_insert_last (e : Z * string) (m : ErrorMarkers) :
  (forall e', e' ∈ m -> fst e' < fst e) -> ErrorMarkers_insert e m = m ++ [e].
Proof.
  induction m as [|x m IH]; intros Hlt; simpl; [reflexivity|].
  assert (Hx : fst x < fst e) by (apply Hlt; left).
  replace (fst e <? fst x) with false by lia.
  replace (fst e =? fst x) with false by lia.
  rewrite IH; [reflexivity|]. intros e' He'. apply Hlt. right. exact He'.
Qed.

(** The entries of a map, each one moved by a strictly increasing function
    of the line and inserted into an empty map, in their order. *)
Lemma ErrorMarkers_fold_insert (f : Z -> Z) (m acc : ErrorMarkers) :
  (forall a b, a < b -> f a < f b) ->
  ErrorMarkers_ordered m ->
  (forall e e', e ∈ acc -> e' ∈ m -> fst e < f (fst e')) ->
  foldl (λ etmp i, ErrorMarkers_insert (f (fst i), snd i) etmp) acc m
  = acc ++ map (λ i, (f (fst i), snd i)) m.
Proof.
  intros Hf. revert acc. induction m as [|x m IH]; intros acc Hord Hacc; simpl.
  - rewrite app_nil_r. reflexivity.
  - destruct Hord as [Hx Hord].
    rewrite ErrorMarkers_insert_last.
    + rewrite IH; [rewrite <- app_assoc; reflexivity | exact Hord |].
      intros e e' He He'. apply elem_of_app in He as [He|He].
      * apply Hacc; [exact He | right; exact He'].
      * apply list_elem_of_singleton in He as ->. simpl. apply Hf, Hx, He'.
    + intros e' He'. simpl. apply Hacc; [exact He' | left].
Qed.

(** Where the editor can be edited, [InsertLine(aIndex)] at a position of the
    buffer returns; an empty line is at [aIndex] and the lines from there on
    are one position later, and so are their error markers and their
    breakpoints: the entries of the lines before [aIndex] stay, and the
    entries of the lines from [aIndex] on move by one. *)
Theorem InsertLine_side_tables (ed : TextEditor) (aIndex : Z) :
  mReadOnly ed = false ->
  0 <= aIndex <= size (mLines ed) ->
  ErrorMarkers_ordered (mErrorMarkers ed) ->
  let moved (j : Z) := if j >=? aIndex then j + 1 else j in
  exists ed',
    InsertLine ed aIndex = Ok ed' /\
    mLines ed'
      = take (Z.to_nat aIndex) (mLines ed) ++ [] :: drop (Z.to_nat aIndex) (mLines ed) /\
    mErrorMarkers ed' = map (λ e, (moved (fst e), snd e)) (mErrorMarkers ed) /\
    (forall i, i ∈ mBreakpoints ed' <-> exists j, j ∈ mBreakpoints ed /\ i = moved j).
Proof.
  intros Hro Hi Hord moved.
  destruct (InsertLine ed aIndex) as [ed'|] eqn:H.
  - exists ed'. split; [reflexivity|].
    pose proof (InsertLine_breakpoints ed ed' aIndex H) as Hbp.
    unfold InsertLine, insert_at, insert_range in H.
    rewrite Hro in H. simpl in H.
    replace ((0 <=? aIndex) && (aIndex <=? size (mLines ed))) with true in H by lia.
    simpl in H. injection H as <-. simpl.
    split; [reflexivity|]. split; [|exact Hbp].
    rewrite (ErrorMarkers_fold_insert moved _ [] ); [reflexivity| |exact Hord|].
    + intros a b Hab. unfold moved.
      destruct (a >=? aIndex) eqn:Ha, (b >=? aIndex) eqn:Hb; lia.
    + intros e e' He. apply elem_of_nil in He. contradiction.
  - exfalso. unfold InsertLine, insert_at, insert_range in H.
    rewrite Hro in H. simpl in H.
    replace ((0 <=? aIndex) && (aIndex <=? size (mLines ed))) with true in H by lia.
    discriminate H.
Qed.

Lemma InsertLine_side_tables_witness :
  let moved (j : Z) := if j >=? 4 then j + 1 else j in
  exists ed',
    InsertLine five_lines 4 = Ok ed' /\
    mLines ed'
      = take (Z.to_nat 4) (mLines five_lines) ++ [] :: drop (Z.to_nat 4) (mLines five_lines) /\
    mErrorMarkers ed' = map (λ e, (moved (fst e), snd e)) (mErrorMarkers five_lines) /\
    (forall i, i ∈ mBreakpoints ed' <-> exists j, j ∈ mBreakpoints five_lines /\ i = moved j).
Proof.
  apply (InsertLine_side_tables five_lines 4).
  - reflexivity.
  - vm_compute. split; discriminate.
  - simpl. split.
    + intros e' He'. apply list_elem_of_singleton in He' as ->. simpl. lia.
    + split; [|exact I]. intros e' He'. apply elem_of_nil in He'. contradiction.
Defined.

Lemma ErrorMarkers_find_None (i : Z) (m : ErrorMarkers) :
  (forall e, e ∈ m -> i < fst e) -> ErrorMarkers_find i m = None.
Proof.
  induction m as [|x m IH]; intros Hlt; simpl; [reflexivity|].
  assert (i < fst x) by (apply Hlt; left).
  replace (fst x =? i) with false by lia.
  apply IH. intros e He. apply Hlt. right. exact He.
Qed.

Lemma elem_of_ErrorMarkers_insert (e x : Z * string) (m : ErrorMarkers) :
  x ∈ ErrorMarkers_insert e m -> x = e \/ x ∈ m.
Proof.
  induction m as [|y m IH]; simpl.
  - intros Hx. apply list_elem_of_singleton in Hx. auto.
  - destruct (fst e <? fst y).
    + intros Hx. apply elem_of_cons in Hx as [->|Hx]; auto.
    + destruct (fst e =? fst y); [auto|].
      intros Hx. apply elem_of_cons in Hx as [->|Hx]; [right; left|].
      destruct (IH Hx) as [->|Hm]; [auto|right; right; exact Hm].
Qed.

Lemma ErrorMarkers_insert_ordered (e : Z * string) (m : ErrorMarkers) :
  ErrorMarkers_ordered m -> ErrorMarkers_ordered (ErrorMarkers_insert e m).
Proof.
  induction m as [|y m IH]; simpl.
  - intros _. split; [|exact I]. intros e' He'. apply elem_of_nil in He'. contradiction.
  - intros [Hy Hord]. destruct (fst e <? fst y) eqn:Hlt.
    + simpl. split; [|split; assumption].
      intros e' He'. apply elem_of_cons in He' as [->|He']; [lia|].
      specialize (Hy e' He'). lia.
    + destruct (fst e =? fst y) eqn:Heq; [simpl; auto|].
      simpl. split; [|auto].
      intros e' He'. apply elem_of_ErrorMarkers_insert in He' as [->|He']; [lia|auto].
Qed.

(** [insert] puts a new entry into the map, and keeps the entry of a line
    that has one. *)
Lemma ErrorMarkers_find_insert (i : Z) (e : Z * string) (m : ErrorMarkers) :
  ErrorMarkers_ordered m ->
  ErrorMarkers_find i (ErrorMarkers_insert e m)
  = match ErrorMarkers_find i m with
    | Some x => Some x
    | None => if fst e =? i then Some (snd e) else None
    end.
Proof.
  induction m as [|y m IH]; simpl; [reflexivity|].
  intros [Hy Hord]. destruct (fst e <? fst y) eqn:Hlt.
  - simpl. destruct (fst e =? i) eqn:Hei.
    + replace (fst y =? i) with false by lia.
      rewrite ErrorMarkers_find_None; [reflexivity|].
      intros e' He'. specialize (Hy e' He'). lia.
    + destruct (fst y =? i); [reflexivity|].
      destruct (ErrorMarkers_find i m); reflexivity.
  - destruct (fst e =? fst y) eqn:Heq; simpl.
    + destruct (fst y =? i) eqn:Hyi; [reflexivity|].
      replace (fst e =? i) with false by lia.
      destruct (ErrorMarkers_find i m); reflexivity.
    + destruct (fst y =? i); [reflexivity|]. apply IH. exact Hord.
Qed.

(** The loop of [RemoveLine(aIndex)] over the error markers. *)
Lemma RemoveLine_markers_fold (aIndex i : Z) (m acc : ErrorMarkers) :
  ErrorMarkers_ordered m -> ErrorMarkers_ordered acc ->
  let etmp :=
    foldl (λ etmp i,
             let e := (if fst i >? aIndex then fst i - 1 else fst i, snd i) in
             if fst e - 1 =? aIndex then etmp
             else ErrorMarkers_insert e etmp) acc m in
  ErrorMarkers_ordered etmp /\
  ErrorMarkers_find i etmp
  = match ErrorMarkers_find i acc with
    | Some x => Some x
    | None =>
        if i <? aIndex then ErrorMarkers_find i m
        else if i =? aIndex then
          match ErrorMarkers_find aIndex m with
          | Some x => Some x
          | None => ErrorMarkers_find (aIndex + 1) m
          end
        else if i =? aIndex + 1 then None
        else ErrorMarkers_find (i + 1) m
    end.
Proof.
  intros Hm Hacc etmp. subst etmp.
  match goal with |- context [foldl ?f _ _] => set (F := f) end.
  revert acc Hacc. induction m as [|[j msg] m IH]; intros acc Hacc; cbn [foldl].
  - split; [exact Hacc|]. simpl.
    destruct (ErrorMarkers_find i acc); [reflexivity|].
    destruct (i <? aIndex); [reflexivity|].
    destruct (i =? aIndex); [reflexivity|]. destruct (i =? aIndex + 1); reflexivity.
  - destruct Hm as [Hj Hm]. simpl in Hj.
    set (e := (if j >? aIndex then j - 1 else j, msg)).
    assert (HF : F acc (j, msg)
                 = if fst e - 1 =? aIndex then acc else ErrorMarkers_insert e acc)
      by reflexivity.
    rewrite HF. clear HF.
    assert (Hrest : forall i', i' <= j -> ErrorMarkers_find i' m = None).
    { intros i' Hi'. apply ErrorMarkers_find_None.
      intros e' He'. specialize (Hj e' He'). lia. }
    cbn [ErrorMarkers_find fst snd].
    destruct (fst e - 1 =? aIndex) eqn:Hskip; unfold e in Hskip; simpl in Hskip.
    + (* the entry of line aIndex + 2 *)
      assert (j = aIndex + 2) as -> by (destruct (j >? aIndex) eqn:?; lia).
      destruct (IH Hm acc Hacc) as [Hord Hfind]. clear IH.
      split; [exact Hord|]. rewrite Hfind.
      destruct (ErrorMarkers_find i acc); [reflexivity|].
      replace (aIndex + 2 =? i) with (i =? aIndex + 2) by lia.
      replace (aIndex + 2 =? aIndex) with false by lia.
      replace (aIndex + 2 =? aIndex + 1) with false by lia.
      replace (aIndex + 2 =? i + 1) with (i =? aIndex + 1) by lia.
      destruct (i <? aIndex) eqn:H1;
        [replace (i =? aIndex + 2) with false by lia; reflexivity|].
      destruct (i =? aIndex) eqn:H2; [reflexivity|].
      destruct (i =? aIndex + 1) eqn:H3; reflexivity.
    + destruct (IH Hm (ErrorMarkers_insert e acc)
                  (ErrorMarkers_insert_ordered e acc Hacc)) as [Hord Hfind].
      clear IH. split; [exact Hord|]. rewrite Hfind.
      rewrite (ErrorMarkers_find_insert i e acc Hacc).
      destruct (ErrorMarkers_find i acc) as [x|] eqn:Hacci; [reflexivity|].
      unfold e. simpl.
      destruct (j >? aIndex) eqn:Hja.
      * (* a line after aIndex *)
        destruct (j - 1 =? i) eqn:Hji.
        -- replace (i <? aIndex) with false by lia.
           destruct (i =? aIndex) eqn:H2.
           ++ replace (j =? aIndex) with false by lia.
              replace (j =? aIndex + 1) with true by lia.
              rewrite (Hrest aIndex) by lia. reflexivity.
           ++ replace (i =? aIndex + 1) with false by lia.
              replace (j =? i + 1) with true by lia. reflexivity.
        -- destruct (i <? aIndex) eqn:H1.
           { replace (j =? i) with false by lia. reflexivity. }
           destruct (i =? aIndex) eqn:H2.
           { replace (j =? aIndex) with false by lia.
             replace (j =? aIndex + 1) with false by lia. reflexivity. }
           destruct (i =? aIndex + 1) eqn:H3; [reflexivity|].
           replace (j =? i + 1) with false by lia. reflexivity.
      * (* a line up to aIndex *)
        destruct (j =? i) eqn:Hji.
        -- destruct (i <? aIndex) eqn:H1; [reflexivity|].
           replace (i =? aIndex) with true by lia.
           replace (j =? aIndex) with true by lia. reflexivity.
        -- destruct (i <? aIndex) eqn:H1; [reflexivity|].
           destruct (i =? aIndex) eqn:H2.
           { replace (j =? aIndex) with false by lia.
             replace (j =? aIndex + 1) with false by lia. reflexivity. }
           destruct (i =? aIndex + 1) eqn:H3; [reflexivity|].
           replace (j =? i + 1) with false by lia. reflexivity.
Qed.

(** Where the editor can be edited and the buffer has two lines or more,
    [RemoveLine(aIndex)] of a line of the buffer returns, and the line is
    gone.  The breakpoint of the line is dropped and the breakpoints of the
    lines after it move up by one.  The error markers do not follow the
    lines in the same way: the marker of the removed line stays where it is,
    on the line that comes after; the marker of that line is kept only where
    the removed line had none; the marker two lines after the removed line is
    dropped; the markers of the lines after those move up by one. *)
Theorem RemoveLine_side_tables (ed : TextEditor) (aIndex : Z) :
  mReadOnly ed = false ->
  0 <= aIndex < size (mLines ed) ->
  1 < size (mLines ed) ->
  ErrorMarkers_ordered (mErrorMarkers ed) ->
  exists ed',
    RemoveLine ed aIndex = Ok ed' /\
    mLines ed'
      = take (Z.to_nat aIndex) (mLines ed) ++ drop (S (Z.to_nat aIndex)) (mLines ed) /\
    (forall i, i ∈ mBreakpoints ed' <->
       exists j, j ∈ mBreakpoints ed /\ j <> aIndex /\
                 i = if j >? aIndex then j - 1 else j) /\
    ErrorMarkers_ordered (mErrorMarkers ed') /\
    (forall i, ErrorMarkers_find i (mErrorMarkers ed')
       = if i <? aIndex then ErrorMarkers_find i (mErrorMarkers ed)
         else if i =? aIndex then
           match ErrorMarkers_find aIndex (mErrorMarkers ed) with
           | Some x => Some x
           | None => ErrorMarkers_find (aIndex + 1) (mErrorMarkers ed)
           end
         else if i =? aIndex + 1 then None
         else ErrorMarkers_find (i + 1) (mErrorMarkers ed)).
Proof.
  intros Hro Hi Hsz Hord. unfold RemoveLine, erase.
  rewrite Hro. simpl.
  replace (size (mLines ed) >? 1) with true by lia. simpl.
  replace ((0 <=? aIndex) && (aIndex <=? aIndex + 1) && (aIndex + 1 <=? size (mLines ed)))
    with true by lia.
  simpl.
  replace (Z.to_nat (aIndex + 1)) with (S (Z.to_nat aIndex)) by lia.
  assert (Hne : empty (take (Z.to_nat aIndex) (mLines ed)
                       ++ drop (S (Z.to_nat aIndex)) (mLines ed)) = false).
  { apply empty_false. intros Hnil. apply (f_equal length) in Hnil.
    rewrite length_app, length_take, length_drop in Hnil.
    unfold size in *. simpl in Hnil. lia. }
  rewrite Hne. simpl.
  eexists. split; [reflexivity|]. simpl.
  split; [reflexivity|]. split; [|split].
  - intros i. unfold set_fold. simpl.
    setoid_rewrite <- elem_of_elements at 2.
    induction (elements (mBreakpoints ed)) as [|b bs IH]; simpl.
    + split; [set_solver|]. intros (j & Hj & _). inversion Hj.
    + destruct (b =? aIndex) eqn:Hb.
      * rewrite IH. split.
        -- intros (j & Hj & Hn & ->). exists j. repeat split; auto. constructor; auto.
        -- intros (j & Hj & Hn & ->). apply elem_of_cons in Hj as [->|Hj]; [lia|eauto].
      * rewrite elem_of_union, elem_of_singleton, IH. split.
        -- intros [->|(j & Hj & Hn & ->)]; [exists b|exists j]; repeat split; auto.
           ++ constructor.
           ++ lia.
           ++ destruct (b >=? aIndex) eqn:?, (b >? aIndex) eqn:?; lia.
           ++ constructor; auto.
        -- intros (j & Hj & Hn & ->). apply elem_of_cons in Hj as [->|Hj]; [|eauto].
           left. destruct (b >=? aIndex) eqn:?, (b >? aIndex) eqn:?; lia.
  - apply (RemoveLine_markers_fold aIndex 0 (mErrorMarkers ed) [] Hord I).
  - intros i.
    destruct (RemoveLine_markers_fold aIndex i (mErrorMarkers ed) [] Hord I) as [_ H].
    exact H.
Qed.

Lemma RemoveLine_side_tables_witness :
  exists ed',
    RemoveLine five_lines 3 = Ok ed' /\
    mLines ed'
      = take (Z.to_nat 3) (mLines five_lines) ++ drop (S (Z.to_nat 3)) (mLines five_lines) /\
    (forall i, i ∈ mBreakpoints ed' <->
       exists j, j ∈ mBreakpoints five_lines /\ j <> 3 /\
                 i = if j >? 3 then j - 1 else j) /\
    ErrorMarkers_ordered (mErrorMarkers ed') /\
    (forall i, ErrorMarkers_find i (mErrorMarkers ed')
       = if i <? 3 then ErrorMarkers_find i (mErrorMarkers five_lines)
         else if i =? 3 then
           match ErrorMarkers_find 3 (mErrorMarkers five_lines) with
           | Some x => Some x
           | None => ErrorMarkers_find (3 + 1) (mErrorMarkers five_lines)
           end
         else if i =? 3 + 1 then None
         else ErrorMarkers_find (i + 1) (mErrorMarkers five_lines)).
Proof.
  apply (RemoveLine_side_tables five_lines 3).
  - reflexivity.
  - vm_compute. split; [discriminate|reflexivity].
  - vm_compute. reflexivity.
  - simpl. split.
    + intros e' He'. apply list_elem_of_singleton in He' as ->. simpl. lia.
    + split; [|exact I]. intros e' He'. apply elem_of_nil in He'. contradiction.
Defined.
